(** * Debug sample history: navigation over debug images

    A shallow embedding of [apiserver/bll/event/debug_sample_history.py]:
    the variant-range resolver ([_get_variant_iterations]), the two-phase
    navigation ([_get_next_for_current_iteration],
    [_get_next_for_another_iteration]), and the two public operations
    [get_next_debug_image] and [get_debug_image_for_variant], together with
    the part of the search backend and of the state cache they talk to;
    and of the [Settings] model of [apiserver/database/model/settings.py].

    Python values are modelled as follows: [int] is [Z], [str] is [string]
    compared bytewise ([String.compare], the order of Python on code points
    and of a keyword field in the search backend), an attribute that may be
    unset is an [option], a raised exception is [Raise]. *)

From Stdlib Require Import ZArith String List Lia.
From stdpp Require Import base tactics option list sorting strings gmap stringmap.

Local Open Scope string_scope.
Local Open Scope list_scope.
Local Open Scope Z_scope.
Set Warnings "-register-all".

(** ** Exceptions *)

(** The exceptions that the modelled code can raise. [DataError] is what
    [translate_errors_context] turns an [ElasticsearchException] into. *)
Inductive Error : Type :=
| InvalidScrollId
| DataError
| TypeError
| IndexError.

Inductive Result (A : Type) : Type :=
| Ok (a : A)
| Raise (e : Error).
Arguments Ok {A} a.
Arguments Raise {A} e.

Definition bind {A B : Type} (m : Result A) (k : A -> Result B) : Result B :=
  match m with
  | Ok a => k a
  | Raise e => Raise e
  end.

Notation "'let*' x ':=' m 'in' k" := (bind m (fun x => k))
  (at level 10, x pattern, m at level 100, k at level 200).

(** A list comprehension whose body may raise. *)
Fixpoint traverse {A B : Type} (f : A -> Result B) (l : list A) : Result (list B) :=
  match l with
  | [] => Ok []
  | x :: l' =>
      let* y := f x in
      let* ys := traverse f l' in
      Ok (y :: ys)
  end.

(** ** Documents of the search backend *)

(** A debug image event, with the fields that the queries read. [url] is
    the payload reference; it is absent from an event that carries no
    image. *)
Module Event.
Record t : Type := mk {
  task : string;
  metric : string;
  variant : string;
  iter : Z;
  url : option string;
}.
End Event.

(** The [metrics_image] index, by company id. *)
Definition Elasticsearch : Type := string -> list Event.t.

(** ** The query language *)

Inductive Field : Type := FTask | FMetric | FVariant | FIter | FUrl.

Inductive Value : Type :=
| VStr (s : string)
| VInt (z : Z).

Global Instance Value_eq_dec : EqDecision Value.
Proof. solve_decision. Defined.

Definition field_value (f : Field) (d : Event.t) : option Value :=
  match f with
  | FTask => Some (VStr (Event.task d))
  | FMetric => Some (VStr (Event.metric d))
  | FVariant => Some (VStr (Event.variant d))
  | FIter => Some (VInt (Event.iter d))
  | FUrl => VStr <$> Event.url d
  end.

(** The bounds of a [range] query; an absent (or null) bound does not
    constrain. *)
Module Bounds.
Record t : Type := mk {
  gt : option Z;
  gte : option Z;
  lt : option Z;
  lte : option Z;
}.
End Bounds.

(** [QTerm f None] is a [term] query whose value is JSON null, which is
    what a request built from an unset attribute carries. *)
Inductive Query : Type :=
| QTerm (f : Field) (v : option Value)
| QTerms (f : Field) (vs : list Value)
| QRange (f : Field) (b : Bounds.t)
| QExists (f : Field)
| QBool (must should : list Query).

Definition bound_ok (test : Z -> bool) (b : option Z) : bool :=
  match b with
  | Some z => test z
  | None => true
  end.

Definition in_bounds (b : Bounds.t) (z : Z) : bool :=
  bound_ok (fun lo => lo <? z) (Bounds.gt b)
  && bound_ok (fun lo => lo <=? z) (Bounds.gte b)
  && bound_ok (fun hi => z <? hi) (Bounds.lt b)
  && bound_ok (fun hi => z <=? hi) (Bounds.lte b).

(** Modelled from the spec: the search backend is not part of the sources
    at hand; of its query language the requests use term equality, terms
    membership, numeric range, field existence and boolean must/should
    composition. Whether a document matches a query; a [bool] query with
    no [must] clause needs one of its [should] clauses to match. *)
Fixpoint matches (q : Query) (d : Event.t) : bool :=
  match q with
  | QTerm f v =>
      match v with
      | Some v' => bool_decide (field_value f d = Some v')
      | None => false
      end
  | QTerms f vs =>
      match field_value f d with
      | Some v => bool_decide (v ∈ vs)
      | None => false
      end
  | QRange f b =>
      match field_value f d with
      | Some (VInt z) => in_bounds b z
      | _ => false
      end
  | QExists f => bool_decide (is_Some (field_value f d))
  | QBool must should =>
      forallb (fun q' => matches q' d) must
      && match must, should with
         | [], _ :: _ => existsb (fun q' => matches q' d) should
         | _, _ => true
         end
  end.

(** Modelled from the spec: a request that the backend cannot read is a
    data access failure. The backend refuses a [term] query on null. *)
Fixpoint well_formed (q : Query) : bool :=
  match q with
  | QTerm _ v => bool_decide (is_Some v)
  | QBool must should => forallb well_formed must && forallb well_formed should
  | _ => true
  end.

Inductive Order : Type := asc | desc.

Definition compare_option {A : Type} (cmp : A -> A -> comparison)
    (a b : option A) : comparison :=
  match a, b with
  | Some x, Some y => cmp x y
  | Some _, None => Lt
  | None, Some _ => Gt
  | None, None => Eq
  end.

Definition compare_field (f : Field) (d1 d2 : Event.t) : comparison :=
  match f with
  | FTask => String.compare (Event.task d1) (Event.task d2)
  | FMetric => String.compare (Event.metric d1) (Event.metric d2)
  | FVariant => String.compare (Event.variant d1) (Event.variant d2)
  | FIter => Z.compare (Event.iter d1) (Event.iter d2)
  | FUrl => compare_option String.compare (Event.url d1) (Event.url d2)
  end.

Definition directed (o : Order) (c : comparison) : comparison :=
  match o with
  | asc => c
  | desc => CompOpp c
  end.

(** Modelled from the spec: the multi-field sort of the search backend,
    with a direction per field. Comparison of two documents under a list
    of sort keys, the first key being the most significant. *)
Fixpoint compare_docs (sort : list (Field * Order)) (d1 d2 : Event.t) : comparison :=
  match sort with
  | [] => Eq
  | (f, o) :: sort' =>
      match directed o (compare_field f d1 d2) with
      | Eq => compare_docs sort' d1 d2
      | c => c
      end
  end.

Definition docs_leb (sort : list (Field * Order)) (d1 d2 : Event.t) : bool :=
  match compare_docs sort d1 d2 with
  | Gt => false
  | _ => true
  end.

Module SearchRequest.
Record t : Type := mk {
  size : nat;
  sort : list (Field * Order);
  query : Query;
}.
End SearchRequest.

(** Modelled from the spec: [search_company_events] of [event_common] and
    the search backend behind it are not part of the sources at hand. For a
    request without aggregations the answer is the [_source] of the hits:
    the documents of the company's index that match, in the requested
    order, cut at [size]. Which of two documents with equal sort keys
    comes first is the backend's choice; here it is the choice of
    [merge_sort]. A malformed request makes the backend fail, which
    [translate_errors_context] reports as [DataError]. *)
Definition search_company_events (es : Elasticsearch) (company_id : string)
    (body : SearchRequest.t) : Result (list Event.t) :=
  if well_formed (SearchRequest.query body) then
    Ok (take (SearchRequest.size body)
          (merge_sort (fun d1 d2 => Is_true (docs_leb (SearchRequest.sort body) d1 d2))
             (filter (fun d => Is_true (matches (SearchRequest.query body) d))
                (es company_id))))
  else Raise DataError.

(** Modelled from the spec: [check_empty_data] of [event_common] is not
    part of the sources at hand; it tells whether the index holds zero
    documents for the company and event type. *)
Definition check_empty_data (es : Elasticsearch) (company_id : string) : bool :=
  match es company_id with
  | [] => true
  | _ :: _ => false
  end.

(** ** Aggregations *)

(** Modelled from the spec: the [max] aggregation of the search backend
    over the [iter] field: the largest iteration of the documents, null
    when there is none. The backend reports it as a double, which holds
    an iteration exactly up to 2^53; it is an integer here. *)
Definition max_agg (docs : list Event.t) : option Z :=
  match docs with
  | [] => None
  | d :: docs' => Some (foldr Z.max (Event.iter d) (Event.iter <$> docs'))
  end.

(** Modelled from the spec: the buckets of a [terms] aggregation of the
    search backend before they are ordered and cut: one per distinct value
    of the field, holding the documents that carry the value. *)
Definition terms_buckets (field : Event.t -> option string)
    (docs : list Event.t) : list (string * list Event.t) :=
  (fun k => (k, filter (fun d => field d = Some k) docs))
    <$> remove_dups (omap field docs).

Module UrlBucket.
Record t : Type := mk {
  key : string;
  max_iter : option Z;
}.
End UrlBucket.

Module VariantBucket.
Record t : Type := mk {
  key : string;
  last_iter : option Z;
  urls : list UrlBucket.t;
}.
End VariantBucket.

(** ["order": {"max_iter": "asc"}]; a bucket without a value goes last. *)
Definition max_iter_le (b1 b2 : UrlBucket.t) : Prop :=
  match UrlBucket.max_iter b1, UrlBucket.max_iter b2 with
  | Some m1, Some m2 => m1 <= m2
  | _, None => True
  | None, Some _ => False
  end.

Global Instance max_iter_le_dec : RelDecision max_iter_le.
Proof.
  intros b1 b2. unfold max_iter_le.
  destruct (UrlBucket.max_iter b1), (UrlBucket.max_iter b2); apply _.
Defined.

(** ["order": {"_key": "asc"}] *)
Definition key_le (b1 b2 : VariantBucket.t) : Prop :=
  String.le (VariantBucket.key b1) (VariantBucket.key b2).

Global Instance key_le_dec : RelDecision key_le.
Proof. intros b1 b2. unfold key_le. apply _. Defined.

(** Modelled from the spec: what the search backend answers to the [urls]
    sub-aggregation of the request of [_get_variant_iterations]: group by
    url, order the groups by their largest iteration ([max_iter],
    ascending), keep the first ([size] 1). *)
Definition urls_agg (docs : list Event.t) : list UrlBucket.t :=
  take 1
    (merge_sort max_iter_le
       ((fun b => UrlBucket.mk b.1 (max_agg b.2)) <$> terms_buckets Event.url docs)).

Section Resolver.

(** [EventSettings.max_variants_count], a configuration value. *)
Variable max_variants_count : nat.

(** Modelled from the spec: what the search backend answers to the
    [variants] aggregation of the request of [_get_variant_iterations]:
    group by variant, order the groups by name ([_key], ascending), keep
    at most [max_variants_count] of them, and compute [last_iter] and
    [urls] in each. *)
Definition variants_agg (docs : list Event.t) : list VariantBucket.t :=
  take max_variants_count
    (merge_sort key_le
       ((fun b => VariantBucket.mk b.1 (max_agg b.2) (urls_agg b.2))
          <$> terms_buckets (fun d => Some (Event.variant d)) docs)).

(** Modelled from the spec: [search_company_events] for the request of
    [_get_variant_iterations], which asks for no hits ([size] 0) and for
    the [variants] aggregation over the documents that match; the answer
    is the list at [aggregations.variants.buckets]. *)
Definition search_company_events_aggs (es : Elasticsearch)
    (company_id : string) (query : Query) : Result (list VariantBucket.t) :=
  if well_formed query then
    Ok (variants_agg
          (filter (fun d => Is_true (matches query d)) (es company_id)))
  else Raise DataError.

(** Python's [int] on the value of a [max] aggregation; [int(None)]
    raises. *)
Definition int (value : option Z) : Result Z :=
  match value with
  | Some z => Ok z
  | None => Raise TypeError
  end.

Definition get_variant_data (variant_bucket : VariantBucket.t)
    : Result (string * Z * Z) :=
  let variant := VariantBucket.key variant_bucket in
  match VariantBucket.urls variant_bucket with
  | [] => Raise IndexError
  | url0 :: _ =>
      let* min_iter := int (UrlBucket.max_iter url0) in
      let* max_iter := int (VariantBucket.last_iter variant_bucket) in
      Ok (variant, min_iter, max_iter)
  end.

(** The query of the request of [_get_variant_iterations]. The [terms]
    condition on the variant is appended under [if variants:], that is
    for a list of variants that is given and not empty, and it carries
    the whole list. *)
Definition variant_iterations_query (task metric : option string)
    (variants : option (list string)) : Query :=
  QBool
    ([QTerm FTask (VStr <$> task);
      QTerm FMetric (VStr <$> metric);
      QExists FUrl]
     ++ match variants with
        | Some ((_ :: _) as vs) => [QTerms FVariant (VStr <$> vs)]
        | _ => []
        end)
    [].

(** The valid iteration window of every variant of a task and metric:
    its name, the lowest iteration that holds an image that was not
    recycled, and the last iteration. *)
Definition _get_variant_iterations (es : Elasticsearch) (company_id : string)
    (task metric : option string) (variants : option (list string))
    : Result (list (string * Z * Z)) :=
  let* buckets :=
    search_company_events_aggs es company_id
      (variant_iterations_query task metric variants) in
  traverse get_variant_data buckets.

End Resolver.

(** ** The navigation state and the result *)

Module VariantState.
Record t : Type := mk {
  name : string;
  min_iteration : Z;
  max_iteration : Z;
}.
End VariantState.

Module DebugSampleHistoryState.
Record t : Type := mk {
  id : string;
  iteration : option Z;
  variant : option string;
  task : option string;
  metric : option string;
  reached_first : option bool;
  reached_last : option bool;
  variant_states : list VariantState.t;
  warning : option string;
}.

(** [state_class(id=...)]: every other attribute is unset. *)
Definition new (id : string) : t :=
  mk id None None None None None None [] None.

Definition set_iteration (v : option Z) (s : t) : t :=
  mk (id s) v (variant s) (task s) (metric s) (reached_first s)
     (reached_last s) (variant_states s) (warning s).
Definition set_variant (v : option string) (s : t) : t :=
  mk (id s) (iteration s) v (task s) (metric s) (reached_first s)
     (reached_last s) (variant_states s) (warning s).
Definition set_task (v : option string) (s : t) : t :=
  mk (id s) (iteration s) (variant s) v (metric s) (reached_first s)
     (reached_last s) (variant_states s) (warning s).
Definition set_metric (v : option string) (s : t) : t :=
  mk (id s) (iteration s) (variant s) (task s) v (reached_first s)
     (reached_last s) (variant_states s) (warning s).
Definition set_variant_states (v : list VariantState.t) (s : t) : t :=
  mk (id s) (iteration s) (variant s) (task s) (metric s) (reached_first s)
     (reached_last s) v (warning s).
End DebugSampleHistoryState.

Module DebugSampleHistoryResult.
Record t : Type := mk {
  scroll_id : option string;
  event : option Event.t;
  min_iteration : option Z;
  max_iteration : option Z;
}.

Definition set_scroll_id (v : option string) (r : t) : t :=
  mk v (event r) (min_iteration r) (max_iteration r).
Definition set_event (v : option Event.t) (r : t) : t :=
  mk (scroll_id r) v (min_iteration r) (max_iteration r).
Definition set_min_iteration (v : option Z) (r : t) : t :=
  mk (scroll_id r) (event r) v (max_iteration r).
Definition set_max_iteration (v : option Z) (r : t) : t :=
  mk (scroll_id r) (event r) (min_iteration r) v.
End DebugSampleHistoryResult.

Abbreviation State := DebugSampleHistoryState.t.
Abbreviation Res := DebugSampleHistoryResult.t.

(** The states held by the cache, by cursor id. *)
Abbreviation Store := (gmap string DebugSampleHistoryState.t).

(** ** Comparisons of Python *)

(** [a < b] and [a <= b] on [int], and [operator.lt], [operator.gt] on
    [str], where the right operand comes from an attribute that may be
    unset: comparing with [None] raises [TypeError]. *)
Definition int_lt (a : Z) (b : option Z) : Result bool :=
  match b with
  | Some b' => Ok (a <? b')
  | None => Raise TypeError
  end.

Definition int_le (a : Z) (b : option Z) : Result bool :=
  match b with
  | Some b' => Ok (a <=? b')
  | None => Raise TypeError
  end.

Definition operator_lt (a : string) (b : option string) : Result bool :=
  match b with
  | Some b' => Ok (String.ltb a b')
  | None => Raise TypeError
  end.

Definition operator_gt (a : string) (b : option string) : Result bool :=
  match b with
  | Some b' => Ok (String.ltb b' a)
  | None => Raise TypeError
  end.

(** A list comprehension with a condition that may raise. *)
Fixpoint filter_raise {A : Type} (cond : A -> Result bool) (l : list A)
    : Result (list A) :=
  match l with
  | [] => Ok []
  | x :: l' =>
      let* keep := cond x in
      let* rest := filter_raise cond l' in
      Ok (if keep then x :: rest else rest)
  end.

(** [first(s for s in variant_states if s.name == variant)]: the first
    variant state of that name, a variant state being truthy. *)
Definition first_named (variant : option string) (variant_states : list VariantState.t)
    : option VariantState.t :=
  List.find (fun s => bool_decide (Some (VariantState.name s) = variant)) variant_states.

(** The first hit of an answer, if any. *)
Definition first_hit (hits : list Event.t) : option Event.t :=
  match hits with
  | hit :: _ => Some hit
  | [] => None
  end.

(** ** Navigation *)

Import DebugSampleHistoryState.

Definition _fill_res_and_update_state (image : Event.t) (res : Res) (state : State)
    : Res * State :=
  let state := set_variant (Some (Event.variant image)) state in
  let state := set_iteration (Some (Event.iter image)) state in
  let res := DebugSampleHistoryResult.set_event (Some image) res in
  match first_named (variant state) (variant_states state) with
  | Some var_state =>
      let res := DebugSampleHistoryResult.set_min_iteration
                   (Some (VariantState.min_iteration var_state)) res in
      let res := DebugSampleHistoryResult.set_max_iteration
                   (Some (VariantState.max_iteration var_state)) res in
      (res, state)
  | None => (res, state)
  end.

(** The candidate variants of the search on the current iteration. *)
Definition current_iteration_variants (navigate_earlier : bool) (state : State)
    : Result (list VariantState.t) :=
  let cmp := if navigate_earlier then operator_lt else operator_gt in
  filter_raise
    (fun var_state =>
       let* other := cmp (VariantState.name var_state) (variant state) in
       if other
       then int_le (VariantState.min_iteration var_state) (iteration state)
       else Ok false)
    (variant_states state).

Definition current_iteration_request (navigate_earlier : bool) (state : State)
    (variants : list VariantState.t) : SearchRequest.t :=
  let must_conditions :=
    [QTerm FTask (VStr <$> task state);
     QTerm FMetric (VStr <$> metric state);
     QTerms FVariant ((fun v => VStr (VariantState.name v)) <$> variants);
     QTerm FIter (VInt <$> iteration state);
     QExists FUrl] in
  SearchRequest.mk 1 [(FVariant, if navigate_earlier then desc else asc)]
    (QBool must_conditions []).

(** The image of the next (or, when navigating earlier, the previous)
    variant by name on the same iteration, among the variants whose valid
    range holds the iteration. *)
Definition _get_next_for_current_iteration (es : Elasticsearch)
    (company_id : string) (navigate_earlier : bool) (state : State)
    : Result (option Event.t) :=
  let* variants := current_iteration_variants navigate_earlier state in
  match variants with
  | [] => Ok None
  | _ :: _ =>
      let es_req := current_iteration_request navigate_earlier state variants in
      let* hits := search_company_events es company_id es_req in
      Ok (first_hit hits)
  end.

(** The candidate variants of the search on another iteration. *)
Definition another_iteration_variants (navigate_earlier : bool) (state : State)
    : Result (list VariantState.t) :=
  if navigate_earlier then
    filter_raise
      (fun var_state =>
         int_lt (VariantState.min_iteration var_state) (iteration state))
      (variant_states state)
  else Ok (variant_states state).

Definition another_iteration_request (navigate_earlier : bool) (state : State)
    (variants : list VariantState.t) : SearchRequest.t :=
  let order := if navigate_earlier then desc else asc in
  let variants_conditions :=
    (fun v =>
       QBool
         [QTerm FVariant (Some (VStr (VariantState.name v)));
          QRange FIter
            (Bounds.mk None (Some (VariantState.min_iteration v)) None None)]
         [])
      <$> variants in
  let must_conditions :=
    [QTerm FTask (VStr <$> task state);
     QTerm FMetric (VStr <$> metric state);
     QExists FUrl;
     QBool [] variants_conditions;
     QRange FIter
       (if navigate_earlier
        then Bounds.mk None None (iteration state) None
        else Bounds.mk (iteration state) None None None)] in
  SearchRequest.mk 1 [(FIter, order); (FVariant, order)]
    (QBool must_conditions []).

(** The image of the first variant of the next iteration or, when
    navigating earlier, of the last variant of the previous iteration;
    images below the valid range of their variant are left out. *)
Definition _get_next_for_another_iteration (es : Elasticsearch)
    (company_id : string) (navigate_earlier : bool) (state : State)
    : Result (option Event.t) :=
  let* variants := another_iteration_variants navigate_earlier state in
  match variants with
  | [] => Ok None
  | _ :: _ =>
      let es_req := another_iteration_request navigate_earlier state variants in
      let* hits := search_company_events es company_id es_req in
      Ok (first_hit hits)
  end.

(** ** The state cache *)

(** Modelled from the spec: [RedisCacheManager] is not part of the sources
    at hand. [get_state] is a read by cursor id, which finds nothing for
    an id that the cache does not hold. Locking and expiry are left out:
    calls are taken one at a time. *)
Definition get_state (state_id : string) (store : Store) : option State :=
  store !! state_id.

(** Modelled from the spec: [set_state] of [RedisCacheManager] writes the
    state under its id, over what the cache held there. *)
Definition set_state (state : State) (store : Store) : Store :=
  <[id state := state]> store.

Section Service.

Variable max_variants_count : nat.

(** Modelled from the spec: the id given to a state that is constructed,
    from the id that the caller supplied (if any) and the states held. The
    specification has a fresh id minted when none is supplied and does not
    say which id the state gets for a supplied id that the cache does not
    hold. *)
Variable new_id : option string -> Store -> string.

(** Modelled from the spec: [get_or_create_state] of [RedisCacheManager]
    loads the state of the given id, or constructs a new one when there is
    none, runs [validate_state] on a loaded state and [init_state] on a new
    one, hands the state to the body of the [with] block, and saves what
    the body leaves unless something was raised. *)
Definition get_or_create_state {A : Type} (state_id : option string)
    (init_state validate_state : State -> Result State)
    (body : State -> Result (A * State)) (store : Store)
    : Result A * Store :=
  let prepared :=
    match state_id ≫= (fun i => get_state i store) with
    | Some state => validate_state state
    | None => init_state (DebugSampleHistoryState.new (new_id state_id store))
    end in
  match bind prepared body with
  | Ok (a, state) => (Ok a, set_state state store)
  | Raise e => (Raise e, store)
  end.

(** ** The operations *)

Definition _reset_variant_states (es : Elasticsearch) (company_id : string)
    (state : State) : Result State :=
  let* variant_iterations :=
    _get_variant_iterations max_variants_count es company_id
      (task state) (metric state) None in
  Ok (set_variant_states
        ((fun '(var_name, min_iter, max_iter) =>
            VariantState.mk var_name min_iter max_iter)
           <$> variant_iterations)
        state).

(** The debug image of the next or previous variant on the current
    iteration and, when there is none, of the first or last variant of
    the next or previous iteration. *)
Definition get_next_debug_image (es : Elasticsearch) (store : Store)
    (company_id task state_id : string) (navigate_earlier : bool)
    : Result Res * Store :=
  let res := DebugSampleHistoryResult.mk (Some state_id) None None None in
  match get_state state_id store with
  | None => (Raise InvalidScrollId, store)
  | Some state =>
      if bool_decide (DebugSampleHistoryState.task state <> Some task)
      then (Raise InvalidScrollId, store)
      else if check_empty_data es company_id then (Ok res, store)
      else
        let found :=
          let* image :=
            _get_next_for_current_iteration es company_id navigate_earlier state in
          match image with
          | Some _ => Ok image
          | None =>
              _get_next_for_another_iteration es company_id navigate_earlier state
          end in
        match found with
        | Raise e => (Raise e, store)
        | Ok None => (Ok res, store)
        | Ok (Some image) =>
            let '(res, state) := _fill_res_and_update_state image res state in
            (Ok res, set_state state store)
        end
  end.

Definition variant_request (task metric variant : string)
    (iteration : option Z) (var_state : VariantState.t) : SearchRequest.t :=
  let must_conditions :=
    [QTerm FTask (Some (VStr task));
     QTerm FMetric (Some (VStr metric));
     QTerm FVariant (Some (VStr variant));
     QExists FUrl]
    ++ [match iteration with
        | Some i =>
            QRange FIter
              (Bounds.mk None (Some (VariantState.min_iteration var_state))
                 None (Some i))
        | None =>
            QRange FIter
              (Bounds.mk None (Some (VariantState.min_iteration var_state))
                 None None)
        end] in
  SearchRequest.mk 1 [(FIter, desc)] (QBool must_conditions []).

(** [init_state] and [validate_state], the two callbacks that
    [get_debug_image_for_variant] hands to the cache. *)
Definition init_state (es : Elasticsearch) (company_id task metric : string)
    (state_ : State) : Result State :=
  let state_ := set_task (Some task) state_ in
  let state_ := set_metric (Some metric) state_ in
  _reset_variant_states es company_id state_.

Definition validate_state (es : Elasticsearch) (company_id task metric : string)
    (refresh : bool) (state_ : State) : Result State :=
  if bool_decide (DebugSampleHistoryState.task state_ <> Some task
                  \/ DebugSampleHistoryState.metric state_ <> Some metric)
  then Raise InvalidScrollId
  else if refresh then _reset_variant_states es company_id state_
  else Ok state_.

(** The body of the [with] block of [get_debug_image_for_variant]: the
    result that it returns and the state that it leaves. *)
Definition with_state (es : Elasticsearch) (company_id task metric variant : string)
    (iteration : option Z) (state : State) : Result (Res * State) :=
  let res := DebugSampleHistoryResult.mk None None None None in
  let res := DebugSampleHistoryResult.set_scroll_id (Some (id state)) res in
  match first_named (Some variant) (variant_states state) with
  | None => Ok (res, state)
  | Some var_state =>
      let res := DebugSampleHistoryResult.set_min_iteration
                   (Some (VariantState.min_iteration var_state)) res in
      let res := DebugSampleHistoryResult.set_max_iteration
                   (Some (VariantState.max_iteration var_state)) res in
      let es_req := variant_request task metric variant iteration var_state in
      let* hits := search_company_events es company_id es_req in
      match hits with
      | [] => Ok (res, state)
      | hit :: _ => Ok (_fill_res_and_update_state hit res state)
      end
  end.

(** The debug image of a variant at the requested iteration or the
    latest before it; the latest of all when no iteration is passed. *)
Definition get_debug_image_for_variant (es : Elasticsearch) (store : Store)
    (company_id task metric variant : string) (iteration : option Z)
    (refresh : bool) (state_id : option string) : Result Res * Store :=
  let res := DebugSampleHistoryResult.mk None None None None in
  if check_empty_data es company_id then (Ok res, store)
  else
    get_or_create_state state_id
      (init_state es company_id task metric)
      (validate_state es company_id task metric refresh)
      (with_state es company_id task metric variant iteration)
      store.

End Service.

(** * Settings

    A shallow embedding of the [Settings] model of
    [apiserver/database/model/settings.py]: a collection of documents with
    a primary key [key] and a [value], and the four class methods that
    read and write it. *)

(** ** Keys *)

(** [c in chars] for a character and a string of characters. *)
Fixpoint contains (chars : string) (c : Ascii.ascii) : bool :=
  match chars with
  | EmptyString => false
  | String x chars' => Ascii.eqb c x || contains chars' c
  end.

(** [str.strip(chars)]: the string without its leading and trailing
    characters that are among [chars]. Characters are bytes here, as in
    the keys that the server uses. *)
Fixpoint lstrip (chars s : string) : string :=
  match s with
  | EmptyString => EmptyString
  | String c s' => if contains chars c then lstrip chars s' else s
  end.

Fixpoint rstrip (chars s : string) : string :=
  match s with
  | EmptyString => EmptyString
  | String c s' =>
      match rstrip chars s' with
      | EmptyString => if contains chars c then EmptyString else String c EmptyString
      | r => String c r
      end
  end.

Definition strip (chars s : string) : string := rstrip chars (lstrip chars s).

(** [s.startswith(prefix)] *)
Fixpoint startswith (s prefix : string) : bool :=
  match prefix, s with
  | EmptyString, _ => true
  | String p prefix', String c s' =>
      if Ascii.eqb c p then startswith s' prefix' else false
  | String _ _, EmptyString => false
  end.

(** ** The collection *)

(** The [Settings] documents, by their primary key [key]; [V] is what a
    [DynamicField] holds. *)
Abbreviation SettingsDb V := (gmap string V).

(** [Settings.objects(key=key).first()] finds the document of the key or
    nothing; a document is truthy. *)
Definition get_by_key {V : Type} (db : SettingsDb V) (key : string) (default : V)
    (sep : string) : V :=
  let key := strip sep key in
  match db !! key with
  | Some value => value
  | None => default
  end.

(** The query [Q(key=key_prefix) | Q(key__startswith=key_prefix + sep)]. *)
Definition under_prefix (key_prefix sep key : string) : bool :=
  bool_decide (key = key_prefix) || startswith key (String.append key_prefix sep).

(** The answer is the list of the keys and values found or, when the
    query finds nothing, the default. The order of the list is that of
    the collection, here that of the map. *)
Definition get_by_prefix {V D : Type} (db : SettingsDb V) (key_prefix : string)
    (default : D) (sep : string) : list (string * V) + D :=
  let key_prefix := strip sep key_prefix in
  let res := filter (fun x => Is_true (under_prefix key_prefix sep x.1))
               (map_to_list db) in
  match res with
  | [] => inr default
  | _ :: _ => inl res
  end.

(** [update(..., upsert=True)] writes the value under the key, whether the
    key was there or not, and reports one document. *)
Definition set_or_add_value {V : Type} (db : SettingsDb V) (key : string)
    (value : V) (sep : string) : bool * SettingsDb V :=
  let key := strip sep key in
  (true, <[key := value]> db).

(** [save(force_insert=True)] inserts the document, or raises
    [NotUniqueError] when the key is there, which [add_value] turns into
    [False]. *)
Definition add_value {V : Type} (db : SettingsDb V) (key : string)
    (value : V) (sep : string) : bool * SettingsDb V :=
  let key := strip sep key in
  match db !! key with
  | Some _ => (false, db)
  | None => (true, <[key := value]> db)
  end.

(** * Notions of the specification *)

(** [m] is the largest iteration among [docs]. *)
Definition is_max_iter (docs : list Event.t) (m : Z) : Prop :=
  (exists d, d ∈ docs /\ Event.iter d = m)
  /\ forall d, d ∈ docs -> Event.iter d <= m.

(** The documents that carry the payload reference [u], and those of the
    variant [v]. *)
Definition with_url (u : string) (docs : list Event.t) : list Event.t :=
  filter (fun d => Event.url d = Some u) docs.

Definition of_variant (v : string) (docs : list Event.t) : list Event.t :=
  filter (fun d => Event.variant d = v) docs.

(** [mn] is the smallest of the per-payload largest iterations of [docs]. *)
Definition is_min_of_payload_maxima (docs : list Event.t) (mn : Z) : Prop :=
  (exists u, is_max_iter (with_url u docs) mn)
  /\ forall u m, is_max_iter (with_url u docs) m -> mn <= m.

(** The documents that the resolver looks at: those of the task and metric
    that carry a payload reference, restricted to [variants] when some are
    given. *)
Definition reported (task metric : string) (variants : option (list string))
    (d : Event.t) : Prop :=
  Event.task d = task /\ Event.metric d = metric /\ is_Some (Event.url d)
  /\ match variants with
     | Some ((_ :: _) as vs) => Event.variant d ∈ vs
     | _ => True
     end.

Global Instance reported_dec task metric variants d :
  Decision (reported task metric variants d).
Proof. unfold reported. destruct variants as [[|? ?]|]; apply _. Defined.
Global Typeclasses Opaque reported.

Definition samples (es : Elasticsearch) (company_id task metric : string)
    (variants : option (list string)) : list Event.t :=
  filter (reported task metric variants) (es company_id).

Definition sorted_by_name (variant_states : list VariantState.t) : Prop :=
  StronglySorted String.le (VariantState.name <$> variant_states).

Definition store_sorted (store : Store) : Prop :=
  forall i state, store !! i = Some state -> sorted_by_name (variant_states state).

(** Every state of the cache is held under its own id, which is where
    [set_state] writes it. *)
Definition store_keyed (store : Store) : Prop :=
  forall i state, store !! i = Some state -> id state = i.

(** A comparison that orders: swapping the arguments swaps the outcome,
    equal arguments compare alike with a third, and less stays less when
    followed by less or equal. *)
Definition orders {A : Type} (c : A -> A -> comparison) : Prop :=
  (forall a b, c b a = CompOpp (c a b))
  /\ (forall a b d, c a b = Eq -> c b d = c a d)
  /\ (forall a b d, c a b = Lt -> c b d <> Gt -> c a d = Lt).

(** [n] lies beyond [a] in the direction of the navigation. *)
Definition beyond (navigate_earlier : bool) (a n : string) : bool :=
  if navigate_earlier then String.ltb n a else String.ltb a n.

(** An image that the search on the current iteration may select, for a
    state at variant [a] and iteration [i]: an image of the task and
    metric on iteration [i], of a variant of the state whose name lies
    beyond [a] and whose valid range has begun at [i]. *)
Definition sibling_image (navigate_earlier : bool) (state : State)
    (a : string) (i : Z) (d : Event.t) : Prop :=
  Some (Event.task d) = task state
  /\ Some (Event.metric d) = metric state
  /\ Event.iter d = i
  /\ is_Some (Event.url d)
  /\ exists v, v ∈ variant_states state
               /\ VariantState.name v = Event.variant d
               /\ VariantState.min_iteration v <= i
               /\ beyond navigate_earlier a (Event.variant d) = true.

(** An image that the search on another iteration may select, for a state
    at iteration [i]: an image of the task and metric on an iteration
    after [i] (before, when navigating earlier), of a variant of the state
    and not below the valid range of the variant. *)
Definition another_image (navigate_earlier : bool) (state : State)
    (i : Z) (d : Event.t) : Prop :=
  Some (Event.task d) = task state
  /\ Some (Event.metric d) = metric state
  /\ is_Some (Event.url d)
  /\ (if navigate_earlier then Event.iter d < i else i < Event.iter d)
  /\ exists v, v ∈ variant_states state
               /\ VariantState.name v = Event.variant d
               /\ VariantState.min_iteration v <= Event.iter d.

(** [h] comes no later than [d] when walking the variants of one
    iteration, and when walking the iterations, in the direction of the
    navigation. *)
Definition name_before (navigate_earlier : bool) (h d : Event.t) : Prop :=
  if navigate_earlier
  then String.le (Event.variant d) (Event.variant h)
  else String.le (Event.variant h) (Event.variant d).

Definition step_before (navigate_earlier : bool) (h d : Event.t) : Prop :=
  if navigate_earlier
  then Event.iter d < Event.iter h
       \/ (Event.iter d = Event.iter h
           /\ String.le (Event.variant d) (Event.variant h))
  else Event.iter h < Event.iter d
       \/ (Event.iter h = Event.iter d
           /\ String.le (Event.variant h) (Event.variant d)).

(** The image that a step from [state] at variant [a] and iteration [i]
    selects: the nearest sibling on the iteration or, when the iteration
    holds no sibling, the nearest image of another iteration. *)
Definition next_image (es : Elasticsearch) (company_id : string)
    (navigate_earlier : bool) (state : State) (a : string) (i : Z)
    (h : Event.t) : Prop :=
  h ∈ es company_id
  /\ ((sibling_image navigate_earlier state a i h
       /\ forall d, d ∈ es company_id ->
            sibling_image navigate_earlier state a i d ->
            name_before navigate_earlier h d)
      \/ ((forall d, d ∈ es company_id ->
             ~ sibling_image navigate_earlier state a i d)
          /\ another_image navigate_earlier state i h
          /\ forall d, d ∈ es company_id ->
               another_image navigate_earlier state i d ->
               step_before navigate_earlier h d)).

(** An image that a jump to [variant_] may select: an image of the task,
    metric and variant, at or above [lo] and at most at the requested
    iteration when one is given. *)
Definition variant_image (task_ metric_ variant_ : string) (iteration_ : option Z)
    (lo : Z) (d : Event.t) : Prop :=
  Event.task d = task_
  /\ Event.metric d = metric_
  /\ Event.variant d = variant_
  /\ is_Some (Event.url d)
  /\ lo <= Event.iter d
  /\ match iteration_ with
     | Some i => Event.iter d <= i
     | None => True
     end.

(** The state that [get_debug_image_for_variant] hands to the body of its
    [with] block: the cached state of the cursor id when there is one, of
    the task and metric passed in, with its variant states rebuilt when
    [refresh] is set; otherwise a new state of the task and metric with
    variant states built by [_reset_variant_states]. *)
Definition prepares (max_variants_count : nat)
    (new_id : option string -> Store -> string)
    (es : Elasticsearch) (store : Store) (company_id task_ metric_ : string)
    (refresh : bool) (state_id : option string) (prepared : State) : Prop :=
  (exists i cached,
     state_id = Some i /\ get_state i store = Some cached
     /\ task cached = Some task_ /\ metric cached = Some metric_
     /\ if refresh
        then _reset_variant_states max_variants_count es company_id cached
             = Ok prepared
        else prepared = cached)
  \/ ((state_id ≫= (fun i => get_state i store)) = None
      /\ _reset_variant_states max_variants_count es company_id
           (set_metric (Some metric_)
              (set_task (Some task_)
                 (DebugSampleHistoryState.new (new_id state_id store))))
         = Ok prepared).

(** The variant states name each variant once and give it a range that
    is not empty. *)
Definition well_ranged (variant_states : list VariantState.t) : Prop :=
  NoDup (VariantState.name <$> variant_states)
  /\ forall v, v ∈ variant_states ->
       VariantState.min_iteration v <= VariantState.max_iteration v.

Definition store_well_ranged (store : Store) : Prop :=
  forall i state, store !! i = Some state -> well_ranged (variant_states state).

(** Every character of [s] is among [chars]. *)
Fixpoint all_in (chars s : string) : bool :=
  match s with
  | EmptyString => true
  | String c s' => contains chars c && all_in chars s'
  end.

(** [s] begins, or ends, with a character among [chars]. *)
Definition starts_in (chars s : string) : bool :=
  match s with
  | EmptyString => false
  | String c _ => contains chars c
  end.

Fixpoint ends_in (chars s : string) : bool :=
  match s with
  | EmptyString => false
  | String c EmptyString => contains chars c
  | String _ s' => ends_in chars s'
  end.

(** * Examples *)

(** Variant "x" reported iterations 1 and 2 under one payload reference
    and iteration 3 under another. *)
Definition recycling_es : Elasticsearch :=
  fun _ =>
    [Event.mk "T" "M" "x" 1 (Some "u1");
     Event.mk "T" "M" "x" 2 (Some "u1");
     Event.mk "T" "M" "x" 3 (Some "u2")].

(** Ids for new cursors in the examples: a name that the store does not
    hold. *)
Definition mint_cursor (_ : option string) (store : Store) : string :=
  fresh_string "cursor" store.

(** Task "T", metric "M", variants "a" and "b": images of both at iteration
    0 and of "a" at iteration 1. *)
Definition demo_es : Elasticsearch :=
  fun _ =>
    [Event.mk "T" "M" "a" 0 (Some "a0");
     Event.mk "T" "M" "b" 0 (Some "b0");
     Event.mk "T" "M" "a" 1 (Some "a1")].

(** The state that a jump to variant "a" leaves in an empty cache. *)
Definition demo_state : State :=
  DebugSampleHistoryState.mk "cursor" (Some 1) (Some "a") (Some "T") (Some "M")
    None None [VariantState.mk "a" 0 1; VariantState.mk "b" 0 0] None.

(** Two variants standing for "a" and "b" of the tie-break: images of both
    at iterations 5 and 6. *)
Definition tie_es : Elasticsearch :=
  fun _ =>
    [Event.mk "T" "M" "a" 5 (Some "a5");
     Event.mk "T" "M" "b" 5 (Some "b5");
     Event.mk "T" "M" "a" 6 (Some "a6");
     Event.mk "T" "M" "b" 6 (Some "b6")].

Definition tie_state : State :=
  DebugSampleHistoryState.mk "cursor" (Some 5) (Some "a") (Some "T") (Some "M")
    None None [VariantState.mk "a" 5 6; VariantState.mk "b" 5 6] None.

(** Variant "b" is valid at iteration 5 but has no image there: its images
    are at iterations 0 and 9. *)
Definition gap_es : Elasticsearch :=
  fun _ =>
    [Event.mk "T" "M" "a" 5 (Some "a5");
     Event.mk "T" "M" "b" 0 (Some "b0");
     Event.mk "T" "M" "b" 9 (Some "b9")].

(** The cache after a jump to variant "a" at iteration 5 over [gap_es]. *)
Definition gap_store : Store :=
  (get_debug_image_for_variant 100 mint_cursor gap_es ∅
     "c" "T" "M" "a" (Some 5) false None).2.

(** The state after a jump to variant "a" over [demo_es] followed by two
    steps backward: the cursor is at "a" on iteration 0. *)
Definition first_state : State :=
  DebugSampleHistoryState.mk "cursor" (Some 0) (Some "a") (Some "T") (Some "M")
    None None [VariantState.mk "a" 0 1; VariantState.mk "b" 0 0] None.

(** An index without documents. *)
Definition empty_es : Elasticsearch := fun _ => [].

(** Three variants with an image each on iteration 0, and a state at the
    first of them. *)
Definition abc_es : Elasticsearch :=
  fun _ =>
    [Event.mk "T" "M" "c" 0 (Some "c0");
     Event.mk "T" "M" "a" 0 (Some "a0");
     Event.mk "T" "M" "b" 0 (Some "b0")].

Definition abc_state : State :=
  DebugSampleHistoryState.mk "cursor" (Some 0) (Some "a") (Some "T") (Some "M")
    None None
    [VariantState.mk "a" 0 0; VariantState.mk "b" 0 0; VariantState.mk "c" 0 0]
    None.

(** The state that a jump to a variant without images leaves in an empty
    cache over [demo_es]: no variant and no iteration are selected. *)
Definition unselected_state : State :=
  DebugSampleHistoryState.mk "cursor" None None (Some "T") (Some "M")
    None None [VariantState.mk "a" 0 1; VariantState.mk "b" 0 0] None.

(** Settings under the keys "a", "a.b" and "ab". *)
Definition demo_settings : SettingsDb string :=
  <["a" := "1"]> (<["a.b" := "2"]> (<["ab" := "3"]> ∅)).

(** * Properties *)

(** ** The error monad and the comprehensions *)

Lemma bind_Ok {A B : Type} (m : Result A) (k : A -> Result B) (b : B) :
  bind m k = Ok b <-> exists a, m = Ok a /\ k a = Ok b.
Proof.
  destruct m as [a|e]; simpl; split.
  - intros H. exists a. split; [reflexivity | exact H].
  - intros (a' & Ha & Hk). congruence.
  - discriminate.
  - intros (a' & Ha & _). discriminate.
Qed.

(** ** The largest iteration of a list of documents *)

Lemma foldr_max_spec (z : Z) (zs : list Z) :
  let m := foldr Z.max z zs in
  (m = z \/ m ∈ zs) /\ z <= m /\ forall y, y ∈ zs -> y <= m.
Proof.
  induction zs as [|y zs (Hin & Hz & Hall)]; simpl.
  - split; [left; reflexivity|]. split; [lia|].
    intros y Hy. apply elem_of_nil in Hy. contradiction.
  - split; [|split].
    + destruct (Z.max_spec y (foldr Z.max z zs)) as [[_ ->]|[_ ->]].
      * destruct Hin as [->|Hin]; [left; reflexivity|].
        right. apply elem_of_cons. right. exact Hin.
      * right. apply elem_of_cons. left. reflexivity.
    + lia.
    + intros y' Hy'. apply elem_of_cons in Hy' as [->|Hy']; [lia|].
      specialize (Hall y' Hy'). lia.
Qed.

Lemma max_agg_spec (docs : list Event.t) (m : Z) :
  max_agg docs = Some m -> is_max_iter docs m.
Proof.
  destruct docs as [|d docs]; simpl; [discriminate|].
  intros [= <-].
  destruct (foldr_max_spec (Event.iter d) (Event.iter <$> docs)) as (Hin & Hd & Hall).
  split.
  - destruct Hin as [Heq|Hin].
    + exists d. split; [apply elem_of_cons; left; reflexivity | symmetry; exact Heq].
    + apply list_elem_of_fmap in Hin as (d' & Heq & Hd').
      exists d'. split; [apply elem_of_cons; right; exact Hd' | symmetry; exact Heq].
  - intros d' Hd'. apply elem_of_cons in Hd' as [->|Hd']; [exact Hd|].
    apply Hall, list_elem_of_fmap. exists d'. split; [reflexivity | exact Hd'].
Qed.

Lemma max_agg_is_Some (docs : list Event.t) (d : Event.t) :
  d ∈ docs -> is_Some (max_agg docs).
Proof.
  destruct docs; simpl.
  - intros H. apply elem_of_nil in H. contradiction.
  - intros _. eexists. reflexivity.
Qed.

Lemma is_max_iter_unique (docs : list Event.t) (m1 m2 : Z) :
  is_max_iter docs m1 -> is_max_iter docs m2 -> m1 = m2.
Proof.
  intros [(d1 & Hd1 & <-) Hle1] [(d2 & Hd2 & <-) Hle2].
  specialize (Hle1 d2 Hd2). specialize (Hle2 d1 Hd1). lia.
Qed.

(** ** Ordering and cutting *)

Global Instance max_iter_le_trans : Transitive max_iter_le.
Proof.
  intros b1 b2 b3. unfold max_iter_le.
  destruct (UrlBucket.max_iter b1), (UrlBucket.max_iter b2),
    (UrlBucket.max_iter b3); try tauto; lia.
Qed.

Global Instance max_iter_le_total : Total max_iter_le.
Proof.
  intros b1 b2. unfold max_iter_le.
  destruct (UrlBucket.max_iter b1), (UrlBucket.max_iter b2); try tauto; lia.
Qed.

Global Instance key_le_trans : Transitive key_le.
Proof. intros b1 b2 b3. unfold key_le. apply transitivity. Qed.

Global Instance key_le_total : Total key_le.
Proof. intros b1 b2. unfold key_le. apply total, _. Qed.

Section Sorting.
Context {A : Type} (R : relation A) `{!RelDecision R}.
Context `{!Transitive R, !Total R}.

Lemma elem_of_merge_sort (l : list A) (x : A) : x ∈ merge_sort R l <-> x ∈ l.
Proof. rewrite (merge_sort_Permutation R l). reflexivity. Qed.

(** The first element of a sorted list is one of the list and comes
    before every other. *)
Lemma merge_sort_first (l : list A) (x : A) (rest : list A) :
  merge_sort R l = x :: rest -> x ∈ l /\ forall y, y ∈ l -> R x y.
Proof.
  intros Heq. split.
  - apply elem_of_merge_sort. rewrite Heq. apply elem_of_cons. left. reflexivity.
  - intros y Hy. apply elem_of_merge_sort in Hy.
    pose proof (StronglySorted_merge_sort R l) as Hs.
    rewrite Heq in Hs, Hy. inversion Hs as [|? ? _ Hall]; subst.
    apply elem_of_cons in Hy as [->|Hy].
    + destruct (total R x x); assumption.
    + rewrite Forall_forall in Hall. apply Hall, Hy.
Qed.

Lemma merge_sort_nil (l : list A) : merge_sort R l = [] -> l = [].
Proof.
  intros Heq. apply Permutation_nil_r.
  rewrite <- Heq. symmetry. apply merge_sort_Permutation.
Qed.

Lemma StronglySorted_take (n : nat) (l : list A) :
  StronglySorted R l -> StronglySorted R (take n l).
Proof.
  intros Hs. rewrite <- (take_drop n l) in Hs.
  apply StronglySorted_app in Hs. tauto.
Qed.
End Sorting.

Lemma elem_of_take_1 {A : Type} (n : nat) (l : list A) (x : A) :
  x ∈ take n l -> x ∈ l.
Proof.
  rewrite elem_of_take. intros (i & Hi & _).
  apply list_elem_of_lookup. exists i. exact Hi.
Qed.

(** ** Buckets *)

Lemma elem_of_terms_buckets (field : Event.t -> option string)
    (docs : list Event.t) (b : string * list Event.t) :
  b ∈ terms_buckets field docs <->
  b.2 = filter (fun d => field d = Some b.1) docs
  /\ exists d, d ∈ docs /\ field d = Some b.1.
Proof.
  unfold terms_buckets. rewrite list_elem_of_fmap. split.
  - intros (k & -> & Hk). simpl. split; [reflexivity|].
    apply elem_of_remove_dups, list_elem_of_omap in Hk. exact Hk.
  - intros (Hds & Hd). exists b.1. split.
    + destruct b as [k ds]. simpl in *. subst ds. reflexivity.
    + apply elem_of_remove_dups, list_elem_of_omap. exact Hd.
Qed.

Lemma terms_buckets_keys (field : Event.t -> option string) (docs : list Event.t) :
  (terms_buckets field docs).*1 = remove_dups (omap field docs).
Proof.
  unfold terms_buckets. rewrite <- list_fmap_compose.
  apply list_fmap_id.
Qed.

Lemma is_max_iter_max_agg (docs : list Event.t) (m : Z) :
  is_max_iter docs m -> max_agg docs = Some m.
Proof.
  intros Hm. pose proof Hm as [(d & Hd & _) _].
  destruct (max_agg_is_Some docs d Hd) as [m' Hm'].
  rewrite Hm'. f_equal.
  eapply is_max_iter_unique; [apply max_agg_spec, Hm' | exact Hm].
Qed.

Lemma urls_agg_first (docs : list Event.t) (u : UrlBucket.t) (rest : list UrlBucket.t) :
  urls_agg docs = u :: rest ->
  exists mn, UrlBucket.max_iter u = Some mn /\ is_min_of_payload_maxima docs mn.
Proof.
  unfold urls_agg. intros Hu.
  destruct (merge_sort _ _) as [|u' sorted] eqn:Hsort; [discriminate|].
  simpl in Hu. rewrite take_0 in Hu. injection Hu as -> <-.
  apply merge_sort_first in Hsort as [Hin Hfirst]; [|apply _..].
  apply list_elem_of_fmap in Hin as ([k ds] & -> & Hb).
  apply elem_of_terms_buckets in Hb as [Hds (d & Hd & Hk)]. simpl in *.
  assert (d ∈ ds) as Hdds.
  { rewrite Hds. apply list_elem_of_filter. split; assumption. }
  destruct (max_agg_is_Some ds d Hdds) as [mn Hmn].
  exists mn. split; [exact Hmn|]. split.
  - exists k. unfold with_url. rewrite <- Hds. apply max_agg_spec, Hmn.
  - intros k' m' Hm'. pose proof Hm' as [(d' & Hd' & _) _].
    unfold with_url in Hd'. apply list_elem_of_filter in Hd' as [Hk' Hd'].
    specialize (Hfirst (UrlBucket.mk k' (max_agg (with_url k' docs)))).
    unfold max_iter_le in Hfirst. simpl in Hfirst.
    rewrite Hmn, (is_max_iter_max_agg _ _ Hm') in Hfirst.
    apply Hfirst. apply list_elem_of_fmap.
    exists (k', with_url k' docs). split.
    + simpl. rewrite (is_max_iter_max_agg _ _ Hm'). reflexivity.
    + apply elem_of_terms_buckets. simpl. split; [reflexivity|].
      exists d'. split; assumption.
Qed.

Lemma urls_agg_nil (docs : list Event.t) (d : Event.t) :
  urls_agg docs = [] -> d ∈ docs -> Event.url d = None.
Proof.
  unfold urls_agg. intros Hnil Hd.
  destruct (merge_sort _ _) as [|u' sorted] eqn:Hsort; [|discriminate].
  apply merge_sort_nil in Hsort. apply fmap_nil_inv in Hsort.
  destruct (Event.url d) as [u|] eqn:Hu; [|reflexivity].
  assert ((u, with_url u docs) ∈ terms_buckets Event.url docs) as Hin.
  { apply elem_of_terms_buckets. simpl. split; [reflexivity|].
    exists d. split; assumption. }
  rewrite Hsort in Hin. apply elem_of_nil in Hin. contradiction.
Qed.

(** ** The resolver *)

Global Instance VStr_inj : Inj (=) (=) VStr.
Proof. intros s1 s2 [= ->]. reflexivity. Qed.

Lemma matches_variant_iterations_query (task metric : string)
    (variants : option (list string)) (d : Event.t) :
  matches (variant_iterations_query (Some task) (Some metric) variants) d
  <-> reported task metric variants d.
Proof.
  unfold variant_iterations_query, reported.
  destruct variants as [[|v vs]|]; simpl;
    rewrite ?andb_True, ?bool_decide_spec; simpl;
    rewrite fmap_is_Some;
    try change (VStr v :: list_fmap string Value VStr vs) with (VStr <$> v :: vs);
    rewrite ?(list_elem_of_fmap_inj VStr);
    intuition congruence.
Qed.

Lemma filter_matches_variant_iterations_query (task metric : string)
    (variants : option (list string)) (es : Elasticsearch) (company_id : string) :
  filter (fun d => Is_true (matches
            (variant_iterations_query (Some task) (Some metric) variants) d))
    (es company_id)
  = samples es company_id task metric variants.
Proof. apply list_filter_iff, matches_variant_iterations_query. Qed.

Lemma well_formed_variant_iterations_query (task metric : string)
    (variants : option (list string)) :
  well_formed (variant_iterations_query (Some task) (Some metric) variants) = true.
Proof. destruct variants as [[|? ?]|]; reflexivity. Qed.

Section ResolverFacts.
Variable max_variants_count : nat.

Lemma elem_of_variants_agg (docs : list Event.t) (vb : VariantBucket.t) :
  vb ∈ variants_agg max_variants_count docs ->
  (exists d, d ∈ of_variant (VariantBucket.key vb) docs)
  /\ VariantBucket.last_iter vb = max_agg (of_variant (VariantBucket.key vb) docs)
  /\ VariantBucket.urls vb = urls_agg (of_variant (VariantBucket.key vb) docs).
Proof.
  unfold variants_agg. intros Hvb.
  apply elem_of_take_1, elem_of_merge_sort, list_elem_of_fmap in Hvb
    as ([k ds] & -> & Hb).
  apply elem_of_terms_buckets in Hb as [Hds (d & Hd & [= Hk])]. simpl in *.
  assert (ds = of_variant k docs) as ->.
  { rewrite Hds. apply list_filter_iff. intros x. split; congruence. }
  split; [|split; reflexivity].
  exists d. apply list_elem_of_filter. split; assumption.
Qed.

Lemma variants_agg_sorted (docs : list Event.t) :
  StronglySorted String.le
    (VariantBucket.key <$> variants_agg max_variants_count docs).
Proof.
  apply (StronglySorted_fmap _ key_le String.le).
  - intros b1 b2 H. exact H.
  - apply StronglySorted_take, StronglySorted_merge_sort; apply _.
Qed.

(** On documents that all carry a payload reference, [get_variant_data]
    does not raise, and it returns the smallest of the per-payload
    largest iterations and the largest iteration of the variant. *)
Lemma get_variant_data_spec (docs : list Event.t) (vb : VariantBucket.t) :
  Forall (fun d => is_Some (Event.url d)) docs ->
  vb ∈ variants_agg max_variants_count docs ->
  exists mn mx,
    get_variant_data vb = Ok (VariantBucket.key vb, mn, mx)
    /\ is_min_of_payload_maxima (of_variant (VariantBucket.key vb) docs) mn
    /\ is_max_iter (of_variant (VariantBucket.key vb) docs) mx.
Proof.
  intros Hurl Hvb.
  apply elem_of_variants_agg in Hvb as ((d & Hd) & Hlast & Hurls).
  unfold get_variant_data. rewrite Hurls, Hlast.
  destruct (urls_agg _) as [|u rest] eqn:Hagg.
  - pose proof (urls_agg_nil _ d Hagg Hd) as Hnone.
    apply list_elem_of_filter in Hd as [_ Hd].
    rewrite Forall_forall in Hurl. destruct (Hurl d Hd) as [? ?]. congruence.
  - apply urls_agg_first in Hagg as (mn & Hmn & Hmin).
    destruct (max_agg_is_Some _ d Hd) as [mx Hmx].
    exists mn, mx. rewrite Hmn, Hmx. simpl.
    split; [reflexivity|]. split; [exact Hmin | apply max_agg_spec, Hmx].
Qed.

Lemma samples_have_url es company_id task metric variants :
  Forall (fun d => is_Some (Event.url d))
    (samples es company_id task metric variants).
Proof.
  apply Forall_forall. intros d Hd.
  apply list_elem_of_filter in Hd as [(_ & _ & Hu & _) _]. exact Hu.
Qed.

(** Over the search backend of the model the resolver returns a list,
    which holds, for every variant bucket of the aggregation and in the
    same order, the name, the smallest per-payload largest iteration and
    the largest iteration. *)
Lemma _get_variant_iterations_spec (es : Elasticsearch)
    (company_id task metric : string) (variants : option (list string)) :
  exists l,
    _get_variant_iterations max_variants_count es company_id
      (Some task) (Some metric) variants = Ok l
    /\ l.*1.*1 = VariantBucket.key <$> variants_agg max_variants_count
                   (samples es company_id task metric variants)
    /\ forall v mn mx, (v, mn, mx) ∈ l ->
         is_min_of_payload_maxima
           (of_variant v (samples es company_id task metric variants)) mn
         /\ is_max_iter
              (of_variant v (samples es company_id task metric variants)) mx.
Proof.
  unfold _get_variant_iterations, search_company_events_aggs.
  rewrite well_formed_variant_iterations_query,
    filter_matches_variant_iterations_query. simpl.
  set (docs := samples es company_id task metric variants).
  pose proof (samples_have_url es company_id task metric variants) as Hurl.
  fold docs in Hurl.
  assert (forall vb, vb ∈ variants_agg max_variants_count docs ->
            exists mn mx,
              get_variant_data vb = Ok (VariantBucket.key vb, mn, mx)
              /\ is_min_of_payload_maxima (of_variant (VariantBucket.key vb) docs) mn
              /\ is_max_iter (of_variant (VariantBucket.key vb) docs) mx) as Hspec.
  { intros vb. apply get_variant_data_spec, Hurl. }
  revert Hspec. generalize (variants_agg max_variants_count docs) as buckets.
  induction buckets as [|vb buckets IH]; intros Hspec; simpl.
  - exists []. split; [reflexivity|]. split; [reflexivity|].
    intros v mn mx H. apply elem_of_nil in H. contradiction.
  - destruct (Hspec vb) as (mn & mx & -> & Hmn & Hmx).
    { apply elem_of_cons. left. reflexivity. }
    destruct IH as (l & -> & Hkeys & Hl).
    { intros vb' Hvb'. apply Hspec, elem_of_cons. right. exact Hvb'. }
    simpl. eexists. split; [reflexivity|]. split.
    + simpl. f_equal. exact Hkeys.
    + intros v mn' mx' H. apply elem_of_cons in H as [[= -> -> ->]|H].
      * split; assumption.
      * apply Hl, H.
Qed.
End ResolverFacts.

(** ** Claims on the resolver *)

(** C1, as amended. Over the search backend of the model, which answers
    every well formed request, the resolver returns a list:
    [get_variant_data] finds a payload bucket in every variant bucket.
    In every triple [(v, mn, mx)] of the list [mn] is the smallest of the
    per-payload largest iterations of the variant: some payload reference
    of [v] has [mn] as its largest iteration, and the largest iteration of
    every payload reference of [v] is at least [mn]. *)
Theorem min_iteration_is_least_payload_maximum (max_variants_count : nat)
    (es : Elasticsearch) (company_id task metric : string)
    (variants : option (list string)) :
  exists l,
    _get_variant_iterations max_variants_count es company_id
      (Some task) (Some metric) variants = Ok l
    /\ forall v mn mx, (v, mn, mx) ∈ l ->
         is_min_of_payload_maxima
           (of_variant v (samples es company_id task metric variants)) mn.
Proof.
  destruct (_get_variant_iterations_spec max_variants_count es company_id
              task metric variants) as (l & Hl & _ & Hspec).
  exists l. split; [exact Hl|].
  intros v mn mx H. apply (Hspec v mn mx H).
Qed.

(** On the recycling example the least payload maximum is 2: the shared
    payload reference was last written at iteration 2. *)
Lemma min_iteration_is_least_payload_maximum_witness :
  exists l,
    _get_variant_iterations 100 recycling_es "c" (Some "T") (Some "M") None = Ok l
    /\ ("x", 2, 3) ∈ l
    /\ is_min_of_payload_maxima
         (of_variant "x" (samples recycling_es "c" "T" "M" None)) 2.
Proof.
  destruct (min_iteration_is_least_payload_maximum 100 recycling_es
              "c" "T" "M" None) as (l & Hl & Hmin).
  exists l. split; [exact Hl|].
  assert (("x", 2, 3) ∈ l) as Hin.
  { vm_compute in Hl. injection Hl as <-. apply elem_of_cons. left. reflexivity. }
  split; [exact Hin | exact (Hmin "x" 2 3 Hin)].
Defined.

(** C1, the example as the claim states it, fails: with iterations 1 and 2
    under one payload reference and iteration 3 under another, the
    resolved [min_iteration] of "x" is 2 and not 3. *)
Lemma recycling_min_iteration_is_2 :
  exists l,
    _get_variant_iterations 100 recycling_es "c" (Some "T") (Some "M") None = Ok l
    /\ ("x", 2, 3) ∈ l
    /\ forall mx, ("x", 3, mx) ∉ l.
Proof.
  exists [("x", 2, 3)]. split; [vm_compute; reflexivity|]. split.
  - apply elem_of_cons. left. reflexivity.
  - intros mx H. apply elem_of_cons in H as [H|H]; [discriminate|].
    apply elem_of_nil in H. exact H.
Qed.

(** C4. Over the search backend of the model, which answers every well
    formed request, the resolver returns a list, and in every triple
    [(v, mn, mx)] of the list [mn <= mx]. *)
Theorem min_iteration_le_max_iteration (max_variants_count : nat)
    (es : Elasticsearch) (company_id task metric : string)
    (variants : option (list string)) :
  exists l,
    _get_variant_iterations max_variants_count es company_id
      (Some task) (Some metric) variants = Ok l
    /\ forall v mn mx, (v, mn, mx) ∈ l -> mn <= mx.
Proof.
  destruct (_get_variant_iterations_spec max_variants_count es company_id
              task metric variants) as (l & Hl & _ & Hspec).
  exists l. split; [exact Hl|].
  intros v mn mx H.
  destruct (Hspec v mn mx H) as [[(u & (d & Hd & <-) & _) _] [_ Hmax]].
  apply Hmax. unfold with_url in Hd.
  apply list_elem_of_filter in Hd as [_ Hd]. exact Hd.
Qed.

Lemma min_iteration_le_max_iteration_witness :
  exists l,
    _get_variant_iterations 100 recycling_es "c" (Some "T") (Some "M") None = Ok l
    /\ ("x", 2, 3) ∈ l /\ 2 <= 3.
Proof.
  destruct (min_iteration_le_max_iteration 100 recycling_es
              "c" "T" "M" None) as (l & Hl & Hle).
  exists l. split; [exact Hl|].
  assert (("x", 2, 3) ∈ l) as Hin.
  { vm_compute in Hl. injection Hl as <-. apply elem_of_cons. left. reflexivity. }
  split; [exact Hin | exact (Hle "x" 2 3 Hin)].
Defined.

(** ** Queries and hits *)

Lemma matches_term_task (o : option string) (d : Event.t) :
  matches (QTerm FTask (VStr <$> o)) d <-> Some (Event.task d) = o.
Proof.
  destruct o as [s|]; simpl; [rewrite bool_decide_spec|];
    split; intros H; try congruence; contradiction.
Qed.

Lemma matches_term_metric (o : option string) (d : Event.t) :
  matches (QTerm FMetric (VStr <$> o)) d <-> Some (Event.metric d) = o.
Proof.
  destruct o as [s|]; simpl; [rewrite bool_decide_spec|];
    split; intros H; try congruence; contradiction.
Qed.

Lemma matches_term_variant (s : string) (d : Event.t) :
  matches (QTerm FVariant (Some (VStr s))) d <-> Event.variant d = s.
Proof. simpl. rewrite bool_decide_spec. split; congruence. Qed.

Lemma matches_term_iter (o : option Z) (d : Event.t) :
  matches (QTerm FIter (VInt <$> o)) d <-> Some (Event.iter d) = o.
Proof.
  destruct o as [s|]; simpl; [rewrite bool_decide_spec|];
    split; intros H; try congruence; contradiction.
Qed.

Lemma matches_exists_url (d : Event.t) :
  matches (QExists FUrl) d <-> is_Some (Event.url d).
Proof. simpl. rewrite bool_decide_spec. apply fmap_is_Some. Qed.

Lemma matches_terms_variant (variants : list VariantState.t) (d : Event.t) :
  matches (QTerms FVariant ((fun v => VStr (VariantState.name v)) <$> variants)) d
  <-> exists v, v ∈ variants /\ VariantState.name v = Event.variant d.
Proof.
  simpl. rewrite bool_decide_spec, list_elem_of_fmap. split.
  - intros (v & [= Hv] & Hin). exists v. split; [exact Hin | congruence].
  - intros (v & Hin & Hv). exists v. split; [congruence | exact Hin].
Qed.

Lemma matches_range_iter (b : Bounds.t) (d : Event.t) :
  matches (QRange FIter b) d <-> in_bounds b (Event.iter d).
Proof. reflexivity. Qed.

(** A [bool] query made of [must] clauses matches when each of them does. *)
Lemma matches_must (must : list Query) (d : Event.t) :
  matches (QBool must []) d <-> Forall (fun q => matches q d) must.
Proof.
  simpl. assert (match must with [] | _ => true end = true) as ->.
  { destruct must; reflexivity. }
  rewrite andb_true_r. rewrite forallb_True. reflexivity.
Qed.

(** A [bool] query made of [should] clauses, at least one, matches when
    one of them does. *)
Lemma matches_should (q : Query) (should : list Query) (d : Event.t) :
  matches (QBool [] (q :: should)) d
  <-> Exists (fun q' => matches q' d) (q :: should).
Proof.
  simpl. rewrite Exists_cons, orb_True, existb_True. reflexivity.
Qed.

Lemma in_bounds_gte (lo z : Z) :
  in_bounds (Bounds.mk None (Some lo) None None) z <-> lo <= z.
Proof.
  unfold in_bounds. simpl. rewrite !andb_true_r.
  rewrite Is_true_true. apply Z.leb_le.
Qed.

Lemma in_bounds_gt (lo : option Z) (z : Z) :
  in_bounds (Bounds.mk lo None None None) z
  <-> match lo with Some lo' => lo' < z | None => True end.
Proof.
  unfold in_bounds. simpl. rewrite !andb_true_r.
  destruct lo as [lo'|]; simpl; [|tauto].
  rewrite Is_true_true. apply Z.ltb_lt.
Qed.

Lemma in_bounds_lt (hi : option Z) (z : Z) :
  in_bounds (Bounds.mk None None hi None) z
  <-> match hi with Some hi' => z < hi' | None => True end.
Proof.
  unfold in_bounds. simpl. rewrite !andb_true_r.
  destruct hi as [hi'|]; simpl; [|tauto].
  rewrite Is_true_true. apply Z.ltb_lt.
Qed.

(** Every hit is a document of the company's index that matches. *)
Lemma search_company_events_hits (es : Elasticsearch) (company_id : string)
    (body : SearchRequest.t) (hits : list Event.t) (d : Event.t) :
  search_company_events es company_id body = Ok hits ->
  d ∈ hits ->
  d ∈ es company_id /\ matches (SearchRequest.query body) d.
Proof.
  unfold search_company_events.
  destruct (well_formed _); [|discriminate].
  intros [= <-] Hd.
  apply elem_of_take_1 in Hd.
  rewrite merge_sort_Permutation in Hd.
  apply list_elem_of_filter in Hd. tauto.
Qed.

Lemma first_hit_elem_of (hits : list Event.t) (d : Event.t) :
  first_hit hits = Some d -> d ∈ hits.
Proof.
  destruct hits; simpl; [discriminate|].
  intros [= ->]. apply elem_of_cons. left. reflexivity.
Qed.

(** A well formed request for one hit is answered with a hit as soon as
    one document matches. *)
Lemma search_company_events_finds (es : Elasticsearch) (company_id : string)
    (sort : list (Field * Order)) (query : Query) (d : Event.t) :
  well_formed query = true ->
  d ∈ es company_id ->
  matches query d ->
  exists hit hits,
    search_company_events es company_id (SearchRequest.mk 1 sort query)
    = Ok (hit :: hits).
Proof.
  intros Hwf Hd Hm. unfold search_company_events. simpl. rewrite Hwf.
  destruct (merge_sort _ _) as [|hit sorted] eqn:Hsort.
  - assert (d ∈ merge_sort (fun d1 d2 => Is_true (docs_leb sort d1 d2))
                  (filter (fun d => Is_true (matches query d)) (es company_id)))
      as Hin.
    { rewrite merge_sort_Permutation. apply list_elem_of_filter. tauto. }
    rewrite Hsort in Hin. apply elem_of_nil in Hin. contradiction.
  - exists hit, []. simpl. rewrite take_0. reflexivity.
Qed.

(** ** The candidate variants and the requests of the navigation *)

Lemma filter_raise_pure {A : Type} (p : A -> bool) (l : list A) :
  filter_raise (fun x => Ok (p x)) l = Ok (filter (fun x => Is_true (p x)) l).
Proof.
  induction l as [|x l IH]; simpl; [reflexivity|].
  rewrite IH. simpl. rewrite filter_cons.
  destruct (p x); simpl; reflexivity.
Qed.

Lemma another_iteration_variants_backward (state : State) (i : Z) :
  iteration state = Some i ->
  another_iteration_variants true state
  = Ok (filter (fun v => VariantState.min_iteration v < i) (variant_states state)).
Proof.
  intros Hi. unfold another_iteration_variants. rewrite Hi. simpl.
  rewrite filter_raise_pure. f_equal.
  apply list_filter_iff. intros v. rewrite Is_true_true. apply Z.ltb_lt.
Qed.

Lemma current_iteration_variants_forward (state : State) (a : string) (i : Z) :
  variant state = Some a ->
  iteration state = Some i ->
  current_iteration_variants false state
  = Ok (filter (fun v => String.ltb a (VariantState.name v)
                         /\ VariantState.min_iteration v <= i)
          (variant_states state)).
Proof.
  intros Ha Hi. unfold current_iteration_variants. rewrite Ha, Hi. simpl.
  induction (variant_states state) as [|v vs IH]; simpl; [reflexivity|].
  rewrite IH, filter_cons.
  case_decide as Hd;
    destruct (String.ltb a (VariantState.name v));
    destruct (Z.leb_spec (VariantState.min_iteration v) i);
    simpl in *; solve [reflexivity | tauto | lia].
Qed.

(** What the request of the search on another iteration asks of a
    document, for a non-empty list of candidate variants. *)
Lemma matches_another_iteration_request (navigate_earlier : bool) (state : State)
    (variants : list VariantState.t) (d : Event.t) :
  variants <> [] ->
  matches (SearchRequest.query
             (another_iteration_request navigate_earlier state variants)) d
  <-> Some (Event.task d) = task state
      /\ Some (Event.metric d) = metric state
      /\ is_Some (Event.url d)
      /\ (exists v, v ∈ variants
                    /\ VariantState.name v = Event.variant d
                    /\ VariantState.min_iteration v <= Event.iter d)
      /\ match iteration state with
         | Some i => if navigate_earlier then Event.iter d < i else i < Event.iter d
         | None => True
         end.
Proof.
  intros Hne. unfold another_iteration_request.
  cbn [SearchRequest.query]. rewrite matches_must.
  rewrite !Forall_cons, Forall_nil.
  rewrite matches_term_task, matches_term_metric, matches_exists_url.
  assert (matches (QBool []
            ((fun v =>
                QBool
                  [QTerm FVariant (Some (VStr (VariantState.name v)));
                   QRange FIter
                     (Bounds.mk None (Some (VariantState.min_iteration v)) None None)]
                  []) <$> variants)) d
          <-> exists v, v ∈ variants
                        /\ VariantState.name v = Event.variant d
                        /\ VariantState.min_iteration v <= Event.iter d) as ->.
  { set (cond := fun v => QBool _ _).
    destruct variants as [|v0 variants]; [congruence|].
    change (cond <$> v0 :: variants) with (cond v0 :: (cond <$> variants)).
    rewrite matches_should.
    change (cond v0 :: (cond <$> variants)) with (cond <$> v0 :: variants).
    rewrite Exists_fmap, Exists_exists. unfold cond.
    split; intros (v & Hv & H); exists v; (split; [exact Hv|]).
    - apply matches_must in H. rewrite !Forall_cons in H.
      destruct H as (H1 & H2 & _).
      apply matches_term_variant in H1. apply in_bounds_gte in H2. auto.
    - apply matches_must. rewrite !Forall_cons, Forall_nil.
      rewrite matches_term_variant, matches_range_iter, in_bounds_gte.
      destruct H as [-> ?]. auto. }
  assert (matches (QRange FIter
            (if navigate_earlier
             then Bounds.mk None None (iteration state) None
             else Bounds.mk (iteration state) None None None)) d
          <-> match iteration state with
              | Some i => if navigate_earlier then Event.iter d < i else i < Event.iter d
              | None => True
              end) as ->.
  { rewrite matches_range_iter.
    destruct navigate_earlier; [rewrite in_bounds_lt | rewrite in_bounds_gt];
      destruct (iteration state); reflexivity. }
  tauto.
Qed.

(** What the request of the search on the current iteration asks of a
    document. *)
Lemma matches_current_iteration_request (navigate_earlier : bool) (state : State)
    (variants : list VariantState.t) (d : Event.t) :
  matches (SearchRequest.query
             (current_iteration_request navigate_earlier state variants)) d
  <-> Some (Event.task d) = task state
      /\ Some (Event.metric d) = metric state
      /\ (exists v, v ∈ variants /\ VariantState.name v = Event.variant d)
      /\ Some (Event.iter d) = iteration state
      /\ is_Some (Event.url d).
Proof.
  unfold current_iteration_request.
  cbn [SearchRequest.query]. rewrite matches_must.
  rewrite !Forall_cons, Forall_nil.
  rewrite matches_term_task, matches_term_metric, matches_exists_url,
    matches_terms_variant, matches_term_iter.
  tauto.
Qed.

Lemma _get_next_for_another_iteration_hit (es : Elasticsearch) (company_id : string)
    (navigate_earlier : bool) (state : State) (d : Event.t) :
  _get_next_for_another_iteration es company_id navigate_earlier state = Ok (Some d) ->
  exists variants,
    another_iteration_variants navigate_earlier state = Ok variants
    /\ variants <> []
    /\ d ∈ es company_id
    /\ matches (SearchRequest.query
                  (another_iteration_request navigate_earlier state variants)) d.
Proof.
  unfold _get_next_for_another_iteration. intros H.
  apply bind_Ok in H as (variants & Hv & H). exists variants.
  split; [exact Hv|].
  destruct variants as [|v variants]; [discriminate|].
  split; [discriminate|].
  apply bind_Ok in H as (hits & Hhits & [= Hfirst]).
  apply first_hit_elem_of in Hfirst.
  apply (search_company_events_hits _ _ _ _ _ Hhits Hfirst).
Qed.

Lemma _get_next_for_current_iteration_hit (es : Elasticsearch) (company_id : string)
    (navigate_earlier : bool) (state : State) (d : Event.t) :
  _get_next_for_current_iteration es company_id navigate_earlier state = Ok (Some d) ->
  exists variants,
    current_iteration_variants navigate_earlier state = Ok variants
    /\ d ∈ es company_id
    /\ matches (SearchRequest.query
                  (current_iteration_request navigate_earlier state variants)) d.
Proof.
  unfold _get_next_for_current_iteration. intros H.
  apply bind_Ok in H as (variants & Hv & H). exists variants.
  split; [exact Hv|].
  destruct variants as [|v variants]; [discriminate|].
  apply bind_Ok in H as (hits & Hhits & [= Hfirst]).
  apply first_hit_elem_of in Hfirst.
  apply (search_company_events_hits _ _ _ _ _ Hhits Hfirst).
Qed.

(** ** Claims on the navigation *)

(** C3. In the search on another iteration the candidates are all the
    variants of the state when navigating forward and those with
    [min_iteration] below the iteration of the state when navigating
    backward; a document that matches the request has the name of a
    candidate and an iteration at or above its [min_iteration]; and so has
    the document that the search selects. *)
Theorem another_iteration_candidates_and_window (es : Elasticsearch)
    (company_id : string) (state : State) :
  another_iteration_variants false state = Ok (variant_states state)
  /\ (forall i, iteration state = Some i ->
        another_iteration_variants true state
        = Ok (filter (fun v => VariantState.min_iteration v < i)
                (variant_states state)))
  /\ (forall navigate_earlier variants d,
        variants <> [] ->
        matches (SearchRequest.query
                   (another_iteration_request navigate_earlier state variants)) d ->
        exists v, v ∈ variants
                  /\ VariantState.name v = Event.variant d
                  /\ VariantState.min_iteration v <= Event.iter d)
  /\ (forall navigate_earlier d,
        _get_next_for_another_iteration es company_id navigate_earlier state
        = Ok (Some d) ->
        exists variants v,
          another_iteration_variants navigate_earlier state = Ok variants
          /\ v ∈ variants
          /\ VariantState.name v = Event.variant d
          /\ VariantState.min_iteration v <= Event.iter d).
Proof.
  split; [reflexivity|].
  split; [apply another_iteration_variants_backward|].
  split.
  - intros navigate_earlier variants d Hne Hm.
    apply matches_another_iteration_request in Hm; [|exact Hne]. tauto.
  - intros navigate_earlier d Hd.
    apply _get_next_for_another_iteration_hit in Hd
      as (variants & Hv & Hne & _ & Hm).
    apply matches_another_iteration_request in Hm as (_ & _ & _ & (v & Hin) & _);
      [|exact Hne].
    exists variants, v. tauto.
Qed.

Lemma another_iteration_candidates_and_window_witness :
  _get_next_for_another_iteration demo_es "c" true demo_state
  = Ok (Some (Event.mk "T" "M" "b" 0 (Some "b0")))
  /\ exists v, v ∈ [VariantState.mk "a" 0 1; VariantState.mk "b" 0 0]
               /\ VariantState.name v = "b"
               /\ VariantState.min_iteration v <= 0.
Proof.
  split; [vm_compute; reflexivity|].
  destruct (another_iteration_candidates_and_window demo_es "c" demo_state)
    as (_ & Hback & _ & Hsel).
  destruct (Hsel true (Event.mk "T" "M" "b" 0 (Some "b0")))
    as (variants & v & Hv & Hin & Hname & Hmin).
  { vm_compute. reflexivity. }
  rewrite (Hback 1 eq_refl) in Hv. injection Hv as <-.
  exists v. split; [|split; [exact Hname | exact Hmin]].
  apply list_elem_of_filter in Hin as [_ Hin]. exact Hin.
Defined.

(** The first search decides as soon as it yields a document. *)
Lemma get_next_debug_image_current (es : Elasticsearch) (store : Store)
    (company_id task_ state_id : string) (navigate_earlier : bool)
    (state : State) (image : Event.t) :
  get_state state_id store = Some state ->
  task state = Some task_ ->
  check_empty_data es company_id = false ->
  _get_next_for_current_iteration es company_id navigate_earlier state
  = Ok (Some image) ->
  get_next_debug_image es store company_id task_ state_id navigate_earlier
  = (Ok (_fill_res_and_update_state image
           (DebugSampleHistoryResult.mk (Some state_id) None None None) state).1,
     set_state (_fill_res_and_update_state image
           (DebugSampleHistoryResult.mk (Some state_id) None None None) state).2
       store).
Proof.
  intros Hstate Htask Hdata Hcur. unfold get_next_debug_image.
  rewrite Hstate, Hdata, Hcur. simpl.
  rewrite bool_decide_false; [|intros Hneq; apply Hneq, Htask].
  destruct (_fill_res_and_update_state _ _ _). reflexivity.
Qed.

Lemma _fill_res_and_update_state_event (image : Event.t) (res : Res) (state : State) :
  DebugSampleHistoryResult.event (_fill_res_and_update_state image res state).1
  = Some image.
Proof.
  unfold _fill_res_and_update_state.
  destruct (first_named _ _); reflexivity.
Qed.

(** What [_fill_res_and_update_state] leaves of the state: everything but
    the variant and the iteration, which are those of the image. *)
Lemma _fill_res_and_update_state_state (image : Event.t) (res : Res) (state : State) :
  (_fill_res_and_update_state image res state).2
  = set_iteration (Some (Event.iter image))
      (set_variant (Some (Event.variant image)) state).
Proof.
  unfold _fill_res_and_update_state.
  destruct (first_named _ _); reflexivity.
Qed.

Lemma ltb_irrefl (s : string) : String.ltb s s = false.
Proof.
  unfold String.ltb. pose proof (String.compare_antisym s s) as H.
  destruct (String.compare s s); simpl in H; [reflexivity | discriminate | reflexivity].
Qed.

Lemma check_empty_data_false (es : Elasticsearch) (company_id : string) (d : Event.t) :
  d ∈ es company_id -> check_empty_data es company_id = false.
Proof.
  unfold check_empty_data. destruct (es company_id); [|reflexivity].
  intros H. apply elem_of_nil in H. contradiction.
Qed.

Lemma well_formed_current_iteration_request (navigate_earlier : bool)
    (state : State) (variants : list VariantState.t) :
  is_Some (task state) -> is_Some (metric state) -> is_Some (iteration state) ->
  well_formed (SearchRequest.query
                 (current_iteration_request navigate_earlier state variants))
  = true.
Proof.
  intros [t Ht] [m Hm] [i Hi]. unfold current_iteration_request.
  rewrite Ht, Hm, Hi. reflexivity.
Qed.

(** C2, as amended. The search on the current iteration comes first: when
    it yields a document, that document is the one selected, on the
    iteration of the state, whatever the other iterations hold. With two
    variants "a" and "b", "b" valid at the iteration of the state and
    holding an image there, advancing forward from "a" selects an image of
    "b" on that iteration. *)
Theorem advance_prefers_current_iteration (es : Elasticsearch) (store : Store)
    (company_id task_ state_id : string) (state : State)
    (Hstate : get_state state_id store = Some state)
    (Htask : task state = Some task_) :
  (forall navigate_earlier image,
     check_empty_data es company_id = false ->
     _get_next_for_current_iteration es company_id navigate_earlier state
     = Ok (Some image) ->
     exists res state',
       get_next_debug_image es store company_id task_ state_id navigate_earlier
       = (Ok res, set_state state' store)
       /\ DebugSampleHistoryResult.event res = Some image
       /\ Some (Event.iter image) = iteration state)
  /\ (forall va vb i d,
        variant_states state = [va; vb] ->
        variant state = Some (VariantState.name va) ->
        iteration state = Some i ->
        String.ltb (VariantState.name va) (VariantState.name vb) = true ->
        VariantState.min_iteration vb <= i ->
        d ∈ es company_id ->
        Event.task d = task_ ->
        Some (Event.metric d) = metric state ->
        Event.variant d = VariantState.name vb ->
        Event.iter d = i ->
        is_Some (Event.url d) ->
        exists res state' image,
          get_next_debug_image es store company_id task_ state_id false
          = (Ok res, set_state state' store)
          /\ DebugSampleHistoryResult.event res = Some image
          /\ Event.variant image = VariantState.name vb
          /\ Event.iter image = i).
Proof.
  assert (forall navigate_earlier image,
     check_empty_data es company_id = false ->
     _get_next_for_current_iteration es company_id navigate_earlier state
     = Ok (Some image) ->
     exists res state',
       get_next_debug_image es store company_id task_ state_id navigate_earlier
       = (Ok res, set_state state' store)
       /\ DebugSampleHistoryResult.event res = Some image
       /\ Some (Event.iter image) = iteration state) as Hfirst.
  { intros navigate_earlier image Hdata Hcur.
    eexists _, _. split; [|split].
    - apply get_next_debug_image_current; eassumption.
    - apply _fill_res_and_update_state_event.
    - apply _get_next_for_current_iteration_hit in Hcur as (variants & _ & _ & Hm).
      apply matches_current_iteration_request in Hm. tauto. }
  split; [exact Hfirst|].
  intros va vb i d Hvs Hvar Hiter Hlt Hmin Hd Hdtask Hdmetric Hdvar Hditer Hdurl.
  assert (current_iteration_variants false state = Ok [vb]) as Hcands.
  { rewrite (current_iteration_variants_forward state (VariantState.name va) i)
      by assumption.
    rewrite Hvs, !filter_cons, filter_nil, ltb_irrefl, Hlt.
    destruct (decide (_ /\ _)) as [[[] _]|_].
    destruct (decide (_ /\ _)) as [_|Hn]; [reflexivity|].
    exfalso. apply Hn. split; [exact I | exact Hmin]. }
  pose (es_req := current_iteration_request false state [vb]).
  assert (matches (SearchRequest.query es_req) d) as Hm.
  { apply matches_current_iteration_request. rewrite Htask, Hiter.
    repeat split; try congruence; try assumption.
    exists vb. split; [apply elem_of_cons; left; reflexivity | congruence]. }
  assert (well_formed (SearchRequest.query es_req) = true) as Hwf.
  { apply well_formed_current_iteration_request.
    - rewrite Htask. eexists. reflexivity.
    - rewrite <- Hdmetric. eexists. reflexivity.
    - rewrite Hiter. eexists. reflexivity. }
  destruct (search_company_events_finds es company_id
              [(FVariant, asc)] (SearchRequest.query es_req) d Hwf Hd Hm)
    as (hit & hits & Hsearch).
  assert (_get_next_for_current_iteration es company_id false state
          = Ok (Some hit)) as Hcur.
  { unfold _get_next_for_current_iteration. rewrite Hcands. simpl.
    change (current_iteration_request false state [vb]) with es_req.
    change es_req with
      (SearchRequest.mk 1 [(FVariant, asc)] (SearchRequest.query es_req)) at 1.
    rewrite Hsearch. reflexivity. }
  destruct (Hfirst false hit (check_empty_data_false es company_id d Hd) Hcur)
    as (res & state' & Hnext & Hevent & Hhititer).
  exists res, state', hit. split; [exact Hnext|]. split; [exact Hevent|].
  apply _get_next_for_current_iteration_hit in Hcur as (variants & Hv & _ & Hhit).
  rewrite Hcands in Hv. injection Hv as <-.
  apply matches_current_iteration_request in Hhit
    as (_ & _ & (v & Hv & Hname) & Hi & _).
  apply list_elem_of_singleton in Hv as ->.
  split; [congruence|]. rewrite Hiter in Hi. congruence.
Qed.

Lemma advance_prefers_current_iteration_witness :
  exists res state' image,
    get_next_debug_image tie_es {["cursor" := tie_state]} "c" "T" "cursor" false
    = (Ok res, set_state state' {["cursor" := tie_state]})
    /\ DebugSampleHistoryResult.event res = Some image
    /\ Event.variant image = "b"
    /\ Event.iter image = 5.
Proof.
  destruct (advance_prefers_current_iteration tie_es {["cursor" := tie_state]}
              "c" "T" "cursor" tie_state) as [_ Htie].
  - vm_compute. reflexivity.
  - reflexivity.
  - apply (Htie (VariantState.mk "a" 5 6) (VariantState.mk "b" 5 6) 5
             (Event.mk "T" "M" "b" 5 (Some "b5"))).
    + reflexivity.
    + reflexivity.
    + reflexivity.
    + reflexivity.
    + simpl. lia.
    + apply elem_of_cons. right. apply elem_of_cons. left. reflexivity.
    + reflexivity.
    + reflexivity.
    + reflexivity.
    + reflexivity.
    + eexists. reflexivity.
Defined.

(** C2, as the claim states it, fails: "a" and "b" are both valid at
    iteration 5 ([min_iteration] 5 and 0), the state is at "a" on
    iteration 5, and advancing forward selects "b" at iteration 9, since
    "b" holds no image at iteration 5. *)
Lemma advance_leaves_iteration_without_image :
  get_state "cursor" gap_store
  = Some (DebugSampleHistoryState.mk "cursor" (Some 5) (Some "a") (Some "T")
            (Some "M") None None
            [VariantState.mk "a" 5 5; VariantState.mk "b" 0 9] None)
  /\ (get_next_debug_image gap_es gap_store "c" "T" "cursor" false).1
     = Ok (DebugSampleHistoryResult.mk (Some "cursor")
             (Some (Event.mk "T" "M" "b" 9 (Some "b9"))) (Some 0) (Some 9)).
Proof. split; vm_compute; reflexivity. Qed.

(** ** Claims on the results of [get_next_debug_image] *)

(** C6. When neither search yields a document, the result carries the
    cursor id that was passed in and nothing else, and the cache is left
    as it was. *)
Theorem advance_at_boundary (es : Elasticsearch) (store : Store)
    (company_id task_ state_id : string) (navigate_earlier : bool) (state : State)
    (Hstate : get_state state_id store = Some state)
    (Htask : task state = Some task_)
    (Hcurrent : _get_next_for_current_iteration es company_id navigate_earlier state
                = Ok None)
    (Hanother : _get_next_for_another_iteration es company_id navigate_earlier state
                = Ok None) :
  get_next_debug_image es store company_id task_ state_id navigate_earlier
  = (Ok (DebugSampleHistoryResult.mk (Some state_id) None None None), store).
Proof.
  unfold get_next_debug_image. rewrite Hstate.
  rewrite bool_decide_false; [|intros Hneq; apply Hneq, Htask].
  destruct (check_empty_data es company_id); [reflexivity|].
  rewrite Hcurrent. simpl. rewrite Hanother. reflexivity.
Qed.

Lemma advance_at_boundary_witness :
  get_next_debug_image demo_es {["cursor" := first_state]} "c" "T" "cursor" true
  = (Ok (DebugSampleHistoryResult.mk (Some "cursor") None None None),
     {["cursor" := first_state]}).
Proof.
  apply (advance_at_boundary demo_es {["cursor" := first_state]}
           "c" "T" "cursor" true first_state).
  - vm_compute. reflexivity.
  - reflexivity.
  - vm_compute. reflexivity.
  - vm_compute. reflexivity.
Defined.

(** *** What the searches can raise *)

Lemma filter_raise_error {A : Type} (cond : A -> Result bool) (l : list A) (e : Error) :
  filter_raise cond l = Raise e -> exists x, x ∈ l /\ cond x = Raise e.
Proof.
  induction l as [|x l IH]; simpl; [discriminate|].
  destruct (cond x) as [keep|e'] eqn:Hx; simpl.
  - destruct (filter_raise cond l) as [rest|e'] eqn:Hl; simpl; [discriminate|].
    intros [= ->]. destruct (IH eq_refl) as (y & Hy & He).
    exists y. split; [apply elem_of_cons; right; exact Hy | exact He].
  - intros [= ->]. exists x. split; [apply elem_of_cons; left; reflexivity | exact Hx].
Qed.

Lemma search_company_events_error (es : Elasticsearch) (company_id : string)
    (body : SearchRequest.t) (e : Error) :
  search_company_events es company_id body = Raise e -> e = DataError.
Proof.
  unfold search_company_events. destruct (well_formed _); [discriminate|].
  intros [= <-]. reflexivity.
Qed.

Lemma current_iteration_variants_error (navigate_earlier : bool) (state : State)
    (e : Error) :
  current_iteration_variants navigate_earlier state = Raise e -> e = TypeError.
Proof.
  unfold current_iteration_variants. intros H.
  apply filter_raise_error in H as (v & _ & H).
  destruct navigate_earlier, (variant state), (iteration state); simpl in H;
    try (destruct (String.ltb _ _); simpl in H); congruence.
Qed.

Lemma another_iteration_variants_error (navigate_earlier : bool) (state : State)
    (e : Error) :
  another_iteration_variants navigate_earlier state = Raise e -> e = TypeError.
Proof.
  unfold another_iteration_variants. destruct navigate_earlier; [|discriminate].
  intros H. apply filter_raise_error in H as (v & _ & H).
  destruct (iteration state); simpl in H; congruence.
Qed.

Lemma _get_next_for_current_iteration_error (es : Elasticsearch)
    (company_id : string) (navigate_earlier : bool) (state : State) (e : Error) :
  _get_next_for_current_iteration es company_id navigate_earlier state = Raise e ->
  e = TypeError \/ e = DataError.
Proof.
  unfold _get_next_for_current_iteration.
  destruct (current_iteration_variants _ _) as [[|v variants]|e'] eqn:Hv; simpl.
  - discriminate.
  - destruct (search_company_events _ _ _) as [hits|e'] eqn:Hs; simpl;
      [discriminate|].
    intros [= ->]. right. apply (search_company_events_error _ _ _ _ Hs).
  - intros [= ->]. left. apply (current_iteration_variants_error _ _ _ Hv).
Qed.

Lemma _get_next_for_another_iteration_error (es : Elasticsearch)
    (company_id : string) (navigate_earlier : bool) (state : State) (e : Error) :
  _get_next_for_another_iteration es company_id navigate_earlier state = Raise e ->
  e = TypeError \/ e = DataError.
Proof.
  unfold _get_next_for_another_iteration.
  destruct (another_iteration_variants _ _) as [[|v variants]|e'] eqn:Hv; simpl.
  - discriminate.
  - destruct (search_company_events _ _ _) as [hits|e'] eqn:Hs; simpl;
      [discriminate|].
    intros [= ->]. right. apply (search_company_events_error _ _ _ _ Hs).
  - intros [= ->]. left. apply (another_iteration_variants_error _ _ _ Hv).
Qed.

(** C7. [get_next_debug_image] raises [InvalidScrollId] exactly when the
    cache holds no state for the cursor id or the task of the state is not
    the task passed in; with a state of the same task and an empty index
    it returns the result that carries the cursor id only. *)
Theorem invalid_scroll_id_iff (es : Elasticsearch) (store : Store)
    (company_id task_ state_id : string) (navigate_earlier : bool) :
  ((get_next_debug_image es store company_id task_ state_id navigate_earlier).1
   = Raise InvalidScrollId
   <-> get_state state_id store = None
       \/ exists state, get_state state_id store = Some state
                        /\ task state <> Some task_)
  /\ (forall state,
        get_state state_id store = Some state ->
        task state = Some task_ ->
        check_empty_data es company_id = true ->
        get_next_debug_image es store company_id task_ state_id navigate_earlier
        = (Ok (DebugSampleHistoryResult.mk (Some state_id) None None None), store)).
Proof.
  split.
  - unfold get_next_debug_image.
    destruct (get_state state_id store) as [state|] eqn:Hstate.
    + destruct (bool_decide_reflect (task state <> Some task_)) as [Hneq|Heq].
      * split; [|reflexivity]. intros _. right. exists state. auto.
      * split.
        -- destruct (check_empty_data es company_id); [discriminate|].
           destruct (_get_next_for_current_iteration _ _ _ _)
             as [[image|]|e] eqn:Hcur; simpl.
           ++ destruct (_fill_res_and_update_state _ _ _). discriminate.
           ++ destruct (_get_next_for_another_iteration _ _ _ _)
                as [[image|]|e] eqn:Hother; simpl.
              ** destruct (_fill_res_and_update_state _ _ _). discriminate.
              ** discriminate.
              ** intros [= ->].
                 apply _get_next_for_another_iteration_error in Hother
                   as [?|?]; discriminate.
           ++ intros [= ->].
              apply _get_next_for_current_iteration_error in Hcur
                as [?|?]; discriminate.
        -- intros [Hnone|(state' & [= <-] & Hneq)]; [discriminate | contradiction].
    + split; [|reflexivity]. intros _. left. reflexivity.
  - intros state Hstate Htask Hempty. unfold get_next_debug_image.
    rewrite Hstate, Hempty.
    rewrite bool_decide_false; [reflexivity | intros Hneq; apply Hneq, Htask].
Qed.

Lemma invalid_scroll_id_iff_witness :
  (get_next_debug_image demo_es {["cursor" := demo_state]} "c" "T" "gone" true).1
  = Raise InvalidScrollId
  /\ (get_next_debug_image demo_es {["cursor" := demo_state]} "c" "U" "cursor" true).1
     = Raise InvalidScrollId
  /\ (get_next_debug_image demo_es {["cursor" := demo_state]} "c" "T" "cursor" true).1
     <> Raise InvalidScrollId.
Proof.
  split; [|split].
  - apply (invalid_scroll_id_iff demo_es {["cursor" := demo_state]}
             "c" "T" "gone" true).
    left. vm_compute. reflexivity.
  - apply (invalid_scroll_id_iff demo_es {["cursor" := demo_state]}
             "c" "U" "cursor" true).
    right. exists demo_state. split; [vm_compute; reflexivity | discriminate].
  - vm_compute. discriminate.
Defined.

(** ** Claims on [_fill_res_and_update_state] *)

Lemma first_named_None (name : string) (variant_states : list VariantState.t) :
  (forall s, s ∈ variant_states -> VariantState.name s <> name) ->
  first_named (Some name) variant_states = None.
Proof.
  intros Habsent. unfold first_named.
  destruct (List.find _ _) as [s|] eqn:Hfind; [|reflexivity].
  apply find_some in Hfind as [Hin Hname].
  apply bool_decide_eq_true in Hname. injection Hname as Hname.
  exfalso. apply (Habsent s); [apply list_elem_of_In, Hin | exact Hname].
Qed.

(** C9, as amended. For a document whose variant is not among the variant
    states, [_fill_res_and_update_state] leaves the iteration bounds of the
    result as they were and sets the event; in the state it sets the
    variant and the iteration and nothing else: the warning is left as it
    was. *)
Theorem absent_variant_leaves_bounds (image : Event.t) (res : Res) (state : State)
    (Habsent : forall s, s ∈ variant_states state ->
                 VariantState.name s <> Event.variant image) :
  _fill_res_and_update_state image res state
  = (DebugSampleHistoryResult.set_event (Some image) res,
     set_iteration (Some (Event.iter image))
       (set_variant (Some (Event.variant image)) state))
  /\ DebugSampleHistoryResult.min_iteration
       (_fill_res_and_update_state image res state).1
     = DebugSampleHistoryResult.min_iteration res
  /\ DebugSampleHistoryResult.max_iteration
       (_fill_res_and_update_state image res state).1
     = DebugSampleHistoryResult.max_iteration res
  /\ warning (_fill_res_and_update_state image res state).2 = warning state.
Proof.
  assert (_fill_res_and_update_state image res state
          = (DebugSampleHistoryResult.set_event (Some image) res,
             set_iteration (Some (Event.iter image))
               (set_variant (Some (Event.variant image)) state))) as Heq.
  { unfold _fill_res_and_update_state. cbn [variant set_iteration set_variant
      variant_states]. rewrite (first_named_None _ _ Habsent). reflexivity. }
  rewrite Heq. repeat split.
Qed.

Lemma absent_variant_leaves_bounds_witness :
  _fill_res_and_update_state (Event.mk "T" "M" "z" 3 (Some "z3"))
    (DebugSampleHistoryResult.mk (Some "cursor") None None None) demo_state
  = (DebugSampleHistoryResult.mk (Some "cursor")
       (Some (Event.mk "T" "M" "z" 3 (Some "z3"))) None None,
     DebugSampleHistoryState.mk "cursor" (Some 3) (Some "z") (Some "T") (Some "M")
       None None [VariantState.mk "a" 0 1; VariantState.mk "b" 0 0] None).
Proof.
  apply (absent_variant_leaves_bounds (Event.mk "T" "M" "z" 3 (Some "z3"))
           (DebugSampleHistoryResult.mk (Some "cursor") None None None) demo_state).
  intros s Hs. simpl in Hs.
  apply elem_of_cons in Hs as [->|Hs]; [discriminate|].
  apply elem_of_cons in Hs as [->|Hs]; [discriminate|].
  apply elem_of_nil in Hs. contradiction.
Defined.

(** C9, as the claim states it, fails: variant "z" is not among the
    variant states, the bounds of the result stay empty, and the warning
    of the state stays unset. *)
Lemma absent_variant_sets_no_warning :
  first_named (Some "z") (variant_states demo_state) = None
  /\ warning demo_state = None
  /\ warning (_fill_res_and_update_state (Event.mk "T" "M" "z" 3 (Some "z3"))
                (DebugSampleHistoryResult.mk (Some "cursor") None None None)
                demo_state).2
     = None.
Proof. repeat split. Qed.

(** ** Claims on [get_debug_image_for_variant] *)

(** C10. On an index that holds no document, [get_debug_image_for_variant]
    returns the empty result, without a cursor id even when one was passed
    in, and leaves the cache as it was: no state is looked up, checked or
    saved. *)
Theorem jump_on_empty_index (max_variants_count : nat)
    (new_id : option string -> Store -> string)
    (es : Elasticsearch) (store : Store)
    (company_id task_ metric_ variant_ : string) (iteration_ : option Z)
    (refresh : bool) (state_id : option string)
    (Hempty : es company_id = []) :
  get_debug_image_for_variant max_variants_count new_id es store
    company_id task_ metric_ variant_ iteration_ refresh state_id
  = (Ok (DebugSampleHistoryResult.mk None None None None), store).
Proof.
  unfold get_debug_image_for_variant, check_empty_data.
  rewrite Hempty. reflexivity.
Qed.

Lemma jump_on_empty_index_witness :
  get_debug_image_for_variant 100 mint_cursor empty_es {["cursor" := demo_state]}
    "c" "U" "M" "a" None true (Some "cursor")
  = (Ok (DebugSampleHistoryResult.mk None None None None),
     {["cursor" := demo_state]}).
Proof.
  apply (jump_on_empty_index 100 mint_cursor empty_es {["cursor" := demo_state]}
           "c" "U" "M" "a" None true (Some "cursor")).
  reflexivity.
Defined.

(** ** The variant states of the cached states *)

Section ServiceFacts.
Variable max_variants_count : nat.
Variable new_id : option string -> Store -> string.

Lemma _get_variant_iterations_sorted (es : Elasticsearch) (company_id : string)
    (task_ metric_ : option string) (variants : option (list string))
    (l : list (string * Z * Z)) :
  _get_variant_iterations max_variants_count es company_id task_ metric_ variants
  = Ok l ->
  StronglySorted String.le l.*1.*1.
Proof.
  destruct task_ as [t|], metric_ as [m|].
  - destruct (_get_variant_iterations_spec max_variants_count es company_id
                t m variants) as (l' & -> & Hkeys & _).
    intros [= <-]. rewrite Hkeys. apply variants_agg_sorted.
  - unfold _get_variant_iterations, search_company_events_aggs.
    destruct variants as [[|? ?]|]; discriminate.
  - unfold _get_variant_iterations, search_company_events_aggs.
    destruct variants as [[|? ?]|]; discriminate.
  - unfold _get_variant_iterations, search_company_events_aggs.
    destruct variants as [[|? ?]|]; discriminate.
Qed.

Lemma _reset_variant_states_Ok (es : Elasticsearch) (company_id : string)
    (state state' : State) :
  _reset_variant_states max_variants_count es company_id state = Ok state' ->
  exists l,
    _get_variant_iterations max_variants_count es company_id
      (task state) (metric state) None = Ok l
    /\ state' = set_variant_states
                  ((fun '(var_name, min_iter, max_iter) =>
                      VariantState.mk var_name min_iter max_iter) <$> l)
                  state.
Proof.
  unfold _reset_variant_states. intros H.
  apply bind_Ok in H as (l & Hl & [= <-]). exists l. split; [exact Hl | reflexivity].
Qed.

Lemma variant_state_names (l : list (string * Z * Z)) :
  VariantState.name <$>
    ((fun '(var_name, min_iter, max_iter) =>
        VariantState.mk var_name min_iter max_iter) <$> l)
  = l.*1.*1.
Proof.
  induction l as [|[[n mn] mx] l IH]; simpl; [reflexivity|].
  f_equal. exact IH.
Qed.

(** [_reset_variant_states] lists the variants in the order of the
    resolver, which is the order of their names, and touches nothing else
    of the state. *)
Lemma _reset_variant_states_sorted (es : Elasticsearch) (company_id : string)
    (state state' : State) :
  _reset_variant_states max_variants_count es company_id state = Ok state' ->
  sorted_by_name (variant_states state')
  /\ exists vs, state' = set_variant_states vs state.
Proof.
  intros H. apply _reset_variant_states_Ok in H as (l & Hl & ->).
  split; [|eexists; reflexivity].
  unfold sorted_by_name. cbn [variant_states set_variant_states].
  rewrite variant_state_names.
  apply (_get_variant_iterations_sorted _ _ _ _ _ _ Hl).
Qed.

Lemma _reset_variant_states_total (es : Elasticsearch) (company_id : string)
    (state : State) :
  is_Some (task state) -> is_Some (metric state) ->
  exists state', _reset_variant_states max_variants_count es company_id state
                 = Ok state'.
Proof.
  intros [t Ht] [m Hm]. unfold _reset_variant_states. rewrite Ht, Hm.
  destruct (_get_variant_iterations_spec max_variants_count es company_id t m None)
    as (l & -> & _).
  eexists. reflexivity.
Qed.

(** [_reset_variant_states] looks at the task and the metric of the state
    only. *)
Lemma _reset_variant_states_congr (es : Elasticsearch) (company_id : string)
    (s1 s2 s1' : State) :
  task s1 = task s2 -> metric s1 = metric s2 ->
  _reset_variant_states max_variants_count es company_id s1 = Ok s1' ->
  _reset_variant_states max_variants_count es company_id s2
  = Ok (set_variant_states (variant_states s1') s2).
Proof.
  intros Ht Hm H. apply _reset_variant_states_Ok in H as (l & Hl & ->).
  unfold _reset_variant_states. rewrite <- Ht, <- Hm, Hl. reflexivity.
Qed.

(** *** The body of the [with] block *)

Lemma well_formed_variant_request (task_ metric_ variant_ : string)
    (iteration_ : option Z) (var_state : VariantState.t) :
  well_formed (SearchRequest.query
                 (variant_request task_ metric_ variant_ iteration_ var_state))
  = true.
Proof. destruct iteration_; reflexivity. Qed.

(** The body returns a result whatever the state; the result is made of
    the id and of the variant states of the state; the state that it
    leaves differs from the one it got in the variant and the iteration
    at most. *)
Lemma with_state_spec (es : Elasticsearch)
    (company_id task_ metric_ variant_ : string) (iteration_ : option Z)
    (state : State) :
  exists res state',
    with_state es company_id task_ metric_ variant_ iteration_ state
    = Ok (DebugSampleHistoryResult.set_scroll_id (Some (id state)) res, state')
    /\ (forall other, variant_states other = variant_states state ->
          exists other',
            with_state es company_id task_ metric_ variant_ iteration_ other
            = Ok (DebugSampleHistoryResult.set_scroll_id (Some (id other)) res,
                  other'))
    /\ id state' = id state
    /\ task state' = task state
    /\ metric state' = metric state
    /\ variant_states state' = variant_states state
    /\ warning state' = warning state.
Proof.
  unfold with_state.
  destruct (first_named (Some variant_) (variant_states state))
    as [var_state|] eqn:Hvar.
  - unfold search_company_events. rewrite well_formed_variant_request.
    cbn [bind].
    destruct (take _ _) as [|hit hits] eqn:Hhits.
    + eexists (DebugSampleHistoryResult.mk None None _ _), state.
      split; [reflexivity|]. split; [|repeat split].
      intros other Hvs. rewrite Hvs, Hvar.
      rewrite well_formed_variant_request. cbn [bind]. rewrite Hhits.
      eexists. reflexivity.
    + unfold _fill_res_and_update_state.
      cbn [variant variant_states set_iteration set_variant].
      destruct (first_named (Some (Event.variant hit)) (variant_states state))
        as [hit_state|] eqn:Hhit.
      * eexists (DebugSampleHistoryResult.mk None _ _ _), _.
        split; [reflexivity|]. split; [|repeat split].
        intros other Hvs. rewrite Hvs, Hvar.
        rewrite well_formed_variant_request. cbn [bind]. rewrite Hhits.
        cbn [variant variant_states set_iteration set_variant].
        rewrite ?Hvs, Hhit. eexists. reflexivity.
      * eexists (DebugSampleHistoryResult.mk None _ _ _), _.
        split; [reflexivity|]. split; [|repeat split].
        intros other Hvs. rewrite Hvs, Hvar.
        rewrite well_formed_variant_request. cbn [bind]. rewrite Hhits.
        cbn [variant variant_states set_iteration set_variant].
        rewrite ?Hvs, Hhit. eexists. reflexivity.
  - eexists (DebugSampleHistoryResult.mk None None None None), state.
    split; [reflexivity|]. split; [|repeat split].
    intros other Hvs. rewrite Hvs, Hvar. eexists. reflexivity.
Qed.

End ServiceFacts.

Lemma set_state_lookup (state : State) (store : Store) (i : string) (state' : State) :
  set_state state store !! i = Some state' ->
  state' = state \/ store !! i = Some state'.
Proof.
  unfold set_state. destruct (decide (id state = i)) as [<-|Hne].
  - rewrite lookup_insert_eq. intros [= <-]. left. reflexivity.
  - rewrite lookup_insert_ne by exact Hne. intros H. right. exact H.
Qed.

Lemma with_state_Ok (es : Elasticsearch)
    (company_id task_ metric_ variant_ : string) (iteration_ : option Z)
    (state : State) (res : Res) (state' : State) :
  with_state es company_id task_ metric_ variant_ iteration_ state
  = Ok (res, state') ->
  DebugSampleHistoryResult.scroll_id res = Some (id state)
  /\ id state' = id state
  /\ task state' = task state
  /\ metric state' = metric state
  /\ variant_states state' = variant_states state.
Proof.
  destruct (with_state_spec es company_id task_ metric_ variant_ iteration_ state)
    as (res0 & state0 & -> & _ & Hid & Htask & Hmetric & Hvs & _).
  intros [= <- <-]. repeat split; assumption.
Qed.

Section Invariant.
Variable max_variants_count : nat.
Variable new_id : option string -> Store -> string.

(** The state that [get_debug_image_for_variant] hands to the body of its
    [with] block has the variant states of the cached state or those that
    [_reset_variant_states] built. *)
Lemma validate_state_Ok (es : Elasticsearch) (company_id task_ metric_ : string)
    (refresh : bool) (state prepared : State) :
  validate_state max_variants_count es company_id task_ metric_ refresh state
  = Ok prepared ->
  task state = Some task_ /\ metric state = Some metric_
  /\ (if refresh
      then _reset_variant_states max_variants_count es company_id state = Ok prepared
      else prepared = state).
Proof.
  unfold validate_state.
  destruct (bool_decide_reflect
              (task state <> Some task_ \/ metric state <> Some metric_))
    as [_|Hok]; [discriminate|].
  assert (task state = Some task_ /\ metric state = Some metric_) as [Ht Hm].
  { split.
    - destruct (decide (task state = Some task_)); tauto.
    - destruct (decide (metric state = Some metric_)); tauto. }
  destruct refresh.
  - intros H. auto.
  - intros [= <-]. auto.
Qed.

Lemma set_state_keyed (state : State) (store : Store) :
  store_keyed store -> store_keyed (set_state state store).
Proof.
  intros Hkeyed i state' H. apply set_state_lookup in H as H'.
  destruct H' as [->|H'].
  - unfold set_state in H. destruct (decide (id state = i)) as [Heq|Hne];
      [exact Heq|].
    rewrite lookup_insert_ne in H by exact Hne. apply (Hkeyed i state H).
  - apply (Hkeyed i state' H').
Qed.

(** Saving, under the id it is cached under, a state with the variant
    states it is cached with leaves the variant states of every entry as
    they were. *)
Lemma set_state_variant_states (state state' : State) (store : Store) (i : string) :
  store !! id state = Some state ->
  id state' = id state ->
  variant_states state' = variant_states state ->
  variant_states <$> set_state state' store !! i = variant_states <$> store !! i.
Proof.
  intros Hheld Hid Hvs. unfold set_state. rewrite Hid.
  destruct (decide (id state = i)) as [<-|Hne].
  - rewrite lookup_insert_eq, Hheld. cbn [fmap option_fmap option_map].
    rewrite Hvs. reflexivity.
  - rewrite lookup_insert_ne by exact Hne. reflexivity.
Qed.

(** What [get_next_debug_image] leaves in the cache: the cache as it was,
    or the cache with the state of the cursor saved at another variant
    and iteration. *)
Lemma get_next_debug_image_store (es : Elasticsearch) (store : Store)
    (company_id task_ state_id : string) (navigate_earlier : bool) :
  (get_next_debug_image es store company_id task_ state_id navigate_earlier).2
  = store
  \/ exists state image,
       get_state state_id store = Some state
       /\ (get_next_debug_image es store company_id task_ state_id
             navigate_earlier).2
          = set_state (set_iteration (Some (Event.iter image))
                         (set_variant (Some (Event.variant image)) state)) store.
Proof.
  unfold get_next_debug_image.
  destruct (get_state state_id store) as [state|] eqn:Hstate; [|left; reflexivity].
  destruct (bool_decide _); [left; reflexivity|].
  destruct (check_empty_data es company_id); [left; reflexivity|].
  destruct (bind _ _) as [[image|]|e]; [|left; reflexivity..].
  right. exists state, image. split; [reflexivity|].
  pose proof (_fill_res_and_update_state_state image
                (DebugSampleHistoryResult.mk (Some state_id) None None None) state)
    as Hfill.
  destruct (_fill_res_and_update_state image _ state) as [res' st'].
  cbn [snd] in Hfill |- *. rewrite Hfill. reflexivity.
Qed.

(** What [get_debug_image_for_variant] leaves in the cache: the cache as
    it was, or the cache with the state that the body of the [with] block
    left, saved under the cursor id of the result. *)
Lemma get_debug_image_for_variant_store (es : Elasticsearch) (store : Store)
    (company_id task_ metric_ variant_ : string) (iteration_ : option Z)
    (refresh : bool) (state_id : option string) :
  (get_debug_image_for_variant max_variants_count new_id es store
     company_id task_ metric_ variant_ iteration_ refresh state_id).2 = store
  \/ exists prepared res saved,
       match state_id ≫= (fun j => get_state j store) with
       | Some cached =>
           validate_state max_variants_count es company_id task_ metric_ refresh
             cached = Ok prepared
       | None =>
           init_state max_variants_count es company_id task_ metric_
             (DebugSampleHistoryState.new (new_id state_id store)) = Ok prepared
       end
       /\ with_state es company_id task_ metric_ variant_ iteration_ prepared
          = Ok (res, saved)
       /\ get_debug_image_for_variant max_variants_count new_id es store
            company_id task_ metric_ variant_ iteration_ refresh state_id
          = (Ok res, set_state saved store).
Proof.
  unfold get_debug_image_for_variant, get_or_create_state.
  destruct (check_empty_data es company_id); [left; reflexivity|].
  destruct (bind _ _) as [[res saved]|e] eqn:Hrun; [|left; reflexivity].
  right. apply bind_Ok in Hrun as (prepared & Hprep & Hbody).
  exists prepared, res, saved. split; [|split; [exact Hbody | reflexivity]].
  destruct (state_id ≫= _); exact Hprep.
Qed.

(** C5. The resolver answers with the variants in ascending order of
    their names. [_reset_variant_states] builds the variant states from
    the answer of the resolver, one for each triple and in the order of
    the answer, so that their names are those of the answer, in
    ascending order. [_fill_res_and_update_state] leaves the variant
    states as they are. Over a cache that holds every state under its id
    and whose variant states are sorted by name, [get_next_debug_image]
    leaves under every id the variant states that the cache held there,
    and [get_debug_image_for_variant] does so too except under the cursor
    id that it returns, and there only when [refresh] is set or no state
    was loaded: the variant states are then those that
    [_reset_variant_states] built for the task and metric passed in.
    After either operation the cache holds every state under its id and
    its variant states are sorted by name. *)
Theorem variant_states_stay_sorted (es : Elasticsearch) (store : Store)
    (company_id : string)
    (Hsorted : store_sorted store) (Hkeyed : store_keyed store) :
  (forall task_ metric_ variants l,
     _get_variant_iterations max_variants_count es company_id task_ metric_ variants
     = Ok l ->
     StronglySorted String.le l.*1.*1)
  /\ (forall state state',
        _reset_variant_states max_variants_count es company_id state = Ok state' ->
        exists l,
          _get_variant_iterations max_variants_count es company_id
            (task state) (metric state) None = Ok l
          /\ variant_states state'
             = (fun '(var_name, min_iter, max_iter) =>
                  VariantState.mk var_name min_iter max_iter) <$> l
          /\ VariantState.name <$> variant_states state' = l.*1.*1
          /\ sorted_by_name (variant_states state'))
  /\ (forall image res state,
        variant_states (_fill_res_and_update_state image res state).2
        = variant_states state)
  /\ (forall task_ state_id navigate_earlier,
        store_sorted
          (get_next_debug_image es store company_id task_ state_id
             navigate_earlier).2
        /\ store_keyed
             (get_next_debug_image es store company_id task_ state_id
                navigate_earlier).2
        /\ forall i,
             variant_states <$>
               (get_next_debug_image es store company_id task_ state_id
                  navigate_earlier).2 !! i
             = variant_states <$> store !! i)
  /\ (forall task_ metric_ variant_ iteration_ refresh state_id,
        store_sorted
          (get_debug_image_for_variant max_variants_count new_id es store
             company_id task_ metric_ variant_ iteration_ refresh state_id).2
        /\ store_keyed
             (get_debug_image_for_variant max_variants_count new_id es store
                company_id task_ metric_ variant_ iteration_ refresh state_id).2
        /\ forall i,
             variant_states <$>
               (get_debug_image_for_variant max_variants_count new_id es store
                  company_id task_ metric_ variant_ iteration_ refresh
                  state_id).2 !! i
             = variant_states <$> store !! i
             \/ ((refresh = true
                  \/ (state_id ≫= (fun j => get_state j store)) = None)
                 /\ exists res state rebuilt saved,
                      (get_debug_image_for_variant max_variants_count new_id es
                         store company_id task_ metric_ variant_ iteration_
                         refresh state_id).1 = Ok res
                      /\ DebugSampleHistoryResult.scroll_id res = Some i
                      /\ task state = Some task_ /\ metric state = Some metric_
                      /\ _reset_variant_states max_variants_count es company_id
                           state = Ok rebuilt
                      /\ (get_debug_image_for_variant max_variants_count new_id es
                            store company_id task_ metric_ variant_ iteration_
                            refresh state_id).2 !! i = Some saved
                      /\ variant_states saved = variant_states rebuilt)).
Proof.
  assert (forall store' : Store,
            (forall i, variant_states <$> store' !! i = variant_states <$> store !! i
                       \/ exists saved rebuilt state,
                            store' !! i = Some saved
                            /\ _reset_variant_states max_variants_count es
                                 company_id state = Ok rebuilt
                            /\ variant_states saved = variant_states rebuilt) ->
            store_sorted store') as Hstays.
  { intros store' Hsame i state' Hi.
    destruct (Hsame i) as [Heq|(saved & rebuilt & state & Hs & Hr & Hvs)].
    - rewrite Hi in Heq. cbn [fmap option_fmap option_map] in Heq.
      destruct (store !! i) as [state|] eqn:Hold; [|discriminate].
      injection Heq as ->. apply (Hsorted i state Hold).
    - rewrite Hi in Hs. injection Hs as ->. rewrite Hvs.
      apply (proj1 (_reset_variant_states_sorted _ _ _ _ _ Hr)). }
  split; [|split; [|split; [|split]]].
  - intros task_ metric_ variants l.
    apply _get_variant_iterations_sorted.
  - intros state state' H.
    pose proof (proj1 (_reset_variant_states_sorted _ _ _ _ _ H)) as Hs.
    apply _reset_variant_states_Ok in H as (l & Hl & ->).
    exists l. split; [exact Hl|]. split; [reflexivity|].
    split; [apply variant_state_names | exact Hs].
  - intros image res state. rewrite _fill_res_and_update_state_state. reflexivity.
  - intros task_ state_id navigate_earlier.
    destruct (get_next_debug_image_store es store company_id task_ state_id
                navigate_earlier) as [->|(state & image & Hstate & ->)].
    { split; [exact Hsorted|]. split; [exact Hkeyed|]. reflexivity. }
    assert (forall i,
              variant_states <$>
                set_state (set_iteration (Some (Event.iter image))
                             (set_variant (Some (Event.variant image)) state))
                  store !! i
              = variant_states <$> store !! i) as Hsame.
    { intros i. apply (set_state_variant_states state); [|reflexivity..].
      rewrite (Hkeyed state_id state Hstate). exact Hstate. }
    split; [|split; [apply set_state_keyed, Hkeyed | exact Hsame]].
    apply Hstays. intros i. left. apply Hsame.
  - intros task_ metric_ variant_ iteration_ refresh state_id.
    destruct (get_debug_image_for_variant_store es store company_id task_ metric_
                variant_ iteration_ refresh state_id)
      as [->|(prepared & res & saved & Hprep & Hbody & ->)].
    { split; [exact Hsorted|]. split; [exact Hkeyed|]. left. reflexivity. }
    cbn [fst snd].
    destruct (with_state_Ok _ _ _ _ _ _ _ _ _ Hbody) as (Hres & Hid & _ & _ & Hvs).
    assert (forall i,
              variant_states <$> set_state saved store !! i
              = variant_states <$> store !! i
              \/ ((refresh = true
                   \/ (state_id ≫= (fun j => get_state j store)) = None)
                  /\ exists res0 state rebuilt saved0,
                       Ok res = Ok res0
                       /\ DebugSampleHistoryResult.scroll_id res0 = Some i
                       /\ task state = Some task_ /\ metric state = Some metric_
                       /\ _reset_variant_states max_variants_count es company_id
                            state = Ok rebuilt
                       /\ set_state saved store !! i = Some saved0
                       /\ variant_states saved0 = variant_states rebuilt))
      as Hsame.
    { intros i.
      assert (forall state,
                task state = Some task_ -> metric state = Some metric_ ->
                _reset_variant_states max_variants_count es company_id state
                = Ok prepared ->
                (refresh = true
                 \/ (state_id ≫= (fun j => get_state j store)) = None) ->
                variant_states <$> set_state saved store !! i
                = variant_states <$> store !! i
                \/ ((refresh = true
                     \/ (state_id ≫= (fun j => get_state j store)) = None)
                    /\ exists res0 state rebuilt saved0,
                         Ok res = Ok res0
                         /\ DebugSampleHistoryResult.scroll_id res0 = Some i
                         /\ task state = Some task_ /\ metric state = Some metric_
                         /\ _reset_variant_states max_variants_count es company_id
                              state = Ok rebuilt
                         /\ set_state saved store !! i = Some saved0
                         /\ variant_states saved0 = variant_states rebuilt))
        as Hrebuilt.
      { intros state Ht Hm Hr Hwhy. unfold set_state.
        destruct (decide (id saved = i)) as [<-|Hne].
        - right. split; [exact Hwhy|].
          exists res, state, prepared, saved. split; [reflexivity|].
          split; [rewrite Hres, Hid; reflexivity|].
          split; [exact Ht|]. split; [exact Hm|]. split; [exact Hr|].
          split; [apply lookup_insert_eq | exact Hvs].
        - left. rewrite lookup_insert_ne by exact Hne. reflexivity. }
      destruct (state_id ≫= (fun j => get_state j store)) as [cached|] eqn:Hload.
      - apply validate_state_Ok in Hprep as (Ht & Hm & Hprep).
        destruct refresh.
        + apply (Hrebuilt cached Ht Hm Hprep). left. reflexivity.
        + subst prepared. left.
          apply (set_state_variant_states cached); [|exact Hid | exact Hvs].
          destruct state_id as [j|]; [|discriminate].
          cbn [mbind option_bind] in Hload.
          rewrite (Hkeyed j cached Hload). exact Hload.
      - unfold init_state in Hprep.
        eapply Hrebuilt; [| |exact Hprep|]; [reflexivity..|].
        right. reflexivity. }
    split; [|split; [apply set_state_keyed, Hkeyed | exact Hsame]].
    apply Hstays. intros i.
    destruct (Hsame i)
      as [Heq|(_ & _ & state & rebuilt & saved0 & _ & _ & _ & _ & Hr & Hs & Hv)].
    + left. exact Heq.
    + right. exists saved0, rebuilt, state. split; [exact Hs|].
      split; [exact Hr | exact Hv].
Qed.

End Invariant.

(** ** Calling [get_debug_image_for_variant] twice *)

Section Twice.
Variable max_variants_count : nat.
Variable new_id : option string -> Store -> string.

Lemma validate_state_pass (es : Elasticsearch) (company_id task_ metric_ : string)
    (refresh : bool) (state : State) :
  task state = Some task_ -> metric state = Some metric_ ->
  validate_state max_variants_count es company_id task_ metric_ refresh state
  = if refresh then _reset_variant_states max_variants_count es company_id state
    else Ok state.
Proof.
  intros Ht Hm. unfold validate_state.
  rewrite bool_decide_false; [reflexivity|]. intros [H|H]; contradiction.
Qed.

(** What [validate_state] lets through keeps the id, the task and the
    metric of the cached state. *)
Lemma validate_state_fields (es : Elasticsearch) (company_id task_ metric_ : string)
    (refresh : bool) (state prepared : State) :
  validate_state max_variants_count es company_id task_ metric_ refresh state
  = Ok prepared ->
  id prepared = id state
  /\ task prepared = Some task_ /\ metric prepared = Some metric_
  /\ task state = Some task_ /\ metric state = Some metric_.
Proof.
  intros H. apply validate_state_Ok in H as (Ht & Hm & H).
  destruct refresh.
  - apply _reset_variant_states_sorted in H as (_ & vs & ->). auto.
  - subst prepared. auto.
Qed.

Lemma get_or_create_state_existing {A : Type}
    (init validate : State -> Result State) (body : State -> Result (A * State))
    (store : Store) (i : string) (state : State) :
  store !! i = Some state ->
  get_or_create_state new_id (Some i) init validate body store
  = match bind (validate state) body with
    | Ok (a, state') => (Ok a, set_state state' store)
    | Raise e => (Raise e, store)
    end.
Proof.
  intros Hstate. unfold get_or_create_state. cbn [mbind option_bind].
  unfold get_state. rewrite Hstate. reflexivity.
Qed.

(** Running the callbacks and the body again on the state that a first
    run saved gives the result of the first run. *)
Lemma validate_state_again (es : Elasticsearch)
    (company_id task_ metric_ variant_ : string) (iteration_ : option Z)
    (refresh : bool) (state prepared saved : State) (res : Res) :
  validate_state max_variants_count es company_id task_ metric_ refresh state
  = Ok prepared ->
  with_state es company_id task_ metric_ variant_ iteration_ prepared
  = Ok (res, saved) ->
  exists saved',
    bind (validate_state max_variants_count es company_id task_ metric_ refresh saved)
      (with_state es company_id task_ metric_ variant_ iteration_)
    = Ok (res, saved').
Proof.
  intros Hval Hbody.
  destruct (validate_state_fields _ _ _ _ _ _ _ Hval)
    as (Hid & Htp & Hmp & Hts & Hms).
  destruct (with_state_spec es company_id task_ metric_ variant_ iteration_ prepared)
    as (res0 & saved0 & Hbody0 & Hother & Hsid & Hst & Hsm & Hsvs & _).
  rewrite Hbody in Hbody0. injection Hbody0 as -> <-.
  rewrite validate_state_pass by congruence.
  assert (exists prepared',
            (if refresh
             then _reset_variant_states max_variants_count es company_id saved
             else Ok saved) = Ok prepared'
            /\ id prepared' = id prepared
            /\ variant_states prepared' = variant_states prepared)
    as (prepared' & -> & Hid' & Hvs').
  { destruct refresh.
    - apply validate_state_Ok in Hval as (_ & _ & Hreset).
      eexists. split.
      + apply (_reset_variant_states_congr _ _ _ state saved prepared);
          [congruence | congruence | exact Hreset].
      + split; [exact Hsid | reflexivity].
    - exists saved. split; [reflexivity|]. split; assumption. }
  simpl. destruct (Hother prepared' Hvs') as (saved' & ->).
  rewrite Hid'. exists saved'. reflexivity.
Qed.

(** C8, as amended. With a cursor id that addresses a cached state, a
    second call of [get_debug_image_for_variant] with the same arguments,
    on the cache that the first call left and the same index, returns what
    the first call returned. With no cursor id and an index that is not
    empty, both calls return a result, with the same event and bounds,
    under two different cursor ids, each call having minted its own. *)
Theorem jump_twice (es : Elasticsearch) (store : Store)
    (company_id task_ metric_ variant_ : string) (iteration_ : option Z)
    (refresh : bool)
    (Hfresh : forall held : Store, held !! new_id None held = None) :
  (forall i, is_Some (store !! i) ->
     (get_debug_image_for_variant max_variants_count new_id es
        (get_debug_image_for_variant max_variants_count new_id es store
           company_id task_ metric_ variant_ iteration_ refresh (Some i)).2
        company_id task_ metric_ variant_ iteration_ refresh (Some i)).1
     = (get_debug_image_for_variant max_variants_count new_id es store
          company_id task_ metric_ variant_ iteration_ refresh (Some i)).1)
  /\ (check_empty_data es company_id = false ->
      exists res1 res2,
        (get_debug_image_for_variant max_variants_count new_id es store
           company_id task_ metric_ variant_ iteration_ refresh None).1 = Ok res1
        /\ (get_debug_image_for_variant max_variants_count new_id es
              (get_debug_image_for_variant max_variants_count new_id es store
                 company_id task_ metric_ variant_ iteration_ refresh None).2
              company_id task_ metric_ variant_ iteration_ refresh None).1 = Ok res2
        /\ DebugSampleHistoryResult.scroll_id res1
           <> DebugSampleHistoryResult.scroll_id res2
        /\ DebugSampleHistoryResult.event res1 = DebugSampleHistoryResult.event res2
        /\ DebugSampleHistoryResult.min_iteration res1
           = DebugSampleHistoryResult.min_iteration res2
        /\ DebugSampleHistoryResult.max_iteration res1
           = DebugSampleHistoryResult.max_iteration res2).
Proof.
  split.
  - intros i [state Hstate].
    unfold get_debug_image_for_variant.
    destruct (check_empty_data es company_id); [reflexivity|].
    rewrite (get_or_create_state_existing _ _ _ store i state Hstate).
    destruct (validate_state _ _ _ _ _ _ state) as [prepared|e] eqn:Hval.
    + cbn [bind].
      destruct (with_state _ _ _ _ _ _ prepared) as [[res saved]|e] eqn:Hbody.
      * cbn [fst snd].
        destruct (set_state saved store !! i) as [state2|] eqn:Hstate2.
        -- rewrite (get_or_create_state_existing _ _ _ _ i state2 Hstate2).
           apply set_state_lookup in Hstate2 as [->|Hstate2].
           ++ destruct (validate_state_again _ _ _ _ _ _ _ _ _ _ _ Hval Hbody)
                as (saved' & ->).
              reflexivity.
           ++ rewrite Hstate in Hstate2. injection Hstate2 as <-.
              rewrite Hval. cbn [bind]. rewrite Hbody. reflexivity.
        -- exfalso. unfold set_state in Hstate2.
           destruct (decide (id saved = i)) as [<-|Hne].
           ++ rewrite lookup_insert_eq in Hstate2. discriminate.
           ++ rewrite lookup_insert_ne in Hstate2 by exact Hne. congruence.
      * cbn [fst snd].
        rewrite (get_or_create_state_existing _ _ _ store i state Hstate).
        rewrite Hval. cbn [bind]. rewrite Hbody. reflexivity.
    + cbn [bind fst snd].
      rewrite (get_or_create_state_existing _ _ _ store i state Hstate).
      rewrite Hval. reflexivity.
  - intros Hdata. unfold get_debug_image_for_variant. rewrite Hdata.
    unfold get_or_create_state. cbn [mbind option_bind].
    set (id1 := new_id None store).
    set (blank := fun i =>
           set_metric (Some metric_)
             (set_task (Some task_) (DebugSampleHistoryState.new i))).
    assert (forall i, init_state max_variants_count es company_id task_ metric_
                        (DebugSampleHistoryState.new i)
                      = _reset_variant_states max_variants_count es company_id
                          (blank i)) as Hinit by reflexivity.
    rewrite !Hinit.
    destruct (_reset_variant_states_total max_variants_count es company_id (blank id1))
      as (prepared & Hprep); [eexists; reflexivity..|].
    rewrite Hprep. cbn [bind].
    destruct (with_state_spec es company_id task_ metric_ variant_ iteration_ prepared)
      as (res & saved & Hbody & Hother & Hsid & _).
    rewrite Hbody. cbn [fst snd].
    pose proof Hprep as Hprep1.
    apply _reset_variant_states_sorted in Hprep1 as (_ & vs & Hprepared).
    assert (id prepared = id1) as Hid1 by (rewrite Hprepared; reflexivity).
    set (id2 := new_id None (set_state saved store)).
    rewrite (_reset_variant_states_congr max_variants_count es company_id
               (blank id1) (blank id2) prepared eq_refl eq_refl Hprep).
    cbn [bind].
    destruct (Hother (set_variant_states (variant_states prepared) (blank id2))
                eq_refl) as (saved2 & ->).
    cbn [fst]. eexists _, _. split; [reflexivity|]. split; [reflexivity|].
    split; [|repeat split].
    cbn [DebugSampleHistoryResult.scroll_id DebugSampleHistoryResult.set_scroll_id
         id set_variant_states blank set_metric set_task DebugSampleHistoryState.new].
    rewrite Hid1. intros [= Heq].
    pose proof (Hfresh (set_state saved store)) as Hnone. fold id2 in Hnone.
    rewrite <- Heq in Hnone. unfold set_state in Hnone.
    rewrite Hsid, Hid1, lookup_insert_eq in Hnone. discriminate.
Qed.

End Twice.

Lemma mint_cursor_fresh (held : Store) : held !! mint_cursor None held = None.
Proof. apply fresh_string_fresh. Qed.

Lemma jump_twice_witness :
  (get_debug_image_for_variant 100 mint_cursor demo_es
     (get_debug_image_for_variant 100 mint_cursor demo_es {["cursor" := demo_state]}
        "c" "T" "M" "b" None true (Some "cursor")).2
     "c" "T" "M" "b" None true (Some "cursor")).1
  = (get_debug_image_for_variant 100 mint_cursor demo_es {["cursor" := demo_state]}
       "c" "T" "M" "b" None true (Some "cursor")).1.
Proof.
  apply (jump_twice 100 mint_cursor demo_es {["cursor" := demo_state]}
           "c" "T" "M" "b" None true).
  - apply mint_cursor_fresh.
  - exists demo_state. apply lookup_singleton_eq.
Defined.

(** C8, as the claim states it, fails: without a cursor id, two calls in a
    row with the same arguments over the same index return two different
    cursor ids. *)
Lemma jump_twice_mints_two_cursors :
  (get_debug_image_for_variant 100 mint_cursor demo_es ∅
     "c" "T" "M" "a" None false None).1
  = Ok (DebugSampleHistoryResult.mk (Some "cursor")
          (Some (Event.mk "T" "M" "a" 1 (Some "a1"))) (Some 0) (Some 1))
  /\ (get_debug_image_for_variant 100 mint_cursor demo_es
        (get_debug_image_for_variant 100 mint_cursor demo_es ∅
           "c" "T" "M" "a" None false None).2
        "c" "T" "M" "a" None false None).1
     = Ok (DebugSampleHistoryResult.mk (Some "cursor0")
             (Some (Event.mk "T" "M" "a" 1 (Some "a1"))) (Some 0) (Some 1)).
Proof. split; vm_compute; reflexivity. Qed.

Lemma demo_store_sorted : store_sorted {["cursor" := demo_state]}.
Proof.
  intros i state H. apply lookup_singleton_Some in H as [_ <-].
  unfold sorted_by_name. simpl.
  repeat constructor.
Qed.

Lemma demo_store_keyed : store_keyed {["cursor" := demo_state]}.
Proof. intros i state H. apply lookup_singleton_Some in H as [<- <-]. reflexivity. Qed.

Lemma variant_states_stay_sorted_witness :
  variant_states <$>
    (get_next_debug_image demo_es {["cursor" := demo_state]} "c" "T" "cursor" true).2
      !! "cursor"
  = Some [VariantState.mk "a" 0 1; VariantState.mk "b" 0 0]
  /\ store_sorted
       (get_debug_image_for_variant 100 mint_cursor demo_es
          {["cursor" := demo_state]} "c" "T" "M" "b" None true None).2.
Proof.
  destruct (variant_states_stay_sorted 100 mint_cursor demo_es
              {["cursor" := demo_state]} "c" demo_store_sorted demo_store_keyed)
    as (_ & _ & _ & Hnext & Hjump).
  split.
  - destruct (Hnext "T" "cursor" true) as (_ & _ & Hsame).
    rewrite Hsame, lookup_singleton_eq. reflexivity.
  - apply (Hjump "T" "M" "b" None true None).
Defined.

(** ** The scenario of the specification *)

(** A jump to variant "a" lands on its latest image, at iteration 1;
    a step backward finds no variant before "a" on iteration 1 and moves
    to the last variant of iteration 0; a further step backward moves to
    "a" on iteration 0; a last one finds nothing and keeps the cursor. *)
Example scenario_jump :
  get_debug_image_for_variant 100 mint_cursor demo_es ∅
    "c" "T" "M" "a" None false None
  = (Ok (DebugSampleHistoryResult.mk (Some "cursor")
           (Some (Event.mk "T" "M" "a" 1 (Some "a1"))) (Some 0) (Some 1)),
     {["cursor" := demo_state]}).
Proof. vm_compute. reflexivity. Qed.

Example scenario_backward :
  (get_next_debug_image demo_es {["cursor" := demo_state]} "c" "T" "cursor" true).1
  = Ok (DebugSampleHistoryResult.mk (Some "cursor")
          (Some (Event.mk "T" "M" "b" 0 (Some "b0"))) (Some 0) (Some 0)).
Proof. vm_compute. reflexivity. Qed.

(** Three variants with an image each on iteration 0: a step forward from
    "a" takes the next name, a step backward from "c" the previous one. *)
Example siblings_forward :
  _get_next_for_current_iteration
    (fun _ => [Event.mk "T" "M" "c" 0 (Some "c0");
               Event.mk "T" "M" "a" 0 (Some "a0");
               Event.mk "T" "M" "b" 0 (Some "b0")])
    "c" false
    (DebugSampleHistoryState.mk "cursor" (Some 0) (Some "a") (Some "T") (Some "M")
       None None
       [VariantState.mk "a" 0 0; VariantState.mk "b" 0 0; VariantState.mk "c" 0 0]
       None)
  = Ok (Some (Event.mk "T" "M" "b" 0 (Some "b0"))).
Proof. vm_compute. reflexivity. Qed.

Example siblings_backward :
  _get_next_for_current_iteration
    (fun _ => [Event.mk "T" "M" "a" 0 (Some "a0");
               Event.mk "T" "M" "c" 0 (Some "c0");
               Event.mk "T" "M" "b" 0 (Some "b0")])
    "c" true
    (DebugSampleHistoryState.mk "cursor" (Some 0) (Some "c") (Some "T") (Some "M")
       None None
       [VariantState.mk "a" 0 0; VariantState.mk "b" 0 0; VariantState.mk "c" 0 0]
       None)
  = Ok (Some (Event.mk "T" "M" "b" 0 (Some "b0"))).
Proof. vm_compute. reflexivity. Qed.

(** The resolver restricted to variant "b" lists "b" alone: the whole
    list of requested variants goes into the request. An empty list of
    requested variants restricts nothing. *)
Example resolver_restricted :
  _get_variant_iterations 100 demo_es "c" (Some "T") (Some "M") (Some ["b"])
  = Ok [("b", 0, 0)].
Proof. vm_compute. reflexivity. Qed.

Example resolver_unrestricted :
  _get_variant_iterations 100 demo_es "c" (Some "T") (Some "M") (Some [])
  = Ok [("a", 0, 1); ("b", 0, 0)].
Proof. vm_compute. reflexivity. Qed.

(** * Further properties *)

(** ** The order of the hits *)

Lemma orders_key {A K : Type} (key : A -> K) (cmp : K -> K -> comparison) :
  (forall x y, cmp y x = CompOpp (cmp x y)) ->
  (forall x y, cmp x y = Eq -> x = y) ->
  (forall x y z, cmp x y = Lt -> cmp y z = Lt -> cmp x z = Lt) ->
  orders (fun a b => cmp (key a) (key b)).
Proof.
  intros Hanti Heq Htrans. split; [|split].
  - intros a b. apply Hanti.
  - intros a b d H. apply Heq in H. rewrite H. reflexivity.
  - intros a b d Hab Hbd.
    destruct (cmp (key b) (key d)) eqn:Hc; [| |contradiction].
    + apply Heq in Hc. rewrite <- Hc. exact Hab.
    + apply (Htrans _ _ _ Hab Hc).
Qed.

Lemma orders_opp {A : Type} (c : A -> A -> comparison) :
  orders c -> orders (fun a b => CompOpp (c a b)).
Proof.
  intros (Hanti & Heq & Hlt). split; [|split].
  - intros a b. rewrite (Hanti a b). reflexivity.
  - intros a b d H. apply (f_equal CompOpp) in H. rewrite CompOpp_involutive in H.
    simpl in H. rewrite (Heq a b d H). reflexivity.
  - intros a b d Hab Hbd.
    assert (c b a = Lt) as Hba.
    { rewrite (Hanti a b). destruct (c a b); simpl in *; congruence. }
    assert (c d a = Lt) as Hda.
    { destruct (c d b) eqn:Hdb.
      - rewrite <- (Heq d b a Hdb). exact Hba.
      - apply (Hlt d b a Hdb). rewrite Hba. discriminate.
      - exfalso. apply Hbd. rewrite (Hanti d b), Hdb. reflexivity. }
    rewrite (Hanti d a), Hda. reflexivity.
Qed.

Lemma orders_lex {A : Type} (c1 c2 : A -> A -> comparison) :
  orders c1 -> orders c2 ->
  orders (fun a b => match c1 a b with Eq => c2 a b | r => r end).
Proof.
  intros (Hanti1 & Heq1 & Hlt1) (Hanti2 & Heq2 & Hlt2). split; [|split].
  - intros a b. rewrite (Hanti1 a b), (Hanti2 a b).
    destruct (c1 a b); reflexivity.
  - intros a b d H. destruct (c1 a b) eqn:H1; try discriminate.
    rewrite (Heq1 a b d H1), (Heq2 a b d H). reflexivity.
  - intros a b d Hab Hbd. destruct (c1 a b) eqn:H1; try discriminate.
    + rewrite (Heq1 a b d H1) in Hbd. rewrite <- (Heq1 a b d H1).
      rewrite (Heq1 a b d H1).
      destruct (c1 a d); [|reflexivity|contradiction].
      apply (Hlt2 a b d Hab Hbd).
    + assert (c1 b d <> Gt) as H1bd.
      { destruct (c1 b d); [discriminate | discriminate | exact Hbd]. }
      rewrite (Hlt1 a b d H1 H1bd). reflexivity.
Qed.

Lemma string_compare_lt_trans (x y z : string) :
  String.compare x y = Lt -> String.compare y z = Lt -> String.compare x z = Lt.
Proof.
  intros Hxy Hyz.
  assert (String.le x z) as Hle.
  { transitivity y; unfold String.le, String.leb; [rewrite Hxy | rewrite Hyz];
      exact I. }
  unfold String.le, String.leb in Hle.
  destruct (String.compare x z) eqn:Hxz; [|reflexivity|contradiction].
  apply String.compare_eq_iff in Hxz. subst z.
  rewrite String.compare_antisym, Hxy in Hyz. discriminate.
Qed.

Lemma compare_option_orders {K : Type} (cmp : K -> K -> comparison) :
  (forall x y, cmp y x = CompOpp (cmp x y)) ->
  (forall x y, cmp x y = Eq -> x = y) ->
  (forall x y z, cmp x y = Lt -> cmp y z = Lt -> cmp x z = Lt) ->
  (forall x y, compare_option cmp y x = CompOpp (compare_option cmp x y))
  /\ (forall x y, compare_option cmp x y = Eq -> x = y)
  /\ (forall x y z, compare_option cmp x y = Lt -> compare_option cmp y z = Lt ->
        compare_option cmp x z = Lt).
Proof.
  intros Hanti Heq Htrans. split; [|split].
  - intros [x|] [y|]; simpl; auto.
  - intros [x|] [y|]; simpl; try discriminate; [|reflexivity].
    intros H. f_equal. apply Heq, H.
  - intros [x|] [y|] [z|]; simpl; try discriminate; try reflexivity.
    apply Htrans.
Qed.

Lemma compare_field_orders (f : Field) : orders (compare_field f).
Proof.
  assert (forall x y, String.compare y x = CompOpp (String.compare x y)) as Hanti.
  { intros x y. apply String.compare_antisym. }
  destruct f; simpl.
  - apply (orders_key Event.task String.compare Hanti
             String.compare_eq_iff string_compare_lt_trans).
  - apply (orders_key Event.metric String.compare Hanti
             String.compare_eq_iff string_compare_lt_trans).
  - apply (orders_key Event.variant String.compare Hanti
             String.compare_eq_iff string_compare_lt_trans).
  - apply (orders_key Event.iter Z.compare).
    + intros x y. apply Z.compare_antisym.
    + intros x y. apply Z.compare_eq.
    + intros x y z. rewrite !Z.compare_lt_iff. lia.
  - destruct (compare_option_orders String.compare Hanti
                String.compare_eq_iff string_compare_lt_trans) as (H1 & H2 & H3).
    apply (orders_key Event.url (compare_option String.compare) H1 H2 H3).
Qed.

Lemma compare_docs_orders (sort : list (Field * Order)) : orders (compare_docs sort).
Proof.
  induction sort as [|[f o] sort IH].
  - split; [|split]; simpl; intros; congruence.
  - change (compare_docs ((f, o) :: sort))
      with (fun d1 d2 => match directed o (compare_field f d1 d2) with
                         | Eq => compare_docs sort d1 d2
                         | r => r
                         end).
    apply (orders_lex (fun d1 d2 => directed o (compare_field f d1 d2))); [|exact IH].
    destruct o; simpl.
    + apply compare_field_orders.
    + apply orders_opp, compare_field_orders.
Qed.

Lemma docs_leb_total (sort : list (Field * Order)) :
  Total (fun d1 d2 => Is_true (docs_leb sort d1 d2)).
Proof.
  destruct (compare_docs_orders sort) as (Hanti & _ & _).
  intros d1 d2. unfold docs_leb. rewrite (Hanti d1 d2).
  destruct (compare_docs sort d1 d2); simpl; auto.
Qed.

Lemma docs_leb_trans (sort : list (Field * Order)) :
  Transitive (fun d1 d2 => Is_true (docs_leb sort d1 d2)).
Proof.
  destruct (compare_docs_orders sort) as (_ & Heq & Hlt).
  intros d1 d2 d3. unfold docs_leb.
  destruct (compare_docs sort d1 d2) eqn:H12; [| |contradiction].
  - rewrite (Heq d1 d2 d3 H12). auto.
  - intros _ H23. rewrite (Hlt d1 d2 d3 H12); [exact I|].
    destruct (compare_docs sort d2 d3); [discriminate | discriminate | contradiction].
Qed.

(** The first hit of a request for one hit comes, in the requested order,
    before every document of the index that matches. *)
Lemma search_company_events_first (es : Elasticsearch) (company_id : string)
    (sort : list (Field * Order)) (query : Query) (hits : list Event.t)
    (hit d : Event.t) :
  search_company_events es company_id (SearchRequest.mk 1 sort query) = Ok hits ->
  first_hit hits = Some hit ->
  d ∈ es company_id ->
  matches query d ->
  docs_leb sort hit d.
Proof.
  unfold search_company_events. cbn [SearchRequest.query SearchRequest.size
    SearchRequest.sort].
  destruct (well_formed query); [|discriminate].
  intros [= <-] Hfirst Hd Hm.
  destruct (merge_sort _ _) as [|first sorted] eqn:Hsort; [discriminate|].
  simpl in Hfirst. injection Hfirst as ->.
  apply (@merge_sort_first _ _ _ (docs_leb_trans sort) (docs_leb_total sort))
    in Hsort as [_ Hleast].
  apply Hleast, list_elem_of_filter. split; assumption.
Qed.

(** ** What the two searches select *)

Lemma current_iteration_variants_spec (navigate_earlier : bool) (state : State)
    (a : string) (i : Z) :
  variant state = Some a ->
  iteration state = Some i ->
  current_iteration_variants navigate_earlier state
  = Ok (filter (fun v => beyond navigate_earlier a (VariantState.name v)
                         /\ VariantState.min_iteration v <= i)
          (variant_states state)).
Proof.
  intros Ha Hi. unfold current_iteration_variants. rewrite Ha, Hi.
  induction (variant_states state) as [|v vs IH]; [reflexivity|].
  cbn [filter_raise]. rewrite IH, filter_cons.
  case_decide as Hd;
    destruct navigate_earlier; simpl in *;
    destruct (String.ltb _ _);
    destruct (Z.leb_spec (VariantState.min_iteration v) i);
    simpl in *; solve [reflexivity | tauto | lia].
Qed.

Lemma well_formed_another_iteration_request (navigate_earlier : bool)
    (state : State) (variants : list VariantState.t) :
  is_Some (task state) -> is_Some (metric state) ->
  well_formed (SearchRequest.query
                 (another_iteration_request navigate_earlier state variants))
  = true.
Proof.
  intros [t Ht] [m Hm]. unfold another_iteration_request.
  rewrite Ht, Hm. cbn [SearchRequest.query well_formed forallb fmap option_fmap
    option_map bool_decide]. 
  assert (forallb well_formed
            ((fun v =>
                QBool
                  [QTerm FVariant (Some (VStr (VariantState.name v)));
                   QRange FIter
                     (Bounds.mk None (Some (VariantState.min_iteration v)) None None)]
                  []) <$> variants) = true) as Hall.
  { induction variants as [|v vs IH]; [reflexivity|].
    rewrite fmap_cons. cbn [forallb]. rewrite IH. reflexivity. }
  simpl. simpl in Hall. rewrite Hall. destruct navigate_earlier; reflexivity.
Qed.

Lemma docs_leb_variant (navigate_earlier : bool) (h d : Event.t) :
  docs_leb [(FVariant, if navigate_earlier then desc else asc)] h d ->
  name_before navigate_earlier h d.
Proof.
  unfold docs_leb, name_before, String.le, String.leb. simpl.
  destruct navigate_earlier; simpl.
  - rewrite (String.compare_antisym (Event.variant h) (Event.variant d)).
    destruct (String.compare (Event.variant d) (Event.variant h)); simpl; auto.
  - destruct (String.compare (Event.variant h) (Event.variant d)); simpl; auto.
Qed.

Lemma docs_leb_iter_variant (navigate_earlier : bool) (h d : Event.t) :
  docs_leb [(FIter, if navigate_earlier then desc else asc);
            (FVariant, if navigate_earlier then desc else asc)] h d ->
  step_before navigate_earlier h d.
Proof.
  unfold docs_leb, step_before, String.le, String.leb. simpl.
  destruct navigate_earlier; simpl.
  - rewrite (String.compare_antisym (Event.variant h) (Event.variant d)).
    destruct (Z.compare_spec (Event.iter h) (Event.iter d)) as [Heq|Hlt|Hgt]; simpl.
    + intros H. right. split; [congruence|].
      destruct (String.compare (Event.variant d) (Event.variant h)); simpl in *; auto.
    + contradiction.
    + intros _. left. lia.
  - destruct (Z.compare_spec (Event.iter h) (Event.iter d)) as [Heq|Hlt|Hgt]; simpl.
    + intros H. right. split; [congruence|].
      destruct (String.compare (Event.variant h) (Event.variant d)); simpl in *; auto.
    + intros _. left. lia.
    + contradiction.
Qed.

(** A well formed request for one hit is answered; the first hit, when
    there is one, matches and comes before every matching document; when
    there is none, no document matches. *)
Lemma search_company_events_one (es : Elasticsearch) (company_id : string)
    (sort : list (Field * Order)) (query : Query) :
  well_formed query = true ->
  exists hits,
    search_company_events es company_id (SearchRequest.mk 1 sort query) = Ok hits
    /\ match first_hit hits with
       | Some h =>
           h ∈ es company_id /\ matches query h
           /\ forall d, d ∈ es company_id -> matches query d -> docs_leb sort h d
       | None => forall d, d ∈ es company_id -> ~ matches query d
       end.
Proof.
  intros Hwf.
  destruct (search_company_events es company_id (SearchRequest.mk 1 sort query))
    as [hits|e] eqn:Hsearch.
  - exists hits. split; [reflexivity|].
    destruct (first_hit hits) as [h|] eqn:Hfirst.
    + pose proof (first_hit_elem_of _ _ Hfirst) as Hin.
      destruct (search_company_events_hits _ _ _ _ _ Hsearch Hin) as [Hh Hm].
      split; [exact Hh|]. split; [exact Hm|].
      intros d Hd Hmd.
      apply (search_company_events_first _ _ _ _ _ _ _ Hsearch Hfirst Hd Hmd).
    + intros d Hd Hmd.
      destruct (search_company_events_finds es company_id sort query d Hwf Hd Hmd)
        as (hit & hits' & Hfound).
      rewrite Hfound in Hsearch. injection Hsearch as <-. discriminate.
  - unfold search_company_events in Hsearch. cbn [SearchRequest.query] in Hsearch.
    rewrite Hwf in Hsearch. discriminate.
Qed.

Lemma sibling_image_matches (navigate_earlier : bool) (state : State)
    (a : string) (i : Z) (d : Event.t) :
  iteration state = Some i ->
  matches (SearchRequest.query
             (current_iteration_request navigate_earlier state
                (filter (fun v => beyond navigate_earlier a (VariantState.name v)
                                  /\ VariantState.min_iteration v <= i)
                   (variant_states state)))) d
  <-> sibling_image navigate_earlier state a i d.
Proof.
  intros Hi. rewrite matches_current_iteration_request, Hi.
  unfold sibling_image. split.
  - intros (Ht & Hm & (v & Hv & Hname) & [= Hiter] & Hu).
    apply list_elem_of_filter in Hv as [[Hb Hmin] Hv].
    repeat split; try assumption.
    exists v. rewrite <- Hname. repeat split; try assumption.
    apply Is_true_true, Hb.
  - intros (Ht & Hm & Hiter & Hu & v & Hv & Hname & Hmin & Hb).
    repeat split; try assumption; [|congruence].
    exists v. split; [|exact Hname].
    apply list_elem_of_filter. split; [|exact Hv].
    split; [|exact Hmin]. rewrite Hname. apply Is_true_true, Hb.
Qed.

Lemma _get_next_for_current_iteration_spec (es : Elasticsearch)
    (company_id : string) (navigate_earlier : bool) (state : State)
    (a : string) (i : Z)
    (Ha : variant state = Some a) (Hi : iteration state = Some i)
    (Ht : is_Some (task state)) (Hm : is_Some (metric state)) :
  match _get_next_for_current_iteration es company_id navigate_earlier state with
  | Ok (Some h) =>
      h ∈ es company_id
      /\ sibling_image navigate_earlier state a i h
      /\ forall d, d ∈ es company_id ->
           sibling_image navigate_earlier state a i d ->
           name_before navigate_earlier h d
  | Ok None =>
      forall d, d ∈ es company_id -> ~ sibling_image navigate_earlier state a i d
  | Raise _ => False
  end.
Proof.
  unfold _get_next_for_current_iteration.
  rewrite (current_iteration_variants_spec navigate_earlier state a i Ha Hi).
  cbn [bind].
  destruct (filter _ (variant_states state)) as [|v0 variants] eqn:Hcands.
  - intros d _ (_ & _ & _ & _ & v & Hv & Hname & Hmin & Hb).
    assert (v ∈ filter (fun v => beyond navigate_earlier a (VariantState.name v)
                                 /\ VariantState.min_iteration v <= i)
                  (variant_states state)) as Hin.
    { apply list_elem_of_filter. split; [|exact Hv].
      split; [|exact Hmin]. rewrite Hname. apply Is_true_true, Hb. }
    rewrite Hcands in Hin. apply elem_of_nil in Hin. exact Hin.
  - rewrite <- Hcands.
    assert (is_Some (iteration state)) as Hsi by (rewrite Hi; eexists; reflexivity).
    pose proof (well_formed_current_iteration_request navigate_earlier state
                  (filter (fun v => beyond navigate_earlier a (VariantState.name v)
                                    /\ VariantState.min_iteration v <= i)
                     (variant_states state)) Ht Hm Hsi) as Hwf.
    destruct (search_company_events_one es company_id
                [(FVariant, if navigate_earlier then desc else asc)] _ Hwf)
      as (hits & Hsearch & Hspec).
    change (current_iteration_request navigate_earlier state ?vs)
      with (SearchRequest.mk 1 [(FVariant, if navigate_earlier then desc else asc)]
              (SearchRequest.query
                 (current_iteration_request navigate_earlier state vs))).
    rewrite Hsearch. cbn [bind].
    destruct (first_hit hits) as [h|].
    + destruct Hspec as (Hh & Hmh & Hleast).
      split; [exact Hh|]. split.
      * apply (sibling_image_matches navigate_earlier state a i h Hi), Hmh.
      * intros d Hd Hsib. apply docs_leb_variant, Hleast; [exact Hd|].
        apply (sibling_image_matches navigate_earlier state a i d Hi), Hsib.
    + intros d Hd Hsib. apply (Hspec d Hd).
      apply (sibling_image_matches navigate_earlier state a i d Hi), Hsib.
Qed.

(** X1. On a state that has a variant, an iteration, a task and a metric,
    an image that the search on the current iteration returns is an image
    of the index on the iteration of the state, of a variant beyond the
    current one whose valid range holds the iteration, and among such
    images it is the one whose variant name comes first in the direction
    of the navigation; when the search returns without an image, the
    index holds no such image. *)
Theorem current_iteration_selects_nearest_sibling (es : Elasticsearch)
    (company_id : string) (navigate_earlier : bool) (state : State)
    (a : string) (i : Z) (image : option Event.t)
    (Ha : variant state = Some a) (Hi : iteration state = Some i)
    (Ht : is_Some (task state)) (Hm : is_Some (metric state))
    (Hreturn : _get_next_for_current_iteration es company_id navigate_earlier state
               = Ok image) :
  match image with
  | Some h =>
      h ∈ es company_id
      /\ sibling_image navigate_earlier state a i h
      /\ forall d, d ∈ es company_id ->
           sibling_image navigate_earlier state a i d ->
           name_before navigate_earlier h d
  | None =>
      forall d, d ∈ es company_id -> ~ sibling_image navigate_earlier state a i d
  end.
Proof.
  pose proof (_get_next_for_current_iteration_spec es company_id navigate_earlier
                state a i Ha Hi Ht Hm) as H.
  rewrite Hreturn in H. exact H.
Qed.

Lemma another_image_matches (navigate_earlier : bool) (state : State)
    (i : Z) (variants : list VariantState.t) (d : Event.t) :
  iteration state = Some i ->
  another_iteration_variants navigate_earlier state = Ok variants ->
  variants <> [] ->
  matches (SearchRequest.query
             (another_iteration_request navigate_earlier state variants)) d
  <-> another_image navigate_earlier state i d.
Proof.
  intros Hi Hv Hne. rewrite (matches_another_iteration_request _ _ _ _ Hne), Hi.
  unfold another_image.
  assert (forall v, (if navigate_earlier then Event.iter d < i else i < Event.iter d) ->
            VariantState.min_iteration v <= Event.iter d ->
            v ∈ variants <-> v ∈ variant_states state) as Hcands.
  { intros v Hdir Hmin. destruct navigate_earlier.
    - rewrite (another_iteration_variants_backward state i Hi) in Hv.
      injection Hv as <-. rewrite list_elem_of_filter.
      split; [tauto|]. intros H. split; [lia | exact H].
    - injection Hv as <-. reflexivity. }
  split.
  - intros (Ht & Hm & Hu & (v & Hin & Hname & Hmin) & Hdir).
    repeat split; try assumption.
    exists v. split; [apply (Hcands v Hdir Hmin), Hin | auto].
  - intros (Ht & Hm & Hu & Hdir & v & Hin & Hname & Hmin).
    repeat split; try assumption.
    exists v. split; [apply (Hcands v Hdir Hmin), Hin | auto].
Qed.

Lemma another_iteration_request_shape (navigate_earlier : bool) (state : State)
    (variants : list VariantState.t) :
  another_iteration_request navigate_earlier state variants
  = SearchRequest.mk 1
      [(FIter, if navigate_earlier then desc else asc);
       (FVariant, if navigate_earlier then desc else asc)]
      (SearchRequest.query
         (another_iteration_request navigate_earlier state variants)).
Proof. reflexivity. Qed.

Lemma _get_next_for_another_iteration_spec (es : Elasticsearch)
    (company_id : string) (navigate_earlier : bool) (state : State) (i : Z)
    (Hi : iteration state = Some i)
    (Ht : is_Some (task state)) (Hm : is_Some (metric state)) :
  match _get_next_for_another_iteration es company_id navigate_earlier state with
  | Ok (Some h) =>
      h ∈ es company_id
      /\ another_image navigate_earlier state i h
      /\ forall d, d ∈ es company_id ->
           another_image navigate_earlier state i d ->
           step_before navigate_earlier h d
  | Ok None =>
      forall d, d ∈ es company_id -> ~ another_image navigate_earlier state i d
  | Raise _ => False
  end.
Proof.
  unfold _get_next_for_another_iteration.
  assert (exists variants,
            another_iteration_variants navigate_earlier state = Ok variants)
    as (variants & Hv).
  { destruct navigate_earlier.
    - rewrite (another_iteration_variants_backward state i Hi). eexists. reflexivity.
    - eexists. reflexivity. }
  rewrite Hv. cbn [bind].
  destruct variants as [|v0 variants].
  - intros d _ (_ & _ & _ & Hdir & v & Hin & _ & Hmin).
    destruct navigate_earlier.
    + rewrite (another_iteration_variants_backward state i Hi) in Hv.
      injection Hv as Hv.
      assert (v ∈ filter (fun v => VariantState.min_iteration v < i)
                    (variant_states state)) as Hf.
      { apply list_elem_of_filter. split; [lia | exact Hin]. }
      rewrite Hv in Hf. apply elem_of_nil in Hf. exact Hf.
    + injection Hv as Hv. rewrite Hv in Hin. apply elem_of_nil in Hin. exact Hin.
  - assert (v0 :: variants <> []) as Hne by discriminate.
    pose proof (well_formed_another_iteration_request navigate_earlier state
                  (v0 :: variants) Ht Hm) as Hwf.
    rewrite another_iteration_request_shape.
    destruct (search_company_events_one es company_id
                [(FIter, if navigate_earlier then desc else asc);
                 (FVariant, if navigate_earlier then desc else asc)] _ Hwf)
      as (hits & -> & Hspec).
    cbn [bind].
    destruct (first_hit hits) as [h|].
    + destruct Hspec as (Hh & Hmh & Hleast).
      split; [exact Hh|]. split.
      * apply (another_image_matches _ _ _ _ _ Hi Hv Hne), Hmh.
      * intros d Hd Himg. apply docs_leb_iter_variant, Hleast; [exact Hd|].
        apply (another_image_matches _ _ _ _ _ Hi Hv Hne), Himg.
    + intros d Hd Himg. apply (Hspec d Hd).
      apply (another_image_matches _ _ _ _ _ Hi Hv Hne), Himg.
Qed.

(** X2. On a state that has an iteration, a task and a metric, an image
    that the search on another iteration returns is an image of the index
    on an iteration after that of the state (before, when navigating
    earlier), of a variant of the state and within its valid range, and
    among such images it is the one on the nearest iteration and, there,
    of the first variant name in the direction of the navigation; when
    the search returns without an image, the index holds no such image. *)
Theorem another_iteration_selects_nearest_step (es : Elasticsearch)
    (company_id : string) (navigate_earlier : bool) (state : State) (i : Z)
    (image : option Event.t)
    (Hi : iteration state = Some i)
    (Ht : is_Some (task state)) (Hm : is_Some (metric state))
    (Hreturn : _get_next_for_another_iteration es company_id navigate_earlier state
               = Ok image) :
  match image with
  | Some h =>
      h ∈ es company_id
      /\ another_image navigate_earlier state i h
      /\ forall d, d ∈ es company_id ->
           another_image navigate_earlier state i d ->
           step_before navigate_earlier h d
  | None =>
      forall d, d ∈ es company_id -> ~ another_image navigate_earlier state i d
  end.
Proof.
  pose proof (_get_next_for_another_iteration_spec es company_id navigate_earlier
                state i Hi Ht Hm) as H.
  rewrite Hreturn in H. exact H.
Qed.

(** ** What [get_next_debug_image] returns and saves *)

Lemma first_named_Some (name : string) (variant_states : list VariantState.t)
    (v : VariantState.t) :
  v ∈ variant_states -> VariantState.name v = name ->
  exists v', first_named (Some name) variant_states = Some v'
             /\ v' ∈ variant_states /\ VariantState.name v' = name.
Proof.
  intros Hv Hname. unfold first_named.
  destruct (List.find _ _) as [v'|] eqn:Hfind.
  - apply find_some in Hfind as [Hin Hn].
    apply bool_decide_eq_true in Hn. injection Hn as Hn.
    exists v'. split; [reflexivity|]. split; [apply list_elem_of_In, Hin | exact Hn].
  - exfalso. apply list_elem_of_In in Hv.
    pose proof (find_none _ _ Hfind v Hv) as Hn. simpl in Hn.
    apply bool_decide_eq_false in Hn. apply Hn. congruence.
Qed.

(** The result and the state that [_fill_res_and_update_state] leaves for
    an image whose variant is among the variant states. *)
Lemma _fill_res_and_update_state_known (image : Event.t) (res : Res) (state : State)
    (v : VariantState.t) :
  v ∈ variant_states state -> VariantState.name v = Event.variant image ->
  exists v',
    v' ∈ variant_states state /\ VariantState.name v' = Event.variant image
    /\ _fill_res_and_update_state image res state
       = (DebugSampleHistoryResult.mk (DebugSampleHistoryResult.scroll_id res)
            (Some image) (Some (VariantState.min_iteration v'))
            (Some (VariantState.max_iteration v')),
          set_iteration (Some (Event.iter image))
            (set_variant (Some (Event.variant image)) state)).
Proof.
  intros Hv Hname.
  destruct (first_named_Some _ _ _ Hv Hname) as (v' & Hfirst & Hin & Hn).
  exists v'. split; [exact Hin|]. split; [exact Hn|].
  unfold _fill_res_and_update_state.
  cbn [variant variant_states set_iteration set_variant]. rewrite Hfirst.
  reflexivity.
Qed.

Lemma next_image_variant (es : Elasticsearch) (company_id : string)
    (navigate_earlier : bool) (state : State) (a : string) (i : Z) (h : Event.t) :
  next_image es company_id navigate_earlier state a i h ->
  exists v, v ∈ variant_states state /\ VariantState.name v = Event.variant h.
Proof.
  intros (_ & [((_ & _ & _ & _ & v & Hv & Hn & _) & _)
              |(_ & (_ & _ & _ & _ & v & Hv & Hn & _) & _)]);
    exists v; split; assumption.
Qed.

Lemma get_next_debug_image_spec (es : Elasticsearch) (store : Store)
    (company_id task_ state_id : string) (navigate_earlier : bool)
    (state : State) (a : string) (i : Z) :
  get_state state_id store = Some state ->
  task state = Some task_ ->
  variant state = Some a ->
  iteration state = Some i ->
  is_Some (metric state) ->
  (exists h v,
     next_image es company_id navigate_earlier state a i h
     /\ v ∈ variant_states state /\ VariantState.name v = Event.variant h
     /\ get_next_debug_image es store company_id task_ state_id navigate_earlier
        = (Ok (DebugSampleHistoryResult.mk (Some state_id) (Some h)
                 (Some (VariantState.min_iteration v))
                 (Some (VariantState.max_iteration v))),
           set_state (set_iteration (Some (Event.iter h))
                        (set_variant (Some (Event.variant h)) state)) store))
  \/ ((forall d, d ∈ es company_id ->
         ~ sibling_image navigate_earlier state a i d
         /\ ~ another_image navigate_earlier state i d)
      /\ get_next_debug_image es store company_id task_ state_id navigate_earlier
         = (Ok (DebugSampleHistoryResult.mk (Some state_id) None None None),
            store)).
Proof.
  intros Hstate Htask Ha Hi Hm.
  assert (is_Some (task state)) as Ht by (rewrite Htask; eexists; reflexivity).
  unfold get_next_debug_image. rewrite Hstate.
  rewrite bool_decide_false; [|intros Hneq; apply Hneq, Htask].
  unfold check_empty_data. destruct (es company_id) as [|d0 docs] eqn:Hdocs.
  { right. split; [|reflexivity]. intros d Hd. apply elem_of_nil in Hd. contradiction. }
  rewrite <- Hdocs.
  pose proof (_get_next_for_current_iteration_spec es company_id
                navigate_earlier state a i Ha Hi Ht Hm) as Hcur.
  pose proof (_get_next_for_another_iteration_spec es company_id
                navigate_earlier state i Hi Ht Hm) as Hoth.
  assert (forall h, next_image es company_id navigate_earlier state a i h ->
            exists v,
              v ∈ variant_states state /\ VariantState.name v = Event.variant h
              /\ (let '(res, state') :=
                    _fill_res_and_update_state h
                      (DebugSampleHistoryResult.mk (Some state_id) None None None)
                      state in
                  (Ok res, set_state state' store))
                 = (Ok (DebugSampleHistoryResult.mk (Some state_id) (Some h)
                          (Some (VariantState.min_iteration v))
                          (Some (VariantState.max_iteration v))),
                    set_state (set_iteration (Some (Event.iter h))
                                 (set_variant (Some (Event.variant h)) state))
                      store)) as Hfill.
  { intros h Hnext. destruct (next_image_variant _ _ _ _ _ _ _ Hnext) as (v & Hv & Hn).
    destruct (_fill_res_and_update_state_known h
                (DebugSampleHistoryResult.mk (Some state_id) None None None)
                state v Hv Hn) as (v' & Hv' & Hn' & ->).
    exists v'. split; [exact Hv'|]. split; [exact Hn' | reflexivity]. }
  destruct (_get_next_for_current_iteration es company_id navigate_earlier state)
    as [[h|]|e]; [| |contradiction]; cbn [bind].
  - left. destruct Hcur as (Hh & Hsib & Hleast).
    assert (next_image es company_id navigate_earlier state a i h) as Hnext.
    { split; [exact Hh|]. left. split; assumption. }
    destruct (Hfill h Hnext) as (v & Hv & Hn & Heq).
    exists h, v. split; [exact Hnext|]. split; [exact Hv|].
    split; [exact Hn | exact Heq].
  - destruct (_get_next_for_another_iteration es company_id navigate_earlier state)
      as [[h|]|e]; [| |contradiction].
    + left. destruct Hoth as (Hh & Himg & Hleast).
      assert (next_image es company_id navigate_earlier state a i h) as Hnext.
      { split; [exact Hh|]. right. split; [exact Hcur|].
        split; [exact Himg | exact Hleast]. }
      destruct (Hfill h Hnext) as (v & Hv & Hn & Heq).
      exists h, v. split; [exact Hnext|]. split; [exact Hv|].
      split; [exact Hn | exact Heq].
    + right. split; [|reflexivity]. intros d Hd. split; [apply Hcur | apply Hoth];
        exact Hd.
Qed.

Lemma first_named_unique (variant_states : list VariantState.t) (v : VariantState.t) :
  NoDup (VariantState.name <$> variant_states) ->
  v ∈ variant_states ->
  first_named (Some (VariantState.name v)) variant_states = Some v.
Proof.
  unfold first_named. induction variant_states as [|w vs IH]; intros Hnd Hv.
  - apply elem_of_nil in Hv. contradiction.
  - rewrite fmap_cons in Hnd. apply NoDup_cons in Hnd as [Hw Hnd].
    cbn [List.find]. apply elem_of_cons in Hv as [->|Hv].
    + rewrite bool_decide_true; reflexivity.
    + rewrite bool_decide_false; [apply IH; assumption|].
      intros [= Heq]. apply Hw. rewrite Heq.
      apply list_elem_of_fmap. exists v. split; [reflexivity | exact Hv].
Qed.

(** X3. On a cached state of the task that has a variant, an iteration
    and a metric, a result that [get_next_debug_image] returns carries
    the cursor id that was passed in. The event of the result is the
    nearest sibling on the iteration of the state or, when the iteration
    holds no sibling, the nearest image of another iteration; when the
    result has no event, the index holds neither. *)
Theorem advance_selects_next_image (es : Elasticsearch) (store : Store)
    (company_id task_ state_id : string) (navigate_earlier : bool)
    (state : State) (a : string) (i : Z) (res : Res)
    (Hstate : get_state state_id store = Some state)
    (Htask : task state = Some task_)
    (Ha : variant state = Some a) (Hi : iteration state = Some i)
    (Hm : is_Some (metric state))
    (Hres : (get_next_debug_image es store company_id task_ state_id
               navigate_earlier).1 = Ok res) :
  DebugSampleHistoryResult.scroll_id res = Some state_id
  /\ match DebugSampleHistoryResult.event res with
     | Some h => next_image es company_id navigate_earlier state a i h
     | None =>
         forall d, d ∈ es company_id ->
           ~ sibling_image navigate_earlier state a i d
           /\ ~ another_image navigate_earlier state i d
     end.
Proof.
  destruct (get_next_debug_image_spec es store company_id task_ state_id
              navigate_earlier state a i Hstate Htask Ha Hi Hm)
    as [(h & v & Hnext & _ & _ & Heq)|(Hnone & Heq)];
    rewrite Heq in Hres; cbn [fst] in Hres; injection Hres as <-.
  - split; [reflexivity | exact Hnext].
  - split; [reflexivity | exact Hnone].
Qed.

(** X4. When [get_next_debug_image] returns an event, it has saved the
    state with the variant and the iteration of the event and nothing else
    changed, under the id of the state, and has left every other entry of
    the cache as it was; the bounds of the result are those of a variant
    state that carries the name of the event's variant, and with distinct
    names in the variant states the iteration of the event is at or above
    the [min_iteration] returned. *)
Theorem advance_moves_cursor (es : Elasticsearch) (store : Store)
    (company_id task_ state_id : string) (navigate_earlier : bool)
    (state : State) (a : string) (i : Z) (res : Res) (h : Event.t)
    (Hstate : get_state state_id store = Some state)
    (Htask : task state = Some task_)
    (Ha : variant state = Some a) (Hi : iteration state = Some i)
    (Hm : is_Some (metric state))
    (Hres : (get_next_debug_image es store company_id task_ state_id
               navigate_earlier).1 = Ok res)
    (Hevent : DebugSampleHistoryResult.event res = Some h) :
  (get_next_debug_image es store company_id task_ state_id navigate_earlier).2
  = <[id state := set_iteration (Some (Event.iter h))
                    (set_variant (Some (Event.variant h)) state)]> store
  /\ (forall j, j <> id state ->
        (get_next_debug_image es store company_id task_ state_id
           navigate_earlier).2 !! j = store !! j)
  /\ (exists v,
        v ∈ variant_states state
        /\ VariantState.name v = Event.variant h
        /\ DebugSampleHistoryResult.min_iteration res
           = Some (VariantState.min_iteration v)
        /\ DebugSampleHistoryResult.max_iteration res
           = Some (VariantState.max_iteration v)
        /\ (NoDup (VariantState.name <$> variant_states state) ->
            VariantState.min_iteration v <= Event.iter h)).
Proof.
  destruct (get_next_debug_image_spec es store company_id task_ state_id
              navigate_earlier state a i Hstate Htask Ha Hi Hm)
    as [(h' & v & Hnext & Hv & Hn & Heq)|(_ & Heq)];
    rewrite Heq in Hres |- *; cbn [fst snd] in *;
    injection Hres as <-; cbn [DebugSampleHistoryResult.event] in Hevent;
    [|discriminate].
  injection Hevent as ->.
  split; [reflexivity|]. split.
  - intros j Hj. unfold set_state. cbn [id set_iteration set_variant].
    apply lookup_insert_ne. congruence.
  - exists v. split; [exact Hv|]. split; [exact Hn|].
    split; [reflexivity|]. split; [reflexivity|].
    intros Hnd.
    assert (exists w, w ∈ variant_states state
                      /\ VariantState.name w = Event.variant h
                      /\ VariantState.min_iteration w <= Event.iter h)
      as (w & Hw & Hwn & Hwmin).
    { destruct Hnext as (_ & [((_ & _ & Hiter & _ & w & Hw & Hwn & Hwmin & _) & _)
                             |(_ & (_ & _ & _ & _ & w & Hw & Hwn & Hwmin) & _)]).
      - exists w. repeat split; try assumption. lia.
      - exists w. repeat split; assumption. }
    assert (w = v) as ->; [|exact Hwmin].
    pose proof (first_named_unique _ _ Hnd Hw) as H1.
    pose proof (first_named_unique _ _ Hnd Hv) as H2.
    rewrite Hwn, <- Hn, H2 in H1. congruence.
Qed.

Lemma get_next_debug_image_unselected (es : Elasticsearch) (store : Store)
    (company_id task_ state_id : string) (navigate_earlier : bool) (state : State)
    (Hstate : get_state state_id store = Some state)
    (Htask : task state = Some task_)
    (Hdata : check_empty_data es company_id = false)
    (Hnone : variant state = None)
    (Hvariants : variant_states state <> []) :
  get_next_debug_image es store company_id task_ state_id navigate_earlier
  = (Raise TypeError, store).
Proof.
  unfold get_next_debug_image. rewrite Hstate, Hdata.
  rewrite bool_decide_false; [|intros Hneq; apply Hneq, Htask].
  unfold _get_next_for_current_iteration, current_iteration_variants.
  rewrite Hnone. destruct (variant_states state) as [|v vs]; [congruence|].
  destruct navigate_earlier; reflexivity.
Qed.

(** X5. On a cached state of the task that has no variant selected and
    lists at least one variant, over an index that is not empty,
    [get_next_debug_image] raises [TypeError], in either direction, and
    leaves the cache as it was. *)
Theorem advance_without_selection_raises (es : Elasticsearch) (store : Store)
    (company_id task_ state_id : string) (navigate_earlier : bool) (state : State)
    (Hstate : get_state state_id store = Some state)
    (Htask : task state = Some task_)
    (Hdata : check_empty_data es company_id = false)
    (Hnone : variant state = None)
    (Hvariants : variant_states state <> []) :
  get_next_debug_image es store company_id task_ state_id navigate_earlier
  = (Raise TypeError, store).
Proof.
  eapply get_next_debug_image_unselected; eassumption.
Qed.

(** ** What [get_debug_image_for_variant] returns and saves *)

Lemma in_bounds_gte_lte (lo hi z : Z) :
  in_bounds (Bounds.mk None (Some lo) None (Some hi)) z <-> lo <= z <= hi.
Proof.
  unfold in_bounds. simpl. rewrite ?andb_true_r, andb_True, !Is_true_true.
  rewrite Z.leb_le, Z.leb_le. reflexivity.
Qed.

Lemma matches_variant_request (task_ metric_ variant_ : string)
    (iteration_ : option Z) (var_state : VariantState.t) (d : Event.t) :
  matches (SearchRequest.query
             (variant_request task_ metric_ variant_ iteration_ var_state)) d
  <-> variant_image task_ metric_ variant_ iteration_
        (VariantState.min_iteration var_state) d.
Proof.
  unfold variant_request, variant_image. cbn [SearchRequest.query app].
  rewrite matches_must, !Forall_cons, Forall_nil.
  rewrite (matches_term_task (Some task_)), (matches_term_metric (Some metric_)),
    matches_term_variant, matches_exists_url.
  destruct iteration_ as [i|]; rewrite matches_range_iter.
  - rewrite in_bounds_gte_lte. split.
    + intros ([= ?] & [= ?] & ? & ? & ? & _). repeat split; try assumption; lia.
    + intros (-> & -> & ? & ? & ? & ?). repeat split; try assumption; lia.
  - rewrite in_bounds_gte. split.
    + intros ([= ?] & [= ?] & ? & ? & ? & _). repeat split; assumption.
    + intros (-> & -> & ? & ? & ? & ?). repeat split; assumption.
Qed.

Lemma docs_leb_iter_desc (h d : Event.t) :
  docs_leb [(FIter, desc)] h d -> Event.iter d <= Event.iter h.
Proof.
  unfold docs_leb. simpl.
  destruct (Z.compare_spec (Event.iter h) (Event.iter d)); simpl;
    [lia | contradiction | lia].
Qed.

Lemma variant_request_shape (task_ metric_ variant_ : string)
    (iteration_ : option Z) (var_state : VariantState.t) :
  variant_request task_ metric_ variant_ iteration_ var_state
  = SearchRequest.mk 1 [(FIter, desc)]
      (SearchRequest.query
         (variant_request task_ metric_ variant_ iteration_ var_state)).
Proof. reflexivity. Qed.

Lemma with_state_selects (es : Elasticsearch)
    (company_id task_ metric_ variant_ : string) (iteration_ : option Z)
    (state : State) :
  match first_named (Some variant_) (variant_states state) with
  | None =>
      with_state es company_id task_ metric_ variant_ iteration_ state
      = Ok (DebugSampleHistoryResult.mk (Some (id state)) None None None, state)
  | Some v =>
      (exists h,
         h ∈ es company_id
         /\ variant_image task_ metric_ variant_ iteration_
              (VariantState.min_iteration v) h
         /\ (forall d, d ∈ es company_id ->
               variant_image task_ metric_ variant_ iteration_
                 (VariantState.min_iteration v) d ->
               Event.iter d <= Event.iter h)
         /\ with_state es company_id task_ metric_ variant_ iteration_ state
            = Ok (DebugSampleHistoryResult.mk (Some (id state)) (Some h)
                    (Some (VariantState.min_iteration v))
                    (Some (VariantState.max_iteration v)),
                  set_iteration (Some (Event.iter h))
                    (set_variant (Some variant_) state)))
      \/ ((forall d, d ∈ es company_id ->
             ~ variant_image task_ metric_ variant_ iteration_
                 (VariantState.min_iteration v) d)
          /\ with_state es company_id task_ metric_ variant_ iteration_ state
             = Ok (DebugSampleHistoryResult.mk (Some (id state)) None
                     (Some (VariantState.min_iteration v))
                     (Some (VariantState.max_iteration v)),
                   state))
  end.
Proof.
  unfold with_state.
  destruct (first_named (Some variant_) (variant_states state)) as [v|] eqn:Hv;
    [|reflexivity].
  rewrite variant_request_shape.
  destruct (search_company_events_one es company_id [(FIter, desc)] _
              (well_formed_variant_request task_ metric_ variant_ iteration_ v))
    as (hits & -> & Hspec).
  cbn [bind]. destruct hits as [|h hits]; cbn [first_hit] in Hspec.
  - right. split; [|reflexivity].
    intros d Hd Himg. apply (Hspec d Hd), matches_variant_request, Himg.
  - left. destruct Hspec as (Hh & Hm & Hleast).
    apply matches_variant_request in Hm.
    exists h. split; [exact Hh|]. split; [exact Hm|]. split.
    + intros d Hd Himg. apply docs_leb_iter_desc, Hleast; [exact Hd|].
      apply matches_variant_request, Himg.
    + destruct Hm as (_ & _ & Hvar & _).
      unfold _fill_res_and_update_state.
      cbn [variant variant_states set_iteration set_variant].
      rewrite Hvar, Hv. reflexivity.
Qed.

(** X6. A result that the body of the [with] block of
    [get_debug_image_for_variant] returns carries the id of the state.
    When no variant state carries the requested name the result holds the
    cursor id alone and the state is left as it is. Otherwise the result
    holds the bounds of the first variant state of that name and, as the
    event, the image of the variant with the largest iteration within
    [min_iteration] and the requested iteration, and the variant and the
    iteration of the state are set from it; when the result has no event,
    the index holds no such image and the state is left as it is. *)
Theorem jump_selects_latest (es : Elasticsearch)
    (company_id task_ metric_ variant_ : string) (iteration_ : option Z)
    (state : State) (res : Res) (state' : State)
    (Hreturn : with_state es company_id task_ metric_ variant_ iteration_ state
               = Ok (res, state')) :
  DebugSampleHistoryResult.scroll_id res = Some (id state)
  /\ match first_named (Some variant_) (variant_states state) with
     | None =>
         DebugSampleHistoryResult.event res = None
         /\ DebugSampleHistoryResult.min_iteration res = None
         /\ DebugSampleHistoryResult.max_iteration res = None
         /\ state' = state
     | Some v =>
         DebugSampleHistoryResult.min_iteration res
         = Some (VariantState.min_iteration v)
         /\ DebugSampleHistoryResult.max_iteration res
            = Some (VariantState.max_iteration v)
         /\ match DebugSampleHistoryResult.event res with
            | Some h =>
                h ∈ es company_id
                /\ variant_image task_ metric_ variant_ iteration_
                     (VariantState.min_iteration v) h
                /\ (forall d, d ∈ es company_id ->
                      variant_image task_ metric_ variant_ iteration_
                        (VariantState.min_iteration v) d ->
                      Event.iter d <= Event.iter h)
                /\ state' = set_iteration (Some (Event.iter h))
                              (set_variant (Some variant_) state)
            | None =>
                (forall d, d ∈ es company_id ->
                   ~ variant_image task_ metric_ variant_ iteration_
                       (VariantState.min_iteration v) d)
                /\ state' = state
            end
     end.
Proof.
  pose proof (with_state_selects es company_id task_ metric_ variant_ iteration_
                state) as H.
  destruct (first_named (Some variant_) (variant_states state)) as [v|].
  - destruct H as [(h & Hh & Himg & Hlatest & Heq)|(Hnone & Heq)];
      rewrite Heq in Hreturn; injection Hreturn as <- <-.
    + split; [reflexivity|]. split; [reflexivity|]. split; [reflexivity|].
      cbn [DebugSampleHistoryResult.event]. split; [exact Hh|].
      split; [exact Himg|]. split; [exact Hlatest | reflexivity].
    + split; [reflexivity|]. split; [reflexivity|]. split; [reflexivity|].
      cbn [DebugSampleHistoryResult.event]. split; [exact Hnone | reflexivity].
  - rewrite H in Hreturn. injection Hreturn as <- <-. repeat split.
Qed.

Section Jump.
Variable max_variants_count : nat.
Variable new_id : option string -> Store -> string.

Lemma get_debug_image_for_variant_cases (es : Elasticsearch) (store : Store)
    (company_id task_ metric_ variant_ : string) (iteration_ : option Z)
    (refresh : bool) (state_id : option string) :
  check_empty_data es company_id = false ->
  (exists i cached,
     state_id = Some i /\ get_state i store = Some cached
     /\ (task cached <> Some task_ \/ metric cached <> Some metric_)
     /\ get_debug_image_for_variant max_variants_count new_id es store
          company_id task_ metric_ variant_ iteration_ refresh state_id
        = (Raise InvalidScrollId, store))
  \/ (exists prepared res saved,
        prepares max_variants_count new_id es store company_id task_ metric_
          refresh state_id prepared
        /\ with_state es company_id task_ metric_ variant_ iteration_ prepared
           = Ok (res, saved)
        /\ get_debug_image_for_variant max_variants_count new_id es store
             company_id task_ metric_ variant_ iteration_ refresh state_id
           = (Ok res, set_state saved store)).
Proof.
  intros Hdata. unfold get_debug_image_for_variant, get_or_create_state.
  rewrite Hdata.
  assert (forall prepared,
            exists res saved,
              with_state es company_id task_ metric_ variant_ iteration_ prepared
              = Ok (res, saved)) as Hbody.
  { intros prepared.
    destruct (with_state_spec es company_id task_ metric_ variant_ iteration_
                prepared) as (res & saved & H & _).
    eexists _, _. exact H. }
  destruct (state_id ≫= (fun i => get_state i store)) as [cached|] eqn:Hload.
  - destruct state_id as [i|]; [|discriminate]. cbn [mbind option_bind] in Hload.
    unfold validate_state.
    destruct (bool_decide_reflect
                (task cached <> Some task_ \/ metric cached <> Some metric_))
      as [Hbad|Hok].
    + left. exists i, cached. repeat split; try assumption.
    + right.
      assert (task cached = Some task_ /\ metric cached = Some metric_) as [Ht Hm].
      { split.
        - destruct (decide (task cached = Some task_)); tauto.
        - destruct (decide (metric cached = Some metric_)); tauto. }
      destruct refresh.
      * destruct (_reset_variant_states_total max_variants_count es company_id
                    cached) as (prepared & Hprep);
          [rewrite Ht; done | rewrite Hm; done|].
        rewrite Hprep. cbn [bind].
        destruct (Hbody prepared) as (res & saved & Hw). rewrite Hw.
        exists prepared, res, saved. split; [|split; reflexivity || exact Hw].
        left. exists i, cached. repeat split; assumption.
      * cbn [bind].
        destruct (Hbody cached) as (res & saved & Hw). rewrite Hw.
        exists cached, res, saved. split; [|split; reflexivity || exact Hw].
        left. exists i, cached. repeat split; assumption.
  - right. unfold init_state.
    destruct (_reset_variant_states_total max_variants_count es company_id
                (set_metric (Some metric_)
                   (set_task (Some task_)
                      (DebugSampleHistoryState.new (new_id state_id store)))))
      as (prepared & Hprep); [eexists; reflexivity..|].
    rewrite Hprep. cbn [bind].
    destruct (Hbody prepared) as (res & saved & Hw). rewrite Hw.
    exists prepared, res, saved. split; [|split; reflexivity || exact Hw].
    right. split; [exact Hload | exact Hprep].
Qed.

Lemma prepares_fields (es : Elasticsearch) (store : Store)
    (company_id task_ metric_ : string) (refresh : bool)
    (state_id : option string) (prepared : State) :
  prepares max_variants_count new_id es store company_id task_ metric_
    refresh state_id prepared ->
  task prepared = Some task_ /\ metric prepared = Some metric_
  /\ id prepared = match state_id ≫= (fun i => get_state i store) with
                   | Some cached => id cached
                   | None => new_id state_id store
                   end.
Proof.
  intros [(i & cached & -> & Hc & Ht & Hm & Hp)|(Hload & Hp)].
  - cbn [mbind option_bind]. rewrite Hc. destruct refresh.
    + apply _reset_variant_states_sorted in Hp as (_ & vs & ->). auto.
    + subst prepared. auto.
  - rewrite Hload.
    apply _reset_variant_states_sorted in Hp as (_ & vs & ->). auto.
Qed.

(** X7. [get_debug_image_for_variant] raises [InvalidScrollId] exactly
    when the index is not empty and the cache holds, for the cursor id
    passed in, a state whose task or metric is not the one passed in; the
    cache is then left as it was. *)
Theorem jump_invalid_scroll_id_iff_mismatch (es : Elasticsearch) (store : Store)
    (company_id task_ metric_ variant_ : string) (iteration_ : option Z)
    (refresh : bool) (state_id : option string) :
  ((get_debug_image_for_variant max_variants_count new_id es store
      company_id task_ metric_ variant_ iteration_ refresh state_id).1
   = Raise InvalidScrollId
   <-> check_empty_data es company_id = false
       /\ exists i cached,
            state_id = Some i /\ get_state i store = Some cached
            /\ (task cached <> Some task_ \/ metric cached <> Some metric_))
  /\ ((get_debug_image_for_variant max_variants_count new_id es store
         company_id task_ metric_ variant_ iteration_ refresh state_id).1
      = Raise InvalidScrollId ->
      (get_debug_image_for_variant max_variants_count new_id es store
         company_id task_ metric_ variant_ iteration_ refresh state_id).2
      = store).
Proof.
  destruct (check_empty_data es company_id) eqn:Hdata.
  - unfold get_debug_image_for_variant. rewrite Hdata. split.
    + split; [discriminate|]. intros [? _]. discriminate.
    + discriminate.
  - destruct (get_debug_image_for_variant_cases es store company_id task_ metric_
                variant_ iteration_ refresh state_id Hdata)
      as [(i & cached & Hid & Hc & Hbad & ->)|(prepared & res & saved & Hp & _ & ->)].
    + split.
      * split; [|reflexivity]. intros _. split; [reflexivity|].
        exists i, cached. auto.
      * reflexivity.
    + split.
      * split; [discriminate|].
        intros (_ & i & cached & Hid & Hc & Hbad). exfalso.
        destruct Hp as [(i' & cached' & Hid' & Hc' & Ht & Hm & _)|(Hload & _)].
        -- rewrite Hid in Hid'. injection Hid' as <-.
           rewrite Hc in Hc'. injection Hc' as <-. tauto.
        -- rewrite Hid in Hload. cbn [mbind option_bind] in Hload. congruence.
      * discriminate.
Qed.

(** X8. Let the id that the cache gives to a state that it constructs be
    an id that it does not hold. When [get_debug_image_for_variant] returns
    a result over an index that is not empty, the cursor id of the result
    is the id of the cached state that it loaded or, when it loaded none,
    an id that the cache did not hold; the cache holds under that id the
    state that the body of the [with] block left, which is of the task
    and metric passed in; every other entry of the cache is as it was,
    and when no state was loaded every entry of the cache is kept. *)
Theorem jump_saves_under_returned_cursor (es : Elasticsearch) (store : Store)
    (company_id task_ metric_ variant_ : string) (iteration_ : option Z)
    (refresh : bool) (state_id : option string) (res : Res)
    (Hnew : (state_id ≫= (fun i => get_state i store)) = None ->
            store !! new_id state_id store = None)
    (Hdata : check_empty_data es company_id = false)
    (Hres : (get_debug_image_for_variant max_variants_count new_id es store
               company_id task_ metric_ variant_ iteration_ refresh state_id).1
            = Ok res) :
  exists prepared saved,
    prepares max_variants_count new_id es store company_id task_ metric_
      refresh state_id prepared
    /\ with_state es company_id task_ metric_ variant_ iteration_ prepared
       = Ok (res, saved)
    /\ DebugSampleHistoryResult.scroll_id res = Some (id prepared)
    /\ match state_id ≫= (fun i => get_state i store) with
       | Some cached => id prepared = id cached
       | None =>
           id prepared = new_id state_id store
           /\ store !! id prepared = None
           /\ forall j state,
                store !! j = Some state ->
                (get_debug_image_for_variant max_variants_count new_id es store
                   company_id task_ metric_ variant_ iteration_ refresh
                   state_id).2 !! j = Some state
       end
    /\ (get_debug_image_for_variant max_variants_count new_id es store
          company_id task_ metric_ variant_ iteration_ refresh state_id).2
       = <[id prepared := saved]> store
    /\ (forall j, j <> id prepared ->
          (get_debug_image_for_variant max_variants_count new_id es store
             company_id task_ metric_ variant_ iteration_ refresh state_id).2 !! j
          = store !! j)
    /\ id saved = id prepared
    /\ task saved = Some task_ /\ metric saved = Some metric_
    /\ variant_states saved = variant_states prepared.
Proof.
  destruct (get_debug_image_for_variant_cases es store company_id task_ metric_
              variant_ iteration_ refresh state_id Hdata)
    as [(i & cached & _ & _ & _ & Heq)|(prepared & res' & saved & Hp & Hw & Heq)];
    rewrite Heq in Hres |- *; [discriminate|].
  injection Hres as ->.
  destruct (prepares_fields _ _ _ _ _ _ _ _ Hp) as (Ht & Hm & Hid).
  destruct (with_state_Ok _ _ _ _ _ _ _ _ _ Hw) as (Hs & Hsid & Hst & Hsm & Hvs).
  assert ((set_state saved store : Store) = <[id prepared := saved]> store) as Hstore.
  { unfold set_state. rewrite Hsid. reflexivity. }
  exists prepared, saved. split; [exact Hp|]. split; [exact Hw|].
  split; [exact Hs|]. cbn [snd]. rewrite Hstore. split.
  - destruct (state_id ≫= (fun i => get_state i store)) as [cached|];
      [exact Hid|].
    specialize (Hnew eq_refl).
    split; [exact Hid|]. rewrite Hid. split; [exact Hnew|].
    intros j state Hj. rewrite lookup_insert_ne; [exact Hj|].
    intros <-. rewrite Hnew in Hj. discriminate.
  - split; [reflexivity|]. split.
    + intros j Hj. apply lookup_insert_ne. congruence.
    + repeat split; congruence.
Qed.

End Jump.

(** ** What the resolver lists *)

Section ResolverLists.
Variable max_variants_count : nat.

Lemma variants_agg_keys_NoDup (docs : list Event.t) :
  NoDup (VariantBucket.key <$> variants_agg max_variants_count docs).
Proof.
  unfold variants_agg. rewrite fmap_take.
  eapply sublist_NoDup; [|apply sublist_take].
  rewrite merge_sort_Permutation, <- list_fmap_compose.
  change (NoDup ((terms_buckets (fun d => Some (Event.variant d)) docs).*1)).
  rewrite terms_buckets_keys. apply NoDup_remove_dups.
Qed.

Lemma variants_agg_length (docs : list Event.t) :
  (length (variants_agg max_variants_count docs) <= max_variants_count)%nat.
Proof. unfold variants_agg. rewrite length_take. lia. Qed.

(** A variant of the documents is listed unless the cap is reached by
    variants of smaller names. *)
Lemma variants_agg_complete (docs : list Event.t) (d : Event.t) :
  d ∈ docs ->
  Event.variant d ∈ VariantBucket.key <$> variants_agg max_variants_count docs
  \/ (length (variants_agg max_variants_count docs) = max_variants_count
      /\ forall b, b ∈ variants_agg max_variants_count docs ->
           String.le (VariantBucket.key b) (Event.variant d)).
Proof.
  intros Hd. unfold variants_agg.
  set (buckets := (fun b => VariantBucket.mk b.1 (max_agg b.2) (urls_agg b.2))
                    <$> terms_buckets (fun d => Some (Event.variant d)) docs).
  set (sorted := merge_sort key_le buckets).
  assert (exists b, b ∈ sorted /\ VariantBucket.key b = Event.variant d)
    as (b & Hb & Hkey).
  { eexists (VariantBucket.mk (Event.variant d) _ _). split; [|reflexivity].
    apply elem_of_merge_sort, list_elem_of_fmap.
    exists (Event.variant d,
            filter (fun d' => Some (Event.variant d') = Some (Event.variant d)) docs).
    split; [reflexivity|].
    apply elem_of_terms_buckets. split; [reflexivity|].
    exists d. split; [exact Hd | reflexivity]. }
  rewrite <- (take_drop max_variants_count sorted) in Hb.
  apply elem_of_app in Hb as [Hb|Hb].
  - left. apply list_elem_of_fmap. exists b. split; [congruence | exact Hb].
  - right. split.
    + apply length_take_le.
      destruct (decide (max_variants_count <= length sorted)%nat) as [H|H];
        [exact H|].
      rewrite drop_ge in Hb by lia. apply elem_of_nil in Hb. contradiction.
    + intros b' Hb'. rewrite <- Hkey.
      apply (StronglySorted_app_1_elem_of key_le
               (take max_variants_count sorted) (drop max_variants_count sorted));
        [|exact Hb'|exact Hb].
      rewrite take_drop. apply StronglySorted_merge_sort; apply _.
Qed.

(** The names that the resolver lists. *)
Lemma _get_variant_iterations_names (es : Elasticsearch)
    (company_id task_ metric_ : string) (variants : option (list string)) :
  exists l,
    _get_variant_iterations max_variants_count es company_id
      (Some task_) (Some metric_) variants = Ok l
    /\ NoDup l.*1.*1
    /\ (length l <= max_variants_count)%nat
    /\ (forall v, v ∈ l.*1.*1 ->
          exists d, d ∈ samples es company_id task_ metric_ variants
                    /\ Event.variant d = v)
    /\ (forall d, d ∈ samples es company_id task_ metric_ variants ->
          Event.variant d ∈ l.*1.*1
          \/ (length l = max_variants_count
              /\ forall v, v ∈ l.*1.*1 -> String.le v (Event.variant d))).
Proof.
  destruct (_get_variant_iterations_spec max_variants_count es company_id
              task_ metric_ variants) as (l & Hl & Hkeys & _).
  exists l. split; [exact Hl|].
  assert (length l
          = length (variants_agg max_variants_count
                      (samples es company_id task_ metric_ variants))) as Hlen.
  { rewrite <- (length_fmap VariantBucket.key), <- Hkeys, !length_fmap.
    reflexivity. }
  rewrite Hkeys, Hlen. split; [apply variants_agg_keys_NoDup|].
  split; [apply variants_agg_length|]. split.
  - intros v Hv. apply list_elem_of_fmap in Hv as (b & -> & Hb).
    apply elem_of_variants_agg in Hb as ((d & Hd) & _).
    apply list_elem_of_filter in Hd as [Hvar Hd]. exists d. auto.
  - intros d Hd.
    destruct (variants_agg_complete _ d Hd) as [H|[H1 H2]]; [left; exact H|].
    right. split; [exact H1|].
    intros v Hv. apply list_elem_of_fmap in Hv as (b & -> & Hb). apply H2, Hb.
Qed.

Lemma _get_variant_iterations_nonempty (es : Elasticsearch)
    (company_id task_ metric_ : string) (l : list (string * Z * Z)) (d : Event.t) :
  (0 < max_variants_count)%nat ->
  d ∈ samples es company_id task_ metric_ None ->
  _get_variant_iterations max_variants_count es company_id
    (Some task_) (Some metric_) None = Ok l ->
  l <> [].
Proof.
  intros Hcap Hd Hl.
  destruct (_get_variant_iterations_names es company_id task_ metric_ None)
    as (l' & Hl' & _ & _ & _ & Hcomplete).
  rewrite Hl in Hl'. injection Hl' as <-.
  destruct (Hcomplete d Hd) as [Hin|[Hlen _]]; intros ->.
  - apply elem_of_nil in Hin. exact Hin.
  - simpl in Hlen. lia.
Qed.

(** X9. The names in an answer of the resolver are pairwise distinct and
    at most [max_variants_count]; each is the variant of an image that
    the task reported for the metric (a variant among the requested ones,
    when a list of variants that is not empty is passed in); and a
    variant with such an image is left out only when the answer is full
    and holds names that all come before it. *)
Theorem resolver_lists_variants_up_to_cap (es : Elasticsearch)
    (company_id task_ metric_ : string) (variants : option (list string))
    (l : list (string * Z * Z))
    (Hanswer : _get_variant_iterations max_variants_count es company_id
                 (Some task_) (Some metric_) variants = Ok l) :
  NoDup l.*1.*1
  /\ (length l <= max_variants_count)%nat
  /\ (forall v, v ∈ l.*1.*1 ->
        exists d, d ∈ es company_id
                  /\ reported task_ metric_ variants d
                  /\ Event.variant d = v)
  /\ (forall d, d ∈ es company_id -> reported task_ metric_ variants d ->
        Event.variant d ∈ l.*1.*1
        \/ (length l = max_variants_count
            /\ forall v, v ∈ l.*1.*1 -> String.le v (Event.variant d))).
Proof.
  destruct (_get_variant_iterations_names es company_id task_ metric_ variants)
    as (l' & Hl & Hnd & Hlen & Hsound & Hcomplete).
  rewrite Hanswer in Hl. injection Hl as <-.
  split; [exact Hnd|]. split; [exact Hlen|]. split.
  - intros v Hv. destruct (Hsound v Hv) as (d & Hd & Hvar).
    apply list_elem_of_filter in Hd as [Hrep Hd]. exists d. auto.
  - intros d Hd Hrep. apply Hcomplete, list_elem_of_filter. auto.
Qed.

(** X10. Over the search backend of the model, which answers every well
    formed request, the resolver returns a list, and in every triple
    [(v, mn, mx)] of the list [mx] is the largest iteration of the images
    that the task reported for the metric under variant [v] (among the
    requested variants, when a list of variants that is not empty is
    passed in). *)
Theorem max_iteration_is_largest (es : Elasticsearch)
    (company_id task_ metric_ : string) (variants : option (list string)) :
  exists l,
    _get_variant_iterations max_variants_count es company_id
      (Some task_) (Some metric_) variants = Ok l
    /\ forall v mn mx, (v, mn, mx) ∈ l ->
         (exists d, d ∈ es company_id /\ reported task_ metric_ variants d
                    /\ Event.variant d = v /\ Event.iter d = mx)
         /\ forall d, d ∈ es company_id -> reported task_ metric_ variants d ->
              Event.variant d = v -> Event.iter d <= mx.
Proof.
  destruct (_get_variant_iterations_spec max_variants_count es company_id
              task_ metric_ variants) as (l & Hl & _ & Hspec).
  exists l. split; [exact Hl|].
  intros v mn mx H. destruct (Hspec v mn mx H) as [_ [(d & Hd & Hiter) Hmax]].
  split.
  - apply list_elem_of_filter in Hd as [Hvar Hd].
    apply list_elem_of_filter in Hd as [Hrep Hd].
    exists d. auto.
  - intros d' Hd' Hrep Hvar. apply Hmax.
    apply list_elem_of_filter. split; [exact Hvar|].
    apply list_elem_of_filter. split; assumption.
Qed.

End ResolverLists.

(** ** The valid ranges of the cached states *)

Section Ranges.
Variable max_variants_count : nat.
Variable new_id : option string -> Store -> string.

Lemma _get_variant_iterations_Ok_inv (es : Elasticsearch) (company_id : string)
    (task_ metric_ : option string) (variants : option (list string))
    (l : list (string * Z * Z)) :
  _get_variant_iterations max_variants_count es company_id task_ metric_ variants
  = Ok l ->
  is_Some task_ /\ is_Some metric_.
Proof.
  unfold _get_variant_iterations, search_company_events_aggs.
  destruct task_, metric_, variants as [[|? ?]|]; try discriminate; intros _;
    split; eexists; reflexivity.
Qed.

Lemma _reset_variant_states_well_ranged (es : Elasticsearch) (company_id : string)
    (state rebuilt : State) :
  _reset_variant_states max_variants_count es company_id state = Ok rebuilt ->
  well_ranged (variant_states rebuilt).
Proof.
  intros H. apply _reset_variant_states_Ok in H as (l & Hl & ->).
  cbn [variant_states set_variant_states].
  destruct (_get_variant_iterations_Ok_inv _ _ _ _ _ _ Hl) as [[t Ht] [m Hm]].
  rewrite Ht, Hm in Hl.
  destruct (_get_variant_iterations_names max_variants_count es company_id t m None)
    as (l1 & Hl1 & Hnd & _).
  destruct (_get_variant_iterations_spec max_variants_count es company_id t m None)
    as (l2 & Hl2 & _ & Hspec).
  rewrite Hl in Hl1, Hl2. injection Hl1 as <-. injection Hl2 as <-.
  split.
  - rewrite variant_state_names. exact Hnd.
  - intros v Hv. apply list_elem_of_fmap in Hv as ([[n mn] mx] & -> & Hin).
    cbn [VariantState.min_iteration VariantState.max_iteration].
    destruct (Hspec n mn mx Hin) as [[(u & (d & Hd & <-) & _) _] [_ Hmax]].
    apply Hmax. unfold with_url in Hd.
    apply list_elem_of_filter in Hd as [_ Hd]. exact Hd.
Qed.

Lemma get_next_debug_image_variant_states (es : Elasticsearch) (store : Store)
    (company_id task_ state_id : string) (navigate_earlier : bool)
    (i : string) (state' : State) :
  (get_next_debug_image es store company_id task_ state_id navigate_earlier).2
    !! i = Some state' ->
  exists j state,
    store !! j = Some state /\ variant_states state' = variant_states state.
Proof.
  unfold get_next_debug_image.
  assert (store !! i = Some state' ->
          exists j state,
            store !! j = Some state
            /\ variant_states state' = variant_states state) as Hkeep.
  { intros H. exists i, state'. split; [exact H | reflexivity]. }
  destruct (get_state state_id store) as [state|] eqn:Hstate; [|exact Hkeep].
  destruct (bool_decide _); [exact Hkeep|].
  destruct (check_empty_data es company_id); [exact Hkeep|].
  destruct (bind _ _) as [[image|]|e]; [|exact Hkeep..].
  destruct (_fill_res_and_update_state image _ state) as [res' st'] eqn:Hfill.
  simpl. intros H. apply set_state_lookup in H as [->|H]; [|apply Hkeep, H].
  exists state_id, state. split; [exact Hstate|].
  change st' with (res', st').2. rewrite <- Hfill.
  rewrite _fill_res_and_update_state_state. reflexivity.
Qed.

Lemma get_debug_image_for_variant_variant_states (es : Elasticsearch)
    (store : Store) (company_id task_ metric_ variant_ : string)
    (iteration_ : option Z) (refresh : bool) (state_id : option string)
    (i : string) (state' : State) :
  (get_debug_image_for_variant max_variants_count new_id es store
     company_id task_ metric_ variant_ iteration_ refresh state_id).2
    !! i = Some state' ->
  (exists j state,
     store !! j = Some state /\ variant_states state' = variant_states state)
  \/ (exists state rebuilt,
        _reset_variant_states max_variants_count es company_id state = Ok rebuilt
        /\ variant_states state' = variant_states rebuilt).
Proof.
  assert (store !! i = Some state' ->
          (exists j state,
             store !! j = Some state /\ variant_states state' = variant_states state)
          \/ (exists state rebuilt,
                _reset_variant_states max_variants_count es company_id state
                = Ok rebuilt
                /\ variant_states state' = variant_states rebuilt)) as Hkeep.
  { intros H. left. exists i, state'. split; [exact H | reflexivity]. }
  destruct (check_empty_data es company_id) eqn:Hdata.
  { unfold get_debug_image_for_variant. rewrite Hdata. exact Hkeep. }
  destruct (get_debug_image_for_variant_cases max_variants_count new_id es store
              company_id task_ metric_ variant_ iteration_ refresh state_id Hdata)
    as [(_ & _ & _ & _ & _ & ->)|(prepared & res & saved & Hp & Hw & ->)];
    [exact Hkeep|].
  cbn [snd]. intros H. apply set_state_lookup in H as [->|H]; [|apply Hkeep, H].
  apply with_state_Ok in Hw as (_ & _ & _ & _ & ->).
  destruct Hp as [(j & cached & _ & Hc & _ & _ & Hp)|(_ & Hp)].
  - destruct refresh.
    + right. exists cached, prepared. split; [exact Hp | reflexivity].
    + subst prepared. left. exists j, cached. split; [exact Hc | reflexivity].
  - right. eexists _, prepared. split; [exact Hp | reflexivity].
Qed.

(** X11. When every cached state names each of its variants once and
    gives it a range with [min_iteration <= max_iteration], so does every
    cached state after [get_next_debug_image] and after
    [get_debug_image_for_variant]. *)
Theorem cached_ranges_stay_well_formed (es : Elasticsearch) (store : Store)
    (company_id task_ : string)
    (Hranged : store_well_ranged store) :
  (forall state_id navigate_earlier,
     store_well_ranged
       (get_next_debug_image es store company_id task_ state_id
          navigate_earlier).2)
  /\ (forall metric_ variant_ iteration_ refresh state_id,
        store_well_ranged
          (get_debug_image_for_variant max_variants_count new_id es store
             company_id task_ metric_ variant_ iteration_ refresh state_id).2).
Proof.
  split.
  - intros state_id navigate_earlier i state' H.
    apply get_next_debug_image_variant_states in H as (j & state & Hj & ->).
    apply (Hranged j state Hj).
  - intros metric_ variant_ iteration_ refresh state_id i state' H.
    apply get_debug_image_for_variant_variant_states in H
      as [(j & state & Hj & ->)|(state & rebuilt & Hr & ->)].
    + apply (Hranged j state Hj).
    + apply (_reset_variant_states_well_ranged _ _ _ _ Hr).
Qed.

(** ** A jump followed by a step *)

Lemma get_next_debug_image_accepts (es : Elasticsearch) (store : Store)
    (company_id task_ state_id : string) (navigate_earlier : bool) (state : State) :
  get_state state_id store = Some state ->
  task state = Some task_ ->
  (get_next_debug_image es store company_id task_ state_id navigate_earlier).1
  <> Raise InvalidScrollId.
Proof.
  intros Hstate Htask. unfold get_next_debug_image. rewrite Hstate.
  rewrite bool_decide_false; [|intros Hneq; apply Hneq, Htask].
  destruct (check_empty_data es company_id); [discriminate|].
  destruct (_get_next_for_current_iteration _ _ _ _) as [[image|]|e] eqn:Hcur; simpl.
  - destruct (_fill_res_and_update_state _ _ _). discriminate.
  - destruct (_get_next_for_another_iteration _ _ _ _) as [[image|]|e] eqn:Hoth;
      simpl.
    + destruct (_fill_res_and_update_state _ _ _). discriminate.
    + discriminate.
    + intros [= ->].
      apply _get_next_for_another_iteration_error in Hoth as [?|?]; discriminate.
  - intros [= ->].
    apply _get_next_for_current_iteration_error in Hcur as [?|?]; discriminate.
Qed.

(** X12. Over an index that is not empty, the cursor id that
    [get_debug_image_for_variant] returns is accepted by
    [get_next_debug_image] for the same task: it does not raise
    [InvalidScrollId]. When the jump returned an event, the step returns a
    result under the same cursor id. When the jump was made without a
    cursor id and returned no event, while the task has an image for the
    metric and the cap on variants is not zero, the step raises
    [TypeError] in either direction. *)
Theorem jump_then_advance (es : Elasticsearch) (store : Store)
    (company_id task_ metric_ variant_ : string) (iteration_ : option Z)
    (refresh : bool) (state_id : option string) (navigate_earlier : bool)
    (res : Res)
    (Hdata : check_empty_data es company_id = false)
    (Hres : (get_debug_image_for_variant max_variants_count new_id es store
               company_id task_ metric_ variant_ iteration_ refresh state_id).1
            = Ok res) :
  exists cursor,
    DebugSampleHistoryResult.scroll_id res = Some cursor
    /\ (get_next_debug_image es
          (get_debug_image_for_variant max_variants_count new_id es store
             company_id task_ metric_ variant_ iteration_ refresh state_id).2
          company_id task_ cursor navigate_earlier).1
       <> Raise InvalidScrollId
    /\ (is_Some (DebugSampleHistoryResult.event res) ->
        exists res',
          (get_next_debug_image es
             (get_debug_image_for_variant max_variants_count new_id es store
                company_id task_ metric_ variant_ iteration_ refresh state_id).2
             company_id task_ cursor navigate_earlier).1 = Ok res'
          /\ DebugSampleHistoryResult.scroll_id res' = Some cursor)
    /\ (state_id = None ->
        DebugSampleHistoryResult.event res = None ->
        (0 < max_variants_count)%nat ->
        (exists d, d ∈ es company_id /\ reported task_ metric_ None d) ->
        (get_next_debug_image es
           (get_debug_image_for_variant max_variants_count new_id es store
              company_id task_ metric_ variant_ iteration_ refresh state_id).2
           company_id task_ cursor navigate_earlier).1 = Raise TypeError).
Proof.
  destruct (get_debug_image_for_variant_cases max_variants_count new_id es store
              company_id task_ metric_ variant_ iteration_ refresh state_id Hdata)
    as [(i & cached & _ & _ & _ & Heq)|(prepared & res0 & saved & Hp & Hw & Heq)];
    rewrite Heq in Hres |- *; [discriminate|].
  injection Hres as ->. cbn [snd].
  destruct (prepares_fields _ _ _ _ _ _ _ _ _ _ Hp) as (Htp & Hmp & _).
  destruct (with_state_Ok _ _ _ _ _ _ _ _ _ Hw) as (Hs & Hsid & Hst & Hsm & Hvs).
  assert (get_state (id prepared) (set_state saved store) = Some saved) as Hget.
  { unfold get_state, set_state. rewrite Hsid. apply lookup_insert_eq. }
  assert (task saved = Some task_) as Htask by congruence.
  exists (id prepared). split; [exact Hs|]. split; [|split].
  - apply (get_next_debug_image_accepts _ _ _ _ _ _ saved Hget Htask).
  - intros [h Hevent].
    pose proof (with_state_selects es company_id task_ metric_ variant_ iteration_
                  prepared) as Hsel.
    rewrite Hw in Hsel.
    destruct (first_named (Some variant_) (variant_states prepared)) as [v|].
    + destruct Hsel as [(h' & _ & _ & _ & [= -> ->])|(_ & [= -> _])];
        [|discriminate].
      destruct (get_next_debug_image_spec es (set_state _ store) company_id task_
                  (id prepared) navigate_earlier _ variant_ (Event.iter h')
                  Hget Htask eq_refl eq_refl)
        as [(h2 & v2 & _ & _ & _ & ->)|(_ & ->)].
      * cbn [metric set_iteration set_variant]. rewrite Hmp. done.
      * eexists. split; reflexivity.
      * eexists. split; reflexivity.
    + injection Hsel as -> _. discriminate.
  - intros -> Hevent Hcap (d & Hd & Hrep).
    destruct Hp as [(i & cached & [=] & _)|(_ & Hp)].
    assert (saved = prepared) as ->.
    { pose proof (with_state_selects es company_id task_ metric_ variant_
                    iteration_ prepared) as Hsel.
      rewrite Hw in Hsel.
      destruct (first_named (Some variant_) (variant_states prepared)) as [v|].
      - destruct Hsel as [(h' & _ & _ & _ & [= -> _])|(_ & [= _ ->])];
          [discriminate | reflexivity].
      - injection Hsel as _ ->. reflexivity. }
    pose proof Hp as Hp'.
    apply _reset_variant_states_Ok in Hp' as (l & Hl & Hprepared).
    cbn [task metric set_metric set_task DebugSampleHistoryState.new] in Hl.
    assert (l <> []) as Hl0.
    { apply (_get_variant_iterations_nonempty max_variants_count es company_id
               task_ metric_ l d Hcap); [|exact Hl].
      apply list_elem_of_filter. split; assumption. }
    rewrite (get_next_debug_image_unselected es _ company_id task_ (id prepared)
               navigate_earlier prepared Hget Htask Hdata).
    + reflexivity.
    + rewrite Hprepared. reflexivity.
    + rewrite Hprepared. cbn [variant_states set_variant_states].
      destruct l; [congruence | discriminate].
Qed.

End Ranges.

(** ** The keys of the settings *)

Lemma append_cons (c : Ascii.ascii) (s t : string) :
  String.append (String c s) t = String c (String.append s t).
Proof. reflexivity. Qed.

Lemma append_empty_r (s : string) : String.append s EmptyString = s.
Proof. induction s as [|c s IH]; [reflexivity|]. rewrite append_cons, IH. reflexivity. Qed.

Lemma append_assoc (s t u : string) :
  String.append (String.append s t) u = String.append s (String.append t u).
Proof.
  induction s as [|c s IH]; [reflexivity|].
  rewrite !append_cons, IH. reflexivity.
Qed.

Lemma lstrip_spec (chars s : string) :
  exists l, s = String.append l (lstrip chars s)
            /\ all_in chars l = true
            /\ starts_in chars (lstrip chars s) = false.
Proof.
  induction s as [|c s (l & Hl & Hall & Hstart)].
  - exists EmptyString. repeat split.
  - cbn [lstrip]. destruct (contains chars c) eqn:Hc.
    + exists (String c l). rewrite append_cons, <- Hl.
      split; [reflexivity|]. split; [|exact Hstart].
      cbn [all_in]. rewrite Hc, Hall. reflexivity.
    + exists EmptyString. split; [reflexivity|]. split; [reflexivity|].
      cbn [starts_in]. exact Hc.
Qed.

Lemma rstrip_spec (chars s : string) :
  exists r, s = String.append (rstrip chars s) r
            /\ all_in chars r = true
            /\ ends_in chars (rstrip chars s) = false.
Proof.
  induction s as [|c s (r & Hr & Hall & Hend)].
  - exists EmptyString. repeat split.
  - cbn [rstrip]. destruct (rstrip chars s) as [|c' t] eqn:Ht.
    + destruct (contains chars c) eqn:Hc.
      * exists (String c r). split; [|split].
        -- rewrite Hr at 1. reflexivity.
        -- cbn [all_in]. rewrite Hc, Hall. reflexivity.
        -- reflexivity.
      * exists r. split; [|split].
        -- rewrite Hr at 1. reflexivity.
        -- exact Hall.
        -- cbn [ends_in]. exact Hc.
    + exists r. split; [|split].
      * rewrite Hr at 1. reflexivity.
      * exact Hall.
      * exact Hend.
Qed.

Lemma rstrip_starts_in (chars s : string) :
  starts_in chars s = false -> starts_in chars (rstrip chars s) = false.
Proof.
  destruct s as [|c s]; [reflexivity|]. cbn [starts_in rstrip]. intros Hc.
  destruct (rstrip chars s); [rewrite Hc|]; cbn [starts_in]; exact Hc.
Qed.

Lemma lstrip_clean (chars s : string) :
  starts_in chars s = false -> lstrip chars s = s.
Proof.
  destruct s as [|c s]; [reflexivity|]. cbn [starts_in lstrip].
  intros ->. reflexivity.
Qed.

Lemma rstrip_clean (chars s : string) :
  ends_in chars s = false -> rstrip chars s = s.
Proof.
  induction s as [|c s IH]; [reflexivity|]. cbn [rstrip].
  destruct s as [|c' s'].
  - cbn [ends_in rstrip]. intros ->. reflexivity.
  - intros H. change (ends_in chars (String c' s') = false) in H.
    rewrite (IH H). reflexivity.
Qed.

Lemma lstrip_all_in (chars l s : string) :
  all_in chars l = true -> lstrip chars (String.append l s) = lstrip chars s.
Proof.
  induction l as [|c l IH]; [reflexivity|].
  cbn [all_in]. intros H. apply andb_true_iff in H as [Hc Hl].
  rewrite append_cons. cbn [lstrip]. rewrite Hc. apply IH, Hl.
Qed.

Lemma rstrip_all_in_nil (chars r : string) :
  all_in chars r = true -> rstrip chars r = EmptyString.
Proof.
  induction r as [|c r IH]; [reflexivity|].
  cbn [all_in rstrip]. intros H. apply andb_true_iff in H as [Hc Hr].
  rewrite (IH Hr), Hc. reflexivity.
Qed.

Lemma rstrip_all_in (chars s r : string) :
  all_in chars r = true -> rstrip chars (String.append s r) = rstrip chars s.
Proof.
  intros Hr. induction s as [|c s IH].
  - apply rstrip_all_in_nil, Hr.
  - rewrite append_cons. cbn [rstrip]. rewrite IH. reflexivity.
Qed.

Lemma lstrip_append (chars s r : string) :
  lstrip chars s <> EmptyString ->
  lstrip chars (String.append s r) = String.append (lstrip chars s) r.
Proof.
  induction s as [|c s IH]; [intros H; exfalso; apply H; reflexivity|].
  rewrite append_cons. cbn [lstrip].
  destruct (contains chars c); [exact IH | reflexivity].
Qed.

Lemma lstrip_nil_all_in (chars s : string) :
  lstrip chars s = EmptyString -> all_in chars s = true.
Proof.
  induction s as [|c s IH]; [reflexivity|]. cbn [lstrip all_in].
  destruct (contains chars c); [exact IH | discriminate].
Qed.

Lemma all_in_append (chars s t : string) :
  all_in chars (String.append s t) = all_in chars s && all_in chars t.
Proof.
  induction s as [|c s IH]; [reflexivity|].
  rewrite append_cons. cbn [all_in]. rewrite IH, andb_assoc. reflexivity.
Qed.

Lemma lstrip_all_in_nil (chars s : string) :
  all_in chars s = true -> lstrip chars s = EmptyString.
Proof.
  induction s as [|c s IH]; [reflexivity|]. cbn [all_in lstrip].
  intros H. apply andb_true_iff in H as [-> Hs]. apply IH, Hs.
Qed.

(** Padding a key with characters among [chars] on either side does not
    change what [strip] makes of it. *)
Lemma strip_padded (chars l s r : string) :
  all_in chars l = true -> all_in chars r = true ->
  strip chars (String.append l (String.append s r)) = strip chars s.
Proof.
  intros Hl Hr. unfold strip. rewrite (lstrip_all_in _ _ _ Hl).
  destruct (lstrip chars s) as [|c t] eqn:Hs.
  - apply lstrip_nil_all_in in Hs. rewrite lstrip_all_in_nil.
    + reflexivity.
    + rewrite all_in_append, Hs, Hr. reflexivity.
  - rewrite lstrip_append by congruence. rewrite Hs.
    apply rstrip_all_in, Hr.
Qed.

Lemma strip_clean (chars s : string) :
  starts_in chars (strip chars s) = false /\ ends_in chars (strip chars s) = false.
Proof.
  unfold strip. destruct (lstrip_spec chars s) as (l & _ & _ & Hstart).
  destruct (rstrip_spec chars (lstrip chars s)) as (r & _ & _ & Hend).
  split; [apply rstrip_starts_in, Hstart | exact Hend].
Qed.

Lemma strip_idempotent (chars s : string) :
  strip chars (strip chars s) = strip chars s.
Proof.
  destruct (strip_clean chars s) as [Hstart Hend].
  unfold strip at 1. rewrite (lstrip_clean _ _ Hstart). apply rstrip_clean, Hend.
Qed.

Lemma startswith_spec (s prefix : string) :
  startswith s prefix = true <-> exists rest, s = String.append prefix rest.
Proof.
  revert s. induction prefix as [|p prefix IH]; intros s.
  - split; [|destruct s; reflexivity]. intros _. exists s. reflexivity.
  - destruct s as [|c s]; cbn [startswith].
    + split; [discriminate|]. intros (rest & H). discriminate.
    + destruct (Ascii.eqb_spec c p) as [->|Hne].
      * rewrite IH. split; intros (rest & H); exists rest.
        -- rewrite append_cons, H. reflexivity.
        -- rewrite append_cons in H. congruence.
      * split; [discriminate|]. intros (rest & H).
        rewrite append_cons in H. congruence.
Qed.

(** ** The settings *)

Lemma NoDup_fst_filter {K V : Type} (P : K * V -> Prop) `{!forall x, Decision (P x)}
    (l : list (K * V)) :
  NoDup l.*1 -> NoDup (filter P l).*1.
Proof.
  induction l as [|x l IH]; [intros Hnil; exact Hnil|].
  rewrite fmap_cons, NoDup_cons. intros [Hx Hl].
  rewrite filter_cons. destruct (decide (P x)); [|apply IH, Hl].
  rewrite fmap_cons. apply NoDup_cons. split; [|apply IH, Hl].
  intros Hin. apply Hx. apply list_elem_of_fmap in Hin as (y & Hy & Hin).
  apply list_elem_of_filter in Hin as [_ Hin].
  apply list_elem_of_fmap. exists y. split; assumption.
Qed.

(** X13. Every operation on the settings reads its key without the
    leading and trailing separator characters: padding the key with
    separator characters on either side changes neither what
    [get_by_key] and [get_by_prefix] return nor what [set_or_add_value]
    and [add_value] return and store; and the key that is looked up or
    stored neither begins nor ends with a separator character. *)
Theorem settings_key_is_stripped {V D : Type} (db : SettingsDb V)
    (key l r sep : string) (value default : V) (default' : D)
    (Hl : all_in sep l = true) (Hr : all_in sep r = true) :
  get_by_key db (String.append l (String.append key r)) default sep
  = get_by_key db key default sep
  /\ get_by_prefix db (String.append l (String.append key r)) default' sep
     = get_by_prefix db key default' sep
  /\ set_or_add_value db (String.append l (String.append key r)) value sep
     = set_or_add_value db key value sep
  /\ add_value db (String.append l (String.append key r)) value sep
     = add_value db key value sep
  /\ (forall k, (set_or_add_value db key value sep).2 !! k <> db !! k ->
        k = strip sep key
        /\ starts_in sep k = false /\ ends_in sep k = false).
Proof.
  unfold get_by_key, get_by_prefix, set_or_add_value, add_value.
  rewrite (strip_padded sep l key r Hl Hr).
  repeat (split; [reflexivity|]).
  intros k Hk. cbn [snd] in Hk.
  destruct (decide (strip sep key = k)) as [<-|Hne].
  - split; [reflexivity | apply strip_clean].
  - rewrite lookup_insert_ne in Hk by exact Hne. contradiction.
Qed.

(** X14. After [set_or_add_value] of a key, [get_by_key] returns the value
    written for every key that strips to the same key, whatever was there
    before, and what it returned before for every other key. *)
Theorem set_then_get {V : Type} (db : SettingsDb V) (key key' sep : string)
    (value default : V) :
  (strip sep key' = strip sep key ->
   get_by_key (set_or_add_value db key value sep).2 key' default sep = value)
  /\ (strip sep key' <> strip sep key ->
      get_by_key (set_or_add_value db key value sep).2 key' default sep
      = get_by_key db key' default sep).
Proof.
  unfold get_by_key, set_or_add_value. cbn [snd]. split.
  - intros ->. rewrite lookup_insert_eq. reflexivity.
  - intros Hne. rewrite lookup_insert_ne by congruence. reflexivity.
Qed.

(** X15. [add_value] reports [False] exactly when the stripped key is in
    the collection, and then leaves the collection as it was; otherwise
    it stores the value under the stripped key. In both cases every
    setting that was there keeps its value. *)
Theorem add_value_never_overwrites {V : Type} (db : SettingsDb V)
    (key sep : string) (value : V) :
  ((add_value db key value sep).1 = false <-> is_Some (db !! strip sep key))
  /\ ((add_value db key value sep).1 = false ->
      (add_value db key value sep).2 = db)
  /\ ((add_value db key value sep).1 = true ->
      (add_value db key value sep).2 = <[strip sep key := value]> db)
  /\ (forall k v, db !! k = Some v -> (add_value db key value sep).2 !! k = Some v).
Proof.
  unfold add_value. destruct (db !! strip sep key) as [old|] eqn:Hold; cbn [fst snd].
  - split; [|split; [|split]].
    + split; [intros _; eexists; reflexivity | reflexivity].
    + reflexivity.
    + discriminate.
    + intros k v H. exact H.
  - split; [|split; [|split]].
    + split; [discriminate | intros [? H]; discriminate].
    + discriminate.
    + reflexivity.
    + intros k v H. rewrite lookup_insert_ne; [exact H|]. congruence.
Qed.

(** X16. [get_by_prefix] returns the default exactly when no key of the
    collection is the stripped prefix or begins with the stripped prefix
    followed by the separator; otherwise it returns the list, without
    repetition, of exactly the settings under such keys. *)
Theorem get_by_prefix_lists_subtree {V D : Type} (db : SettingsDb V)
    (key_prefix sep : string) (default : D) :
  match get_by_prefix db key_prefix default sep with
  | inl l =>
      l <> [] /\ NoDup l.*1
      /\ forall k v,
           (k, v) ∈ l
           <-> db !! k = Some v
               /\ (k = strip sep key_prefix
                   \/ exists rest,
                        k = String.append (strip sep key_prefix)
                              (String.append sep rest))
  | inr d =>
      d = default
      /\ forall k v, db !! k = Some v ->
           k <> strip sep key_prefix
           /\ forall rest,
                k <> String.append (strip sep key_prefix) (String.append sep rest)
  end.
Proof.
  assert (forall k,
            under_prefix (strip sep key_prefix) sep k
            <-> k = strip sep key_prefix
                \/ exists rest,
                     k = String.append (strip sep key_prefix)
                           (String.append sep rest)) as Hunder.
  { intros k. unfold under_prefix. rewrite orb_True, bool_decide_spec.
    rewrite Is_true_true, startswith_spec.
    split; (intros [H|(rest & H)]; [left; exact H | right; exists rest]).
    - rewrite H. apply append_assoc.
    - rewrite H. symmetry. apply append_assoc. }
  assert (forall k v,
            (k, v) ∈ filter (fun x => Is_true (under_prefix (strip sep key_prefix)
                                                 sep x.1))
                       (map_to_list db)
            <-> db !! k = Some v
                /\ (k = strip sep key_prefix
                    \/ exists rest,
                         k = String.append (strip sep key_prefix)
                               (String.append sep rest))) as Hmem.
  { intros k v. rewrite list_elem_of_filter, elem_of_map_to_list.
    cbn [fst]. rewrite Hunder. tauto. }
  unfold get_by_prefix.
  destruct (filter _ (map_to_list db)) as [|x res] eqn:Hres.
  - split; [reflexivity|]. intros k v Hk.
    assert (~ (k, v) ∈ @nil (string * V)) as Hnot by apply not_elem_of_nil.
    rewrite Hmem in Hnot. split.
    + intros ->. apply Hnot. auto.
    + intros rest ->. apply Hnot. split; [exact Hk|]. right. exists rest. reflexivity.
  - split; [discriminate|]. split; [|exact Hmem].
    rewrite <- Hres. apply NoDup_fst_filter, NoDup_fst_map_to_list.
Qed.

(** ** Instances of the further properties *)

Lemma current_iteration_selects_nearest_sibling_witness :
  sibling_image false abc_state "a" 0 (Event.mk "T" "M" "b" 0 (Some "b0"))
  /\ name_before false (Event.mk "T" "M" "b" 0 (Some "b0"))
       (Event.mk "T" "M" "c" 0 (Some "c0")).
Proof.
  assert (_get_next_for_current_iteration abc_es "c" false abc_state
          = Ok (Some (Event.mk "T" "M" "b" 0 (Some "b0")))) as Heq
    by (vm_compute; reflexivity).
  destruct (current_iteration_selects_nearest_sibling abc_es "c" false abc_state
              "a" 0 (Some (Event.mk "T" "M" "b" 0 (Some "b0")))
              eq_refl eq_refl (ex_intro _ "T" eq_refl)
              (ex_intro _ "M" eq_refl) Heq) as (_ & Hsib & Hleast).
  split; [exact Hsib|]. apply Hleast.
  - apply elem_of_cons. left. reflexivity.
  - unfold sibling_image.
    split; [reflexivity|]. split; [reflexivity|]. split; [reflexivity|].
    split; [eexists; reflexivity|].
    exists (VariantState.mk "c" 0 0). split.
    + do 2 (apply elem_of_cons; right). apply elem_of_cons. left. reflexivity.
    + split; [reflexivity|]. split; [simpl; lia | reflexivity].
Defined.

Lemma another_iteration_selects_nearest_step_witness :
  another_image true demo_state 1 (Event.mk "T" "M" "b" 0 (Some "b0"))
  /\ step_before true (Event.mk "T" "M" "b" 0 (Some "b0"))
       (Event.mk "T" "M" "a" 0 (Some "a0")).
Proof.
  assert (_get_next_for_another_iteration demo_es "c" true demo_state
          = Ok (Some (Event.mk "T" "M" "b" 0 (Some "b0")))) as Heq
    by (vm_compute; reflexivity).
  destruct (another_iteration_selects_nearest_step demo_es "c" true demo_state
              1 (Some (Event.mk "T" "M" "b" 0 (Some "b0")))
              eq_refl (ex_intro _ "T" eq_refl) (ex_intro _ "M" eq_refl) Heq)
    as (_ & Himg & Hleast).
  split; [exact Himg|]. apply Hleast.
  - apply elem_of_cons. left. reflexivity.
  - unfold another_image.
    split; [reflexivity|]. split; [reflexivity|].
    split; [eexists; reflexivity|]. split; [simpl; lia|].
    exists (VariantState.mk "a" 0 1). split.
    + apply elem_of_cons. left. reflexivity.
    + split; [reflexivity | simpl; lia].
Defined.

Lemma advance_selects_next_image_witness :
  next_image demo_es "c" true demo_state "a" 1 (Event.mk "T" "M" "b" 0 (Some "b0")).
Proof.
  apply (advance_selects_next_image demo_es {["cursor" := demo_state]}
           "c" "T" "cursor" true demo_state "a" 1
           (DebugSampleHistoryResult.mk (Some "cursor")
              (Some (Event.mk "T" "M" "b" 0 (Some "b0"))) (Some 0) (Some 0))).
  - apply lookup_singleton_eq.
  - reflexivity.
  - reflexivity.
  - reflexivity.
  - eexists. reflexivity.
  - vm_compute. reflexivity.
Defined.

Lemma advance_moves_cursor_witness :
  (get_next_debug_image demo_es {["cursor" := demo_state]} "c" "T" "cursor" true).2
  = <["cursor" := DebugSampleHistoryState.mk "cursor" (Some 0) (Some "b") (Some "T")
                    (Some "M") None None
                    [VariantState.mk "a" 0 1; VariantState.mk "b" 0 0] None]>
      {["cursor" := demo_state]}.
Proof.
  apply (advance_moves_cursor demo_es {["cursor" := demo_state]}
           "c" "T" "cursor" true demo_state "a" 1
           (DebugSampleHistoryResult.mk (Some "cursor")
              (Some (Event.mk "T" "M" "b" 0 (Some "b0"))) (Some 0) (Some 0))
           (Event.mk "T" "M" "b" 0 (Some "b0"))).
  - apply lookup_singleton_eq.
  - reflexivity.
  - reflexivity.
  - reflexivity.
  - eexists. reflexivity.
  - vm_compute. reflexivity.
  - reflexivity.
Defined.

Lemma advance_without_selection_raises_witness :
  get_next_debug_image demo_es {["cursor" := unselected_state]}
    "c" "T" "cursor" false
  = (Raise TypeError, {["cursor" := unselected_state]}).
Proof.
  apply (advance_without_selection_raises demo_es {["cursor" := unselected_state]}
           "c" "T" "cursor" false unselected_state).
  - apply lookup_singleton_eq.
  - reflexivity.
  - reflexivity.
  - reflexivity.
  - discriminate.
Defined.

Lemma jump_selects_latest_witness :
  variant_image "T" "M" "a" (Some 0) 0 (Event.mk "T" "M" "a" 0 (Some "a0"))
  /\ first_state = set_iteration (Some 0) (set_variant (Some "a") demo_state).
Proof.
  pose proof (jump_selects_latest demo_es "c" "T" "M" "a" (Some 0) demo_state
                (DebugSampleHistoryResult.mk (Some "cursor")
                   (Some (Event.mk "T" "M" "a" 0 (Some "a0"))) (Some 0) (Some 1))
                first_state) as H.
  destruct H as (_ & _ & _ & _ & Himg & _ & Hstate).
  - vm_compute. reflexivity.
  - split; [exact Himg | exact Hstate].
Defined.

Lemma jump_invalid_scroll_id_iff_mismatch_witness :
  (get_debug_image_for_variant 100 mint_cursor demo_es {["cursor" := demo_state]}
     "c" "U" "M" "a" None false (Some "cursor")).1
  = Raise InvalidScrollId.
Proof.
  apply (jump_invalid_scroll_id_iff_mismatch 100 mint_cursor demo_es
           {["cursor" := demo_state]} "c" "U" "M" "a" None false (Some "cursor")).
  split; [reflexivity|].
  exists "cursor", demo_state. split; [reflexivity|].
  split; [apply lookup_singleton_eq|]. left. discriminate.
Defined.

Lemma jump_saves_under_returned_cursor_witness :
  exists prepared saved,
    DebugSampleHistoryResult.scroll_id
      (DebugSampleHistoryResult.mk (Some "cursor0")
         (Some (Event.mk "T" "M" "a" 1 (Some "a1"))) (Some 0) (Some 1))
    = Some (id prepared)
    /\ ({["cursor" := demo_state]} : Store) !! id prepared = None
    /\ (get_debug_image_for_variant 100 mint_cursor demo_es
          {["cursor" := demo_state]} "c" "T" "M" "a" None false None).2
       = <[id prepared := saved]> {["cursor" := demo_state]}
    /\ (get_debug_image_for_variant 100 mint_cursor demo_es
          {["cursor" := demo_state]} "c" "T" "M" "a" None false None).2 !! "cursor"
       = Some demo_state
    /\ task saved = Some "T".
Proof.
  destruct (jump_saves_under_returned_cursor 100 mint_cursor demo_es
              {["cursor" := demo_state]} "c" "T" "M" "a" None false None
              (DebugSampleHistoryResult.mk (Some "cursor0")
                 (Some (Event.mk "T" "M" "a" 1 (Some "a1"))) (Some 0) (Some 1)))
    as (prepared & saved & _ & _ & Hid & Hnew & Hstore & _ & _ & Htask & _).
  - intros _. apply fresh_string_fresh.
  - reflexivity.
  - vm_compute. reflexivity.
  - cbn [mbind option_bind] in Hnew. destruct Hnew as (_ & Hfree & Hkept).
    exists prepared, saved. split; [exact Hid|]. split; [exact Hfree|].
    split; [exact Hstore|]. split; [|exact Htask].
    apply Hkept, lookup_singleton_eq.
Defined.

Lemma resolver_lists_variants_up_to_cap_witness :
  (exists d, d ∈ demo_es "c" /\ reported "T" "M" (Some ["b"]) d
             /\ Event.variant d = "b")
  /\ (length [("a", 0, 1)] = 1%nat
      /\ forall v, v ∈ [("a", 0, 1)].*1.*1 -> String.le v "b").
Proof.
  split.
  - destruct (resolver_lists_variants_up_to_cap 100 demo_es "c" "T" "M"
                (Some ["b"]) [("b", 0, 0)]) as (_ & _ & Hsound & _).
    + vm_compute. reflexivity.
    + apply Hsound. apply elem_of_cons. left. reflexivity.
  - destruct (resolver_lists_variants_up_to_cap 1 demo_es "c" "T" "M"
                None [("a", 0, 1)]) as (_ & _ & _ & Hcomplete).
    + vm_compute. reflexivity.
    + destruct (Hcomplete (Event.mk "T" "M" "b" 0 (Some "b0"))) as [Hin|Hfull].
      * do 1 (apply elem_of_cons; right). apply elem_of_cons. left. reflexivity.
      * split; [reflexivity|]. split; [reflexivity|].
        split; [eexists; reflexivity | exact I].
      * exfalso. simpl in Hin. apply list_elem_of_singleton in Hin. discriminate.
      * exact Hfull.
Defined.

Lemma max_iteration_is_largest_witness :
  exists l,
    _get_variant_iterations 100 recycling_es "c" (Some "T") (Some "M") None = Ok l
    /\ exists d, d ∈ recycling_es "c" /\ Event.variant d = "x" /\ Event.iter d = 3.
Proof.
  destruct (max_iteration_is_largest 100 recycling_es "c" "T" "M" None)
    as (l & Hl & Hmax).
  exists l. split; [exact Hl|].
  destruct (Hmax "x" 2 3) as [(d & Hd & _ & Hvar & Hiter) _].
  - vm_compute in Hl. injection Hl as <-. apply elem_of_cons. left. reflexivity.
  - exists d. split; [exact Hd|]. split; assumption.
Defined.

Lemma demo_store_well_ranged : store_well_ranged {["cursor" := demo_state]}.
Proof.
  intros i state H. apply lookup_singleton_Some in H as [_ <-]. split.
  - simpl. apply NoDup_cons. split.
    + intros H. apply elem_of_cons in H as [H|H]; [discriminate|].
      apply elem_of_nil in H. exact H.
    + apply NoDup_singleton.
  - intros v Hv. simpl in Hv.
    apply elem_of_cons in Hv as [->|Hv]; [simpl; lia|].
    apply elem_of_cons in Hv as [->|Hv]; [simpl; lia|].
    apply elem_of_nil in Hv. contradiction.
Qed.

Lemma cached_ranges_stay_well_formed_witness :
  store_well_ranged
    (get_next_debug_image demo_es {["cursor" := demo_state]} "c" "T" "cursor" true).2
  /\ store_well_ranged
       (get_debug_image_for_variant 100 mint_cursor demo_es
          {["cursor" := demo_state]} "c" "T" "M" "b" None true None).2.
Proof.
  destruct (cached_ranges_stay_well_formed 100 mint_cursor demo_es
              {["cursor" := demo_state]} "c" "T" demo_store_well_ranged)
    as [Hnext Hjump].
  split; [apply Hnext | apply Hjump].
Defined.

Lemma jump_then_advance_witness :
  exists cursor,
    DebugSampleHistoryResult.scroll_id
      (DebugSampleHistoryResult.mk (Some "cursor") None None None) = Some cursor
    /\ (get_next_debug_image demo_es
          (get_debug_image_for_variant 100 mint_cursor demo_es ∅
             "c" "T" "M" "z" None false None).2
          "c" "T" cursor false).1 = Raise TypeError.
Proof.
  destruct (jump_then_advance 100 mint_cursor demo_es ∅
              "c" "T" "M" "z" None false None false
              (DebugSampleHistoryResult.mk (Some "cursor") None None None))
    as (cursor & Hid & _ & _ & Hraise).
  - reflexivity.
  - vm_compute. reflexivity.
  - exists cursor. split; [exact Hid|]. apply Hraise.
    + reflexivity.
    + reflexivity.
    + lia.
    + exists (Event.mk "T" "M" "a" 0 (Some "a0")). split.
      * apply elem_of_cons. left. reflexivity.
      * unfold reported. split; [reflexivity|]. split; [reflexivity|].
        split; [eexists; reflexivity | exact I].
Defined.

Lemma settings_key_is_stripped_witness :
  get_by_key demo_settings "..a.b." "0" "." = get_by_key demo_settings "a.b" "0" ".".
Proof.
  apply (settings_key_is_stripped demo_settings "a.b" ".." "." "." "9" "0" tt).
  - reflexivity.
  - reflexivity.
Defined.

Lemma set_then_get_witness :
  get_by_key (set_or_add_value demo_settings ".a.b" "9" ".").2 "a.b." "0" "." = "9"
  /\ get_by_key (set_or_add_value demo_settings ".a.b" "9" ".").2 "ab" "0" "."
     = get_by_key demo_settings "ab" "0" ".".
Proof.
  destruct (set_then_get demo_settings ".a.b" "a.b." "." "9" "0") as [Hsame _].
  destruct (set_then_get demo_settings ".a.b" "ab" "." "9" "0") as [_ Hother].
  split; [apply Hsame; reflexivity | apply Hother; discriminate].
Defined.

Lemma add_value_never_overwrites_witness :
  (add_value demo_settings "a.b." "9" ".").2 = demo_settings
  /\ (add_value demo_settings "c" "9" ".").2 = <["c" := "9"]> demo_settings.
Proof.
  destruct (add_value_never_overwrites demo_settings "a.b." "." "9")
    as (_ & Hkeep & _).
  destruct (add_value_never_overwrites demo_settings "c" "." "9")
    as (_ & _ & Hadd & _).
  split; [apply Hkeep | apply Hadd]; vm_compute; reflexivity.
Defined.

Lemma get_by_prefix_lists_subtree_witness :
  exists l,
    get_by_prefix demo_settings "a." tt "." = inl l
    /\ ("a.b", "2") ∈ l /\ ("a", "1") ∈ l /\ ("ab", "3") ∉ l.
Proof.
  pose proof (get_by_prefix_lists_subtree demo_settings "a." "." tt) as H.
  destruct (get_by_prefix demo_settings "a." tt ".") as [l|d] eqn:Heq;
    [|vm_compute in Heq; discriminate].
  destruct H as (_ & _ & Hmem). exists l. split; [reflexivity|].
  split; [|split].
  - apply Hmem. split; [vm_compute; reflexivity|]. right. exists "b". reflexivity.
  - apply Hmem. split; [vm_compute; reflexivity|]. left. reflexivity.
  - intros Hin. apply Hmem in Hin as [_ [Hk|(rest & Hk)]]; vm_compute in Hk;
      discriminate.
Defined.
